(** * Flipbook server: a shallow embedding of [server.js] and [models/Drawing.js]

    The server is an Express application plus a Socket.IO event loop over one
    MongoDB collection of [Drawing] documents.  Every handler of the source is
    an [async] function wrapped in [try { ... } catch (error) { ... }]: it
    threads the process state (the collection, the Socket.IO rooms, the wall
    clock) and may be interrupted by a rejected store call.  The embedding is
    a state-and-exception monad [M] over a [World]; each handler below is the
    transcription of the source handler of the same route or event.

    What the libraries do (Mongoose queries, Socket.IO rooms) is not code of
    the repository; it is modelled in the sections [Store] and [Rooms] and the
    modelling choices are stated where they are made.  A handler runs to
    completion before the next one starts: the interleaving of two [async]
    handlers at their [await] is outside this development.  The routes that
    report on the server itself ([/], [/api/info], [/health]), the
    [cursor-move] relay and the informational [console.log] lines are left
    out.  The two routes that report on flipbooks and the part of the browser
    client that keeps its copy of the frames come after the handlers. *)

From stdpp Require Import base decidable option list sorting gmap sets strings.
From Stdlib Require Import ZArith Lia.

Local Open Scope string_scope.
Local Open Scope list_scope.
Local Open Scope Z_scope.

(* ===================================================================== *)
(** ** JavaScript values that cross the handlers *)
(* ===================================================================== *)

(** A JS number as the handlers meet it: an integer, or [NaN] (what
    [parseInt] yields on a route segment that does not start with digits). *)
Inductive JsNumber :=
| Num (z : Z)
| NaN.

#[global] Instance JsNumber_eq_dec : EqDecision JsNumber.
Proof. solve_decision. Defined.

(** A field that may be absent from a payload is an [option]; [None] is the
    JS [undefined]. *)

(** [x || d] on an optional string: [undefined] and the empty string are
    falsy. *)
Definition or_default (x : option string) (d : string) : string :=
  match x with
  | Some s => if decide (s = "") then d else s
  | None => d
  end.

(** A JS string is held as its UTF-8 text.  [utf8 c] is the encoding of a
    code point of the Basic Multilingual Plane. *)
Definition utf8 (c : N) : string :=
  let byte n := String (Ascii.ascii_of_N n) in
  if (c <? 0x80)%N then byte c ""
  else if (c <? 0x800)%N then
    byte (0xC0 + c / 0x40)%N (byte (0x80 + c mod 0x40)%N "")
  else
    byte (0xE0 + c / 0x1000)%N
      (byte (0x80 + (c / 0x40) mod 0x40)%N (byte (0x80 + c mod 0x40)%N "")).

(** The code points [String.prototype.trim] removes, as ECMAScript lists
    them.  WhiteSpace: TAB, VT, FF, SP, NBSP, ZWNBSP and the Unicode space
    separators; LineTerminator: LF, CR, LS, PS. *)
Definition white_space : list N :=
  [ 0x0009; 0x000B; 0x000C; 0x0020; 0x00A0; 0xFEFF;
    0x1680; 0x2000; 0x2001; 0x2002; 0x2003; 0x2004; 0x2005; 0x2006; 0x2007;
    0x2008; 0x2009; 0x200A; 0x202F; 0x205F; 0x3000;
    0x000A; 0x000D; 0x2028; 0x2029 ]%N.

(** [s] without its prefix [p], when it starts with [p]. *)
Fixpoint skip (p s : string) : option string :=
  match p, s with
  | EmptyString, _ => Some s
  | String a p', String b s' => if decide (a = b) then skip p' s' else None
  | String _ _, EmptyString => None
  end.

(** [s] without the one of [ps] it starts with. *)
Definition skip_one (ps : list string) (s : string) : option string :=
  head (omap (λ p, skip p s) ps).

(** Drop leading members of [ps] for as long as there is one; [n] bounds the
    number of them, the length of [s] is enough. *)
Fixpoint skip_all (ps : list string) (n : nat) (s : string) : string :=
  match n with
  | O => s
  | S n' => match skip_one ps s with
            | Some s' => skip_all ps n' s'
            | None => s
            end
  end.

(** [String.prototype.trim]: white space and line terminators are removed
    at both ends. *)
Definition trimStart (s : string) : string :=
  skip_all (utf8 <$> white_space) (String.length s) s.

Definition trimEnd (s : string) : string :=
  String.rev (skip_all (String.rev ∘ utf8 <$> white_space) (String.length s)
                (String.rev s)).

Definition trim (s : string) : string := trimEnd (trimStart s).

(* ===================================================================== *)
(** ** models/Drawing.js: the document *)
(* ===================================================================== *)

(** One document of the collection.  [flipbookId] and [frameIndex] are
    optional because the update path of the server (findOneAndUpdate) does not
    run the schema's [required] validators: an absent key is stored as null,
    here [None]. *)
Record Drawing := mkDrawing {
  flipbookId : option string;
  frameIndex : option Z;
  drawingData : option string;
  createdAt : Z;
  updatedAt : Z;
  createdBy : string
}.

#[global] Instance Drawing_eq_dec : EqDecision Drawing.
Proof. solve_decision. Defined.

(** The compound key of [drawingSchema.index({flipbookId:1, frameIndex:1},
    {unique:true})]. *)
Definition key (d : Drawing) : option string * option Z :=
  (flipbookId d, frameIndex d).

(** The constraint the unique index puts on a collection. *)
Definition unique_index (c : list Drawing) : Prop := NoDup (key <$> c).

(* ===================================================================== *)
(** ** What the server sends *)
(* ===================================================================== *)

(** Server-to-client Socket.IO events with their payload. *)
Inductive ServerEvent :=
| FlipbookState (docs : list Drawing)
| DrawingUpdated (flipbookId : option string) (frameIndex : option JsNumber)
    (drawingData : option string) (createdBy : string) (updatedAt : Z)
| DrawingSaved (flipbookId : option string) (frameIndex : option JsNumber)
    (success : bool)
| DrawingError (error : string)
| FrameDeleted (flipbookId : option string) (frameIndex : option JsNumber)
| FlipbookDeleted (flipbookId : string)
| FlipbookRenamed (oldFlipbookId newFlipbookId : string).

(** JSON bodies of the HTTP responses. *)
Inductive Body :=
| JDrawings (docs : list Drawing)
| JDrawing (doc : Drawing)
| JError (error : string)
| JMessage (message : string)
| JDeleted (message : string) (deletedCount : nat)
| JRenamed (message : string) (oldFlipbookId newFlipbookId : string)
    (updatedCount : nat).

(** The Mongoose model methods the server calls. *)
Inductive StoreOp :=
| OpFind
| OpFindOne
| OpFindOneAndUpdate
| OpFindOneAndDelete
| OpDeleteMany
| OpUpdateMany.

(** Observable effects, in the order they happen. *)
Inductive Effect :=
| Called (op : StoreOp)                      (* a call into the Drawing model *)
| Deliver (to : string) (ev : ServerEvent)   (* one event reaching one socket *)
| Respond (status : Z) (body : Body)         (* the HTTP response *)
| ConsoleError (msg : string).               (* console.error, server side *)

#[global] Instance JsNumber_inhabited : Inhabited JsNumber := populate NaN.

(* ===================================================================== *)
(** ** The process state and the handler monad *)
(* ===================================================================== *)

(** [drawings]: the collection in natural (insertion) order.
    [rooms]: the Socket.IO adapter, room name to socket ids.  A room name is
    whatever value the client sent: [None] is [undefined].
    [now], [ticks]: the wall clock; each reading of [Date.now] returns [now]
    and lets the next amount of [ticks] elapse.
    [faults]: the fate of the coming store round trips; [true] is a rejected
    call (connection lost, time-out).
    [trace]: the effects so far, oldest first. *)
Record World := mkWorld {
  drawings : list Drawing;
  rooms : gmap (option string) (gset string);
  now : Z;
  ticks : list N;
  faults : list bool;
  trace : list Effect
}.

Definition set_drawings (c : list Drawing) (w : World) : World :=
  mkWorld c (rooms w) (now w) (ticks w) (faults w) (trace w).

Definition set_rooms (r : gmap (option string) (gset string)) (w : World) : World :=
  mkWorld (drawings w) r (now w) (ticks w) (faults w) (trace w).

Definition log (e : list Effect) (w : World) : World :=
  mkWorld (drawings w) (rooms w) (now w) (ticks w) (faults w) (trace w ++ e).

(** What a rejected promise or a thrown exception carries. *)
Inductive Error :=
| TypeError       (* destructuring undefined, calling a method of a non-string *)
| CastError       (* Mongoose: a filter value does not cast to the schema type *)
| DuplicateKey    (* MongoDB E11000 on the unique index *)
| StoreError.     (* any failure of the round trip itself *)

Inductive Outcome (A : Type) :=
| Ok (a : A)
| Throw (e : Error).
Arguments Ok {A} a.
Arguments Throw {A} e.

Definition M (A : Type) : Type := World → Outcome A * World.

#[global] Instance M_ret : MRet M := λ A a w, (Ok a, w).
#[global] Instance M_bind : MBind M := λ A B f m w,
  match m w with
  | (Ok a, w') => f a w'
  | (Throw e, w') => (Throw e, w')
  end.
#[global] Instance M_throw : MThrow Error M := λ A e w, (Throw e, w).

(** [try { body } catch (error) { handler }]. *)
Definition try_catch {A} (body : M A) (handler : Error → M A) : M A :=
  λ w, match body w with
       | (Ok a, w') => (Ok a, w')
       | (Throw e, w') => handler e w'
       end.

Notation "'try' b 'catch' h" := (try_catch b h)
  (at level 10, b at level 200, h at level 200, only parsing).

Definition get {A} (f : World → A) : M A := λ w, (Ok (f w), w).
Definition modify (f : World → World) : M unit := λ w, (Ok tt, f w).
Definition emit_effects (e : list Effect) : M unit := modify (log e).

(** The world a computation leaves behind, and its result. *)
Definition exec {A} (m : M A) (w : World) : World := (m w).2.
Definition result {A} (m : M A) (w : World) : Outcome A := (m w).1.

(** The effects a run added to the trace. *)
Definition since (w w' : World) : list Effect :=
  drop (length (trace w)) (trace w').

(** [Date.now()]. *)
Definition Date_now : M Z := λ w,
  (Ok (now w),
   mkWorld (drawings w) (rooms w) (now w + Z.of_N (hd 0%N (ticks w)))
     (tl (ticks w)) (faults w) (trace w)).

(** One round trip to MongoDB. *)
Definition round_trip : M unit := λ w,
  let w' := mkWorld (drawings w) (rooms w) (now w) (ticks w) (tl (faults w))
              (trace w) in
  match faults w with
  | true :: _ => (Throw StoreError, w')
  | _ => (Ok tt, w')
  end.

Definition console_error (msg : string) : M unit :=
  emit_effects [ConsoleError msg].

(* ===================================================================== *)
(** ** Store: the Mongoose model [Drawing] *)
(* ===================================================================== *)

(** The two filter shapes of the source: [{ flipbookId }] and
    [{ flipbookId, frameIndex }]. *)
Inductive Conditions :=
| ByFlipbook (flipbookId : option string)
| ByFrame (flipbookId : option string) (frameIndex : option JsNumber).

(** A filter after Mongoose has cast it to the schema types. *)
Inductive Selector :=
| SelFlipbook (f : option string)
| SelFrame (f : option string) (i : option Z).

Definition selects (s : Selector) (d : Drawing) : Prop :=
  match s with
  | SelFlipbook f => flipbookId d = f
  | SelFrame f i => key d = (f, i)
  end.

#[global] Instance selects_dec s d : Decision (selects s d).
Proof. destruct s; simpl; apply _. Defined.

(** Casting a filter: an absent value stays absent (it is matched as null),
    [NaN] is refused. *)
Definition cast_number (n : option JsNumber) : option (option Z) :=
  match n with
  | None => Some None
  | Some (Num z) => Some (Some z)
  | Some NaN => None
  end.

Definition selector_of (q : Conditions) : option Selector :=
  match q with
  | ByFlipbook f => Some (SelFlipbook f)
  | ByFrame f n => SelFrame f <$> cast_number n
  end.

(** Mongoose throws a CastError, before anything is sent, when the filter
    does not cast. *)
Definition cast (q : Conditions) : M Selector :=
  match selector_of q with
  | Some s => mret s
  | None => mthrow CastError
  end.

(** The order of [.sort({ frameIndex: 1 })]: null sorts before every
    number. *)
Definition index_le (a b : Drawing) : Prop :=
  match frameIndex a, frameIndex b with
  | None, _ => True
  | Some _, None => False
  | Some x, Some y => x ≤ y
  end.

#[global] Instance index_le_dec : RelDecision index_le.
Proof.
  intros a b. unfold index_le.
  destruct (frameIndex a), (frameIndex b); apply _.
Defined.

#[global] Instance index_le_total : Total index_le.
Proof.
  intros a b. unfold index_le.
  destruct (frameIndex a), (frameIndex b); try tauto. lia.
Qed.

(** [Drawing.find(q)], with [.sort({ frameIndex: 1 })] when [sorted]. *)
Definition Drawing_find (q : Conditions) (sorted : bool) : M (list Drawing) :=
  emit_effects [Called OpFind];;
  s ← cast q;
  round_trip;;
  c ← get drawings;
  let found := filter (selects s) c in
  mret (if sorted then merge_sort index_le found else found).

(** [Drawing.findOne(q)]: the first match in natural order, or null. *)
Definition Drawing_findOne (q : Conditions) : M (option Drawing) :=
  emit_effects [Called OpFindOne];;
  s ← cast q;
  round_trip;;
  c ← get drawings;
  mret (head (filter (selects s) c)).

(** The update document of the two upserts of the source:
    [{ drawingData, createdBy, updatedAt }]. *)
Record Update := mkUpdate {
  u_drawingData : option string;
  u_createdBy : string;
  u_updatedAt : Z
}.

(** What the update sets on a stored document.  Mongoose leaves a key whose
    value is [undefined] out of the update it sends: without [drawingData]
    in the request the stored [drawingData] stays. *)
Definition apply_update (u : Update) (d : Drawing) : Drawing :=
  {| flipbookId := flipbookId d; frameIndex := frameIndex d;
     drawingData := match u_drawingData u with
                    | Some data => Some data
                    | None => drawingData d
                    end;
     createdAt := createdAt d;
     updatedAt := u_updatedAt u; createdBy := u_createdBy u |}.

(** The document an upsert inserts: the equality fields of the filter, the
    update, and the schema default [createdAt: Date.now]. *)
Definition inserted (s : Selector) (u : Update) (t : Z) : Drawing :=
  {| flipbookId := match s with SelFlipbook f | SelFrame f _ => f end;
     frameIndex := match s with SelFlipbook _ => None | SelFrame _ i => i end;
     drawingData := u_drawingData u; createdAt := t;
     updatedAt := u_updatedAt u; createdBy := u_createdBy u |}.

(** Replace the first match in place. *)
Fixpoint update_first (s : Selector) (u : Update) (c : list Drawing)
  : option (Drawing * list Drawing) :=
  match c with
  | [] => None
  | d :: c' =>
      if decide (selects s d) then Some (apply_update u d, apply_update u d :: c')
      else match update_first s u c' with
           | Some (d', c'') => Some (d', d :: c'')
           | None => None
           end
  end.

(** [Drawing.findOneAndUpdate(q, u, { upsert: true, new: true })]: the
    document after the update.  The default of [createdAt] is read from the
    clock when the query is built; it is stored only on insert. *)
Definition Drawing_findOneAndUpdate (q : Conditions) (u : Update) : M Drawing :=
  emit_effects [Called OpFindOneAndUpdate];;
  s ← cast q;
  t ← Date_now;
  round_trip;;
  c ← get drawings;
  match update_first s u c with
  | Some (d, c') => modify (set_drawings c');; mret d
  | None =>
      let d := inserted s u t in
      modify (set_drawings (c ++ [d]));; mret d
  end.

(** Remove the first match. *)
Fixpoint delete_first (s : Selector) (c : list Drawing)
  : option Drawing * list Drawing :=
  match c with
  | [] => (None, [])
  | d :: c' =>
      if decide (selects s d) then (Some d, c')
      else let '(r, c'') := delete_first s c' in (r, d :: c'')
  end.

(** [Drawing.findOneAndDelete(q)]: the removed document, or null. *)
Definition Drawing_findOneAndDelete (q : Conditions) : M (option Drawing) :=
  emit_effects [Called OpFindOneAndDelete];;
  s ← cast q;
  round_trip;;
  c ← get drawings;
  let '(r, c') := delete_first s c in
  modify (set_drawings c');; mret r.

(** [Drawing.deleteMany(q)]: [deletedCount]. *)
Definition Drawing_deleteMany (q : Conditions) : M nat :=
  emit_effects [Called OpDeleteMany];;
  s ← cast q;
  round_trip;;
  c ← get drawings;
  modify (set_drawings (filter (λ d, ¬ selects s d) c));;
  mret (length (filter (selects s) c)).

Definition set_flipbookId (newId : string) (d : Drawing) : Drawing :=
  {| flipbookId := Some newId; frameIndex := frameIndex d;
     drawingData := drawingData d; createdAt := createdAt d;
     updatedAt := updatedAt d; createdBy := createdBy d |}.

(** [{ $set: { flipbookId: newId } }] over the matches, one document at a
    time.  The unique index refuses a rewrite whose key is taken (E11000);
    the documents rewritten before stay rewritten.  The count is
    [modifiedCount]: the documents whose content changed. *)
Fixpoint rewrite_all (s : Selector) (newId : string) (done todo : list Drawing)
  : Outcome nat * list Drawing :=
  match todo with
  | [] => (Ok 0%nat, done)
  | d :: rest =>
      if decide (selects s d) then
        let d' := set_flipbookId newId d in
        if decide (key d' ∈ key <$> (done ++ rest))
        then (Throw DuplicateKey, done ++ todo)
        else match rewrite_all s newId (done ++ [d']) rest with
             | (Ok n, c) => (Ok ((if decide (d' = d) then 0 else 1) + n)%nat, c)
             | r => r
             end
      else rewrite_all s newId (done ++ [d]) rest
  end.

(** [Drawing.updateMany(q, { $set: { flipbookId: newId } })]. *)
Definition Drawing_updateMany (q : Conditions) (newId : string) : M nat :=
  emit_effects [Called OpUpdateMany];;
  s ← cast q;
  round_trip;;
  c ← get drawings;
  let '(r, c') := rewrite_all s newId [] c in
  modify (set_drawings c');;
  match r with
  | Ok n => mret n
  | Throw e => mthrow e
  end.

(* ===================================================================== *)
(** ** Rooms: the Socket.IO calls of the server *)
(* ===================================================================== *)

(** The sockets currently in a room. *)
Definition members (room : option string) (w : World) : gset string :=
  default ∅ (rooms w !! room).

(** [socket.join(room)]. *)
Definition socket_join (socket : string) (room : option string) : M unit :=
  modify (λ w, set_rooms (<[room := {[socket]} ∪ members room w]> (rooms w)) w).

(** [socket.leave(room)]: the adapter removes the socket from the room's set
    and drops the room once the set is empty. *)
Definition socket_leave (socket : string) (room : option string) : M unit :=
  modify (λ w,
    match rooms w !! room with
    | Some s =>
        let s' := s ∖ {[socket]} in
        set_rooms (if decide (s' = ∅) then delete room (rooms w)
                   else <[room := s']> (rooms w)) w
    | None => w
    end).

Definition deliver_all (to : gset string) (ev : ServerEvent) : list Effect :=
  (λ r, Deliver r ev) <$> elements to.

(** [socket.emit(ev, payload)]: to this socket only. *)
Definition socket_emit (socket : string) (ev : ServerEvent) : M unit :=
  emit_effects [Deliver socket ev].

(** [socket.to(room).emit(ev, payload)]: to the room, this socket excepted. *)
Definition socket_to_emit (socket : string) (room : option string)
    (ev : ServerEvent) : M unit :=
  w ← get id;
  emit_effects (deliver_all (members room w ∖ {[socket]}) ev).

(** [io.to(room).emit(ev, payload)]: to the whole room. *)
Definition io_to_emit (room : option string) (ev : ServerEvent) : M unit :=
  w ← get id;
  emit_effects (deliver_all (members room w) ev).

(** [res.json(body)] and [res.status(code).json(body)]. *)
Definition res_json (body : Body) : M unit := emit_effects [Respond 200 body].
Definition res_status_json (code : Z) (body : Body) : M unit :=
  emit_effects [Respond code body].

(* ===================================================================== *)
(** ** server.js: the REST routes *)
(* ===================================================================== *)

(** The route parameter [:flipbookId] is a string; [frameIndex] below is the
    value of [parseInt(req.params.frameIndex)].  The four frame routes carry
    the names [/api/info] lists them under. *)

(** GET /api/flipbook/:flipbookId/frames *)
Definition getFrames (flipbookId : string) : M unit :=
  try (
    drawings ← Drawing_find (ByFlipbook (Some flipbookId)) true;
    res_json (JDrawings drawings)
  ) catch (λ error,
    console_error "Error fetching frames:";;
    res_status_json 500 (JError "Failed to fetch frames")).

(** GET /api/flipbook/:flipbookId/frame/:frameIndex *)
Definition getFrame (flipbookId : string) (frameIndex : JsNumber) : M unit :=
  try (
    drawing ← Drawing_findOne (ByFrame (Some flipbookId) (Some frameIndex));
    match drawing with
    | None => res_status_json 404 (JError "Frame not found")
    | Some drawing => res_json (JDrawing drawing)
    end
  ) catch (λ error,
    console_error "Error fetching frame:";;
    res_status_json 500 (JError "Failed to fetch frame")).

(** POST /api/flipbook/:flipbookId/frame/:frameIndex, with the body fields
    [drawingData] and [createdBy]. *)
Definition saveFrame (flipbookId : string) (frameIndex : JsNumber)
    (drawingData createdBy : option string) : M unit :=
  try (
    t ← Date_now;
    drawing ← Drawing_findOneAndUpdate
      (ByFrame (Some flipbookId) (Some frameIndex))
      {| u_drawingData := drawingData;
         u_createdBy := or_default createdBy "anonymous";
         u_updatedAt := t |};
    res_json (JDrawing drawing)
  ) catch (λ error,
    console_error "Error saving frame:";;
    res_status_json 500 (JError "Failed to save frame")).

(** DELETE /api/flipbook/:flipbookId/frame/:frameIndex *)
Definition deleteFrame (flipbookId : string) (frameIndex : JsNumber) : M unit :=
  try (
    Drawing_findOneAndDelete (ByFrame (Some flipbookId) (Some frameIndex));;
    res_json (JMessage "Frame deleted successfully")
  ) catch (λ error,
    console_error "Error deleting frame:";;
    res_status_json 500 (JError "Failed to delete frame")).

(** DELETE /api/flipbook/:flipbookId *)
Definition delete_flipbook (flipbookId : string) : M unit :=
  try (
    deletedCount ← Drawing_deleteMany (ByFlipbook (Some flipbookId));
    io_to_emit (Some flipbookId) (FlipbookDeleted flipbookId);;
    res_json (JDeleted "Flipbook deleted successfully" deletedCount)
  ) catch (λ error,
    console_error "Error deleting flipbook:";;
    res_status_json 500 (JError "Failed to delete flipbook")).

(** [!newFlipbookId || newFlipbookId.trim() === ''] *)
Definition is_blank (newFlipbookId : option string) : bool :=
  match newFlipbookId with
  | None => true
  | Some s => bool_decide (s = "") || bool_decide (trim s = "")
  end.

(** PUT /api/flipbook/:flipbookId/rename, with the body field
    [newFlipbookId]. *)
Definition put_rename (flipbookId : string) (newFlipbookId : option string)
  : M unit :=
  try (
    if is_blank newFlipbookId then
      res_status_json 400 (JError "New flipbook ID is required")
    else
      let trimmedNewId := trim (default "" newFlipbookId) in
      existing ← Drawing_findOne (ByFlipbook (Some trimmedNewId));
      match existing with
      | Some _ =>
          res_status_json 400 (JError "A flipbook with this name already exists")
      | None =>
          modifiedCount ← Drawing_updateMany (ByFlipbook (Some flipbookId))
                            trimmedNewId;
          io_to_emit (Some flipbookId) (FlipbookRenamed flipbookId trimmedNewId);;
          res_json (JRenamed "Flipbook renamed successfully" flipbookId
                      trimmedNewId modifiedCount)
      end
  ) catch (λ error,
    console_error "Error renaming flipbook:";;
    res_status_json 500 (JError "Failed to rename flipbook")).

(* ===================================================================== *)
(** ** server.js: the Socket.IO events *)
(* ===================================================================== *)

(** Payload of [drawing-update]; each field may be absent. *)
Record DrawingUpdate := mkDrawingUpdate {
  du_flipbookId : option string;
  du_frameIndex : option JsNumber;
  du_drawingData : option string;
  du_createdBy : option string
}.

(** Payload of [frame-delete]. *)
Record FrameDelete := mkFrameDelete {
  fd_flipbookId : option string;
  fd_frameIndex : option JsNumber
}.

(** [const { ... } = data]: throws when the event came without payload. *)
Definition destructure {A} (data : option A) : M A :=
  match data with
  | Some d => mret d
  | None => mthrow TypeError
  end.

(** socket.on('join-flipbook') *)
Definition on_join_flipbook (socket : string) (flipbookId : option string)
  : M unit :=
  socket_join socket flipbookId;;
  try (
    drawings ← Drawing_find (ByFlipbook flipbookId) true;
    socket_emit socket (FlipbookState drawings)
  ) catch (λ error,
    console_error "Error sending flipbook state:").

(** socket.on('leave-flipbook') *)
Definition on_leave_flipbook (socket : string) (flipbookId : option string)
  : M unit :=
  socket_leave socket flipbookId.

(** socket.on('drawing-update') *)
Definition on_drawing_update (socket : string) (data : option DrawingUpdate)
  : M unit :=
  try (
    d ← destructure data;
    t ← Date_now;
    drawing ← Drawing_findOneAndUpdate
      (ByFrame (du_flipbookId d) (du_frameIndex d))
      {| u_drawingData := du_drawingData d;
         u_createdBy := or_default (du_createdBy d) socket;
         u_updatedAt := t |};
    socket_to_emit socket (du_flipbookId d)
      (DrawingUpdated (du_flipbookId d) (du_frameIndex d) (du_drawingData d)
         (createdBy drawing) (updatedAt drawing));;
    socket_emit socket (DrawingSaved (du_flipbookId d) (du_frameIndex d) true)
  ) catch (λ error,
    console_error "Error handling drawing update:";;
    socket_emit socket (DrawingError "Failed to save drawing")).

(** socket.on('frame-delete') *)
Definition on_frame_delete (socket : string) (data : option FrameDelete)
  : M unit :=
  try (
    d ← destructure data;
    Drawing_findOneAndDelete (ByFrame (fd_flipbookId d) (fd_frameIndex d));;
    io_to_emit (fd_flipbookId d) (FrameDeleted (fd_flipbookId d) (fd_frameIndex d))
  ) catch (λ error,
    console_error "Error handling frame deletion:";;
    socket_emit socket (DrawingError "Failed to delete frame")).

(** The requests that write the collection or the rooms, and the reads of
    frames. *)
Inductive Request :=
| GetFrames (flipbookId : string)
| GetFrame (flipbookId : string) (frameIndex : JsNumber)
| PostFrame (flipbookId : string) (frameIndex : JsNumber)
    (drawingData createdBy : option string)
| DeleteFrame (flipbookId : string) (frameIndex : JsNumber)
| DeleteFlipbook (flipbookId : string)
| PutRename (flipbookId : string) (newFlipbookId : option string)
| JoinFlipbook (socket : string) (flipbookId : option string)
| LeaveFlipbook (socket : string) (flipbookId : option string)
| DrawingUpdateEv (socket : string) (data : option DrawingUpdate)
| FrameDeleteEv (socket : string) (data : option FrameDelete).

Definition handle (r : Request) : M unit :=
  match r with
  | GetFrames f => getFrames f
  | GetFrame f i => getFrame f i
  | PostFrame f i d c => saveFrame f i d c
  | DeleteFrame f i => deleteFrame f i
  | DeleteFlipbook f => delete_flipbook f
  | PutRename f n => put_rename f n
  | JoinFlipbook s f => on_join_flipbook s f
  | LeaveFlipbook s f => on_leave_flipbook s f
  | DrawingUpdateEv s d => on_drawing_update s d
  | FrameDeleteEv s d => on_frame_delete s d
  end.

(** The worlds the server reaches from [w] by serving requests one after the
    other. *)
Inductive serves (w : World) : World → Prop :=
| serves_refl : serves w w
| serves_step w' r : serves w w' → serves w (exec (handle r) w').

(* ===================================================================== *)
(** ** Reading a trace *)
(* ===================================================================== *)

(** The events delivered to sockets, with their recipient, in order. *)
Definition deliveries (l : list Effect) : list (string * ServerEvent) :=
  omap (λ e, match e with Deliver r ev => Some (r, ev) | _ => None end) l.

(** The store calls issued. *)
Definition store_calls (l : list Effect) : list StoreOp :=
  omap (λ e, match e with Called op => Some op | _ => None end) l.

(** The HTTP responses written. *)
Definition responses (l : list Effect) : list (Z * Body) :=
  omap (λ e, match e with Respond c b => Some (c, b) | _ => None end) l.

(** The messages of [console.error]. *)
Definition console_errors (l : list Effect) : list string :=
  omap (λ e, match e with ConsoleError m => Some m | _ => None end) l.

(** The upsert [on_drawing_update] issues for payload [d], once it has read
    the clock for [updatedAt]. *)
Definition upsert_of (socket : string) (d : DrawingUpdate) (t : Z) : M Drawing :=
  Drawing_findOneAndUpdate (ByFrame (du_flipbookId d) (du_frameIndex d))
    {| u_drawingData := du_drawingData d;
       u_createdBy := or_default (du_createdBy d) socket;
       u_updatedAt := t |}.

(** The next [n] store round trips go through. *)
Definition store_answers (n : nat) (w : World) : bool :=
  forallb negb (take n (faults w)).

(** The world after a store call that was answered. *)
Definition answered (op : StoreOp) (w : World) : World :=
  {| drawings := drawings w; rooms := rooms w; now := now w; ticks := ticks w;
     faults := tl (faults w); trace := trace w ++ [Called op] |}.

(** Some frame is stored under flipbook [f]. *)
Definition occupied (f : string) (c : list Drawing) : Prop :=
  ∃ d, d ∈ c ∧ flipbookId d = Some f.

(** A computation that keeps the unique index of the collection. *)
Definition keeps_index {A} (m : M A) : Prop :=
  ∀ w, unique_index (drawings w) → unique_index (drawings (exec m w)).

(** What listing flipbook [f] yields on collection [c]. *)
Definition listing (f : option string) (c : list Drawing) : list Drawing :=
  merge_sort index_le (filter (selects (SelFlipbook f)) c).

(** What the rename of the frames selected by [s] does to one document. *)
Definition renamed (s : Selector) (newId : string) (d : Drawing) : Drawing :=
  if decide (selects s d) then set_flipbookId newId d else d.

(** A run of [put_rename] from [w] to [w'] that was turned down: a 400
    response, the collection as it was, nothing delivered to any socket. *)
Definition rename_refused (w w' : World) : Prop :=
  (∃ msg, responses (since w w') = [(400, JError msg)])
  ∧ drawings w' = drawings w
  ∧ deliveries (since w w') = [].

(** A run of [put_rename] from [w] to [w'] that answered success for the
    rename of [old] to [target], after which every frame [w] held under [old]
    is what GET /frame answers under [target], and GET /frames under [old]
    answers the empty list. *)
Definition rename_done (old target : string) (w w' : World) : Prop :=
  (∃ k, responses (since w w')
        = [(200, JRenamed "Flipbook renamed successfully" old target k)])
  ∧ (∀ d i, d ∈ drawings w → key d = (Some old, Some i) →
       responses (since w' (exec (getFrame target (Num i)) w'))
       = [(200, JDrawing (set_flipbookId target d))])
  ∧ responses (since w' (exec (getFrames old) w')) = [(200, JDrawings [])].

(** The delete [on_frame_delete] issues for payload [d]. *)
Definition delete_of (d : FrameDelete) : M (option Drawing) :=
  Drawing_findOneAndDelete (ByFrame (fd_flipbookId d) (fd_frameIndex d)).

(** The snapshot query of [on_join_flipbook]. *)
Definition snapshot_of (flipbookId : option string) : M (list Drawing) :=
  Drawing_find (ByFlipbook flipbookId) true.

(** A drawing-update payload that lacks one of the two key fields. *)
Definition missing_required_field (d : DrawingUpdate) : Prop :=
  du_flipbookId d = None ∨ du_frameIndex d = None.

(** A run of [on_drawing_update] that turns the payload down before it
    touches the store, telling the sender with a [drawing-error]. *)
Definition rejected_before_store (socket : string) (d : DrawingUpdate)
    (w : World) : Prop :=
  let out := since w (exec (on_drawing_update socket (Some d)) w) in
  store_calls out = [] ∧ ∃ msg, (socket, DrawingError msg) ∈ deliveries out.

(* ===================================================================== *)
(** ** Sample worlds and payloads *)
(* ===================================================================== *)

(** Two sockets in the room of "cat"; the store answers. *)
Definition world_cat : World :=
  {| drawings := []; rooms := {[ Some "cat" := {[ "A"; "B" ]} ]};
     now := 1000; ticks := [5%N]; faults := []; trace := [] |}.

(** The same room, with the next store call failing. *)
Definition world_cat_down : World :=
  {| drawings := []; rooms := {[ Some "cat" := {[ "A"; "B" ]} ]};
     now := 1000; ticks := [5%N]; faults := [true]; trace := [] |}.

Definition update_cat_0 : DrawingUpdate :=
  {| du_flipbookId := Some "cat"; du_frameIndex := Some (Num 0);
     du_drawingData := Some "X"; du_createdBy := Some "alice" |}.

Definition update_no_flipbook : DrawingUpdate :=
  {| du_flipbookId := None; du_frameIndex := Some (Num 0);
     du_drawingData := Some "X"; du_createdBy := Some "alice" |}.

Definition update_no_index : DrawingUpdate :=
  {| du_flipbookId := Some "cat"; du_frameIndex := None;
     du_drawingData := Some "X"; du_createdBy := Some "alice" |}.

Definition delete_cat_0 : FrameDelete :=
  {| fd_flipbookId := Some "cat"; fd_frameIndex := Some (Num 0) |}.

Definition frame (f : string) (i : Z) (data : string) (t : Z) : Drawing :=
  {| flipbookId := Some f; frameIndex := Some i; drawingData := Some data;
     createdAt := t; updatedAt := t; createdBy := "anonymous" |}.

(** A server with three stored frames: two of "cat", out of order, and one
    of " dog " (with the blanks). *)
Definition world_stored : World :=
  {| drawings := [frame "cat" 1 "b" 10; frame "cat" 0 "a" 20;
                  frame " dog " 0 "c" 30];
     rooms := {[ Some "cat" := {[ "A"; "B" ]} ]};
     now := 1000; ticks := [5%N]; faults := []; trace := [] |}.

(* ===================================================================== *)
(** ** Unfolding the monad *)
(* ===================================================================== *)

(** Unfold the control structure of a handler, leaving the calls into the
    [Drawing] model folded. *)
Ltac unfold_handler :=
  cbv [exec result mbind M_bind mret M_ret mthrow M_throw try_catch get
       modify emit_effects console_error socket_emit socket_to_emit
       io_to_emit res_json res_status_json destructure Date_now socket_join
       socket_leave] in *.

(** Unfold a call into the model down to the collection. *)
Ltac unfold_store :=
  cbv [Drawing_find Drawing_findOne Drawing_findOneAndUpdate
       Drawing_findOneAndDelete Drawing_deleteMany Drawing_updateMany
       cast selector_of cast_number round_trip] in *;
  unfold_handler.

(** *** What every call into the model leaves alone *)

(** A computation that logs [Called op] and nothing else, and keeps the
    rooms. *)
Definition store_call {A} (op : StoreOp) (m : M A) : Prop :=
  ∀ w, trace (exec m w) = trace w ++ [Called op]
       ∧ rooms (exec m w) = rooms w.

Ltac solve_store_call :=
  let w := fresh "w" in
  intros w; unfold_store;
  match goal with q : Conditions |- _ => destruct q as [?|? [[?|]|]] end;
  simpl; destruct (faults w) as [|[] ?]; simpl;
  repeat match goal with
         | |- context [match ?x with _ => _ end] => destruct x; simpl
         end; done.


(* ===================================================================== *)
(** ** Vocabulary for the properties of whole requests *)
(* ===================================================================== *)

(** The requests that arrive over HTTP; the others are Socket.IO events. *)
Definition is_rest (r : Request) : bool :=
  match r with
  | GetFrames _ | GetFrame _ _ | PostFrame _ _ _ _ | DeleteFrame _ _
  | DeleteFlipbook _ | PutRename _ _ => true
  | _ => false
  end.

(** The requests that only read the collection. *)
Definition is_read (r : Request) : bool :=
  match r with
  | GetFrames _ | GetFrame _ _ | JoinFlipbook _ _ | LeaveFlipbook _ _ => true
  | _ => false
  end.

(** The requests that change who is in which room. *)
Definition is_membership (r : Request) : bool :=
  match r with
  | JoinFlipbook _ _ | LeaveFlipbook _ _ => true
  | _ => false
  end.

(** The store is unreachable for the next round trip. *)
Definition store_down (w : World) : Prop := head (faults w) = Some true.

(** A rename whose new name is absent, empty or blank: the one request
    that is answered before the store is asked. *)
Definition blank_rename (r : Request) : bool :=
  match r with
  | PutRename _ newFlipbookId => is_blank newFlipbookId
  | _ => false
  end.

(** What a Socket.IO mutation event tells its sender when it fails. *)
Definition failure_notice (r : Request) : list (string * ServerEvent) :=
  match r with
  | DrawingUpdateEv socket _ => [(socket, DrawingError "Failed to save drawing")]
  | FrameDeleteEv socket _ => [(socket, DrawingError "Failed to delete frame")]
  | _ => []
  end.

(** An event that reports a failure to a socket. *)
Definition is_error_event (ev : ServerEvent) : bool :=
  match ev with
  | DrawingError _ => true
  | _ => false
  end.

(** Case analysis on the innermost scrutinee of the goal. *)
Ltac break_match :=
  match goal with
  | |- context [match ?x with _ => _ end] =>
      lazymatch x with
      | context [match _ with _ => _ end] => fail
      | _ => destruct x eqn:?; simpl
      end
  end.

Ltac unfold_handlers :=
  unfold getFrames, getFrame, saveFrame, deleteFrame, delete_flipbook,
    put_rename, on_join_flipbook, on_leave_flipbook, on_drawing_update,
    on_frame_delete.

(** The first store round trip of [w] is refused and the others answered. *)
Definition world_stored_down : World :=
  {| drawings := [frame "cat" 1 "b" 10; frame "cat" 0 "a" 20;
                  frame " dog " 0 "c" 30];
     rooms := {[ Some "cat" := {[ "A"; "B" ]} ]};
     now := 1000; ticks := [5%N]; faults := [true]; trace := [] |}.

(** The key of the one record a single-frame write is about, when the
    request is one and its index casts. *)
Definition frame_of (r : Request) : option (option string * option Z) :=
  match r with
  | PostFrame f i _ _ | DeleteFrame f i => pair (Some f) <$> cast_number (Some i)
  | DrawingUpdateEv _ (Some d) =>
      pair (du_flipbookId d) <$> cast_number (du_frameIndex d)
  | FrameDeleteEv _ (Some d) =>
      pair (fd_flipbookId d) <$> cast_number (fd_frameIndex d)
  | _ => None
  end.

(* ===================================================================== *)
(** ** server.js: the two reporting routes *)
(* ===================================================================== *)

(** These two routes only read.  Their response is the value the handler
    computes; the trace keeps the vocabulary of the routes above, in which
    the aggregation pipeline has no entry. *)

(** The members of a list, each once, in the order of their first
    occurrence: [[...new Set(l)]], and the order in which [$group] meets its
    keys. *)
Fixpoint distinct {A} `{EqDecision A} (l : list A) : list A :=
  match l with
  | [] => []
  | x :: l' => x :: filter (λ y, y ≠ x) (distinct l')
  end.

(** [Math.max(...l)] and [Math.min(...l)] on integers; [None] for the empty
    list, which the source does not pass. *)
Definition max_of (l : list Z) : option Z :=
  match l with
  | [] => None
  | x :: l' => Some (foldr Z.max x l')
  end.

Definition min_of (l : list Z) : option Z :=
  match l with
  | [] => None
  | x :: l' => Some (foldr Z.min x l')
  end.

(** The body of GET /api/flipbook/:flipbookId/info. *)
Record FlipbookInfo := mkFlipbookInfo {
  info_flipbookId : string;
  info_frameCount : nat;
  info_lastUpdated : option Z;
  info_createdAt : option Z;
  info_creators : list string
}.

(** One element of the body of GET /api/flipbooks. *)
Record Summary := mkSummary {
  sum_flipbookId : option string;
  sum_frameCount : nat;
  sum_lastUpdated : Z;
  sum_createdAt : Z
}.

Inductive Report :=
| RInfo (info : FlipbookInfo)
| RSummaries (flipbooks : list Summary)
| RError (error : string).

(** The [info] object the route builds from the documents found. *)
Definition info_of (flipbookId : string) (found : list Drawing) : FlipbookInfo :=
  {| info_flipbookId := flipbookId;
     info_frameCount := length found;
     info_lastUpdated := max_of (updatedAt <$> found);
     info_createdAt := min_of (createdAt <$> found);
     info_creators :=
       distinct (filter (λ c, c ≠ "") (createdBy <$> found)) |}.

(** GET /api/flipbook/:flipbookId/info *)
Definition getInfo (flipbookId : string) : M (Z * Report) :=
  try (
    drawings ← Drawing_find (ByFlipbook (Some flipbookId)) false;
    mret (200, RInfo (info_of flipbookId drawings))
  ) catch (λ error,
    console_error "Error fetching flipbook info:";;
    mret (500, RError "Failed to fetch flipbook info")).

(** [$group] by [flipbookId] with [$sum: 1], [$max: '$updatedAt'] and
    [$min: '$createdAt'], then [$project]. *)
Definition summary_of (c : list Drawing) (f : option string) : Summary :=
  let g := filter (selects (SelFlipbook f)) c in
  {| sum_flipbookId := f;
     sum_frameCount := length g;
     sum_lastUpdated := default 0 (max_of (updatedAt <$> g));
     sum_createdAt := default 0 (min_of (createdAt <$> g)) |}.

(** The order of [$sort: { lastUpdated: -1 }]. *)
Definition later_first (a b : Summary) : Prop :=
  sum_lastUpdated b ≤ sum_lastUpdated a.

#[global] Instance later_first_dec : RelDecision later_first.
Proof. intros a b. unfold later_first. apply _. Defined.

#[global] Instance later_first_total : Total later_first.
Proof. intros a b. unfold later_first. lia. Qed.

(** The pipeline of GET /api/flipbooks.  The order in which groups with the
    same [lastUpdated] come out is left open by MongoDB; here it is the one
    of the merge sort. *)
Definition summaries (c : list Drawing) : list Summary :=
  merge_sort later_first (summary_of c <$> distinct (flipbookId <$> c)).

(** [Drawing.aggregate([...])]. *)
Definition Drawing_aggregate : M (list Summary) :=
  round_trip;;
  c ← get drawings;
  mret (summaries c).

(** GET /api/flipbooks *)
Definition getFlipbooks : M (Z * Report) :=
  try (
    flipbooks ← Drawing_aggregate;
    mret (200, RSummaries flipbooks)
  ) catch (λ error,
    console_error "Error fetching flipbooks:";;
    mret (500, RError "Failed to fetch flipbooks")).

(** A server whose one flipbook was drawn by two named authors. *)
Definition world_authors : World :=
  {| drawings :=
       [{| flipbookId := Some "cat"; frameIndex := Some 0;
           drawingData := Some "a"; createdAt := 10; updatedAt := 40;
           createdBy := "ann" |};
        {| flipbookId := Some "cat"; frameIndex := Some 1;
           drawingData := Some "b"; createdAt := 20; updatedAt := 30;
           createdBy := "" |};
        {| flipbookId := Some "owl"; frameIndex := Some 0;
           drawingData := Some "c"; createdAt := 5; updatedAt := 50;
           createdBy := "bob" |};
        {| flipbookId := Some "cat"; frameIndex := Some 2;
           drawingData := Some "d"; createdAt := 25; updatedAt := 35;
           createdBy := "ann" |}];
     rooms := ∅; now := 1000; ticks := []; faults := []; trace := [] |}.

(* ===================================================================== *)
(** ** The browser client: its copy of the flipbook *)
(* ===================================================================== *)

(** The client keeps three globals that the events of the server and its own
    buttons update: [currentFlipbookId], [currentFrameIndex] and the array
    [frames].  The canvas, the DOM and the timers are left out; what is
    modelled is what each handler does to the three globals.  Frame indices
    are integers. *)
Module Client.

(** An element of [frames], and of a [flipbook-state] snapshot once mapped. *)
Record Frame := mkFrame {
  flipbookId : string;
  frameIndex : Z;
  drawingData : option string
}.

Record State := mkState {
  currentFlipbookId : string;
  currentFrameIndex : Z;
  frames : list Frame
}.

(** [{ flipbookId: currentFlipbookId, frameIndex: i, drawingData: null }] *)
Definition placeholder (f : string) (i : Z) : Frame :=
  {| flipbookId := f; frameIndex := i; drawingData := None |}.

(** [array[k]] for an integer [k]: [undefined] outside the array. *)
Definition at_index {A} (l : list A) (k : Z) : option A :=
  if decide (0 ≤ k) then l !! Z.to_nat k else None.

(** [.sort((a, b) => a.frameIndex - b.frameIndex)]: a stable sort. *)
Fixpoint insert_sorted (x : Frame) (l : list Frame) : list Frame :=
  match l with
  | [] => [x]
  | y :: l' =>
      if decide (frameIndex x ≤ frameIndex y) then x :: l
      else y :: insert_sorted x l'
  end.

Definition sort_frames (l : list Frame) : list Frame :=
  foldr insert_sorted [] l.

(** [sortedDrawings.find(d => d.frameIndex === i)] *)
Definition find_index (l : list Frame) (i : Z) : option Frame :=
  head (filter (λ d, frameIndex d = i) l).

Section Snapshot.

(** Whether an opaque drawing blob is truthy in JavaScript. *)
Variable truthy : string → bool.

(** [d.drawingData || null] *)
Definition or_null (x : option string) : option string :=
  match x with
  | Some s => if truthy s then Some s else None
  | None => None
  end.

Definition mapped (d : Frame) : Frame :=
  {| flipbookId := flipbookId d; frameIndex := frameIndex d;
     drawingData := or_null (drawingData d) |}.

(** socket.on('flipbook-state') *)
Definition on_flipbook_state (drawings : list Frame) (st : State) : State :=
  let sortedDrawings := sort_frames (mapped <$> drawings) in
  let filled :=
    match max_of (frameIndex <$> sortedDrawings) with
    | Some maxIndex =>
        (λ i, default (placeholder (currentFlipbookId st) i)
                (find_index sortedDrawings i))
          <$> seqZ 0 (maxIndex + 1)
    | None => []
    end in
  {| currentFlipbookId := currentFlipbookId st;
     currentFrameIndex := currentFrameIndex st;
     frames :=
       if decide (filled = [] ∧ currentFlipbookId st ≠ "")
       then [placeholder (currentFlipbookId st) 0]
       else filled |}.

End Snapshot.

(** socket.on('frame-deleted') *)
Definition on_frame_deleted (flipbook : string) (index : Z) (st : State)
  : State :=
  if decide (flipbook = currentFlipbookId st) then
    let kept := filter (λ f, frameIndex f ≠ index) (frames st) in
    {| currentFlipbookId := currentFlipbookId st;
       currentFrameIndex :=
         if decide (Z.of_nat (length kept) ≤ currentFrameIndex st)
         then Z.max 0 (Z.of_nat (length kept) - 1)
         else currentFrameIndex st;
       frames := kept |}
  else st.

(** [deleteFrame(frameIndex)] up to its two requests: the stored index it
    asks the server to delete, over the socket and over REST; [None] when it
    refuses ("Cannot delete the last frame") or the user does not confirm;
    a TypeError when there is no frame at that position. *)
Definition deleteFrame (position : Z) (confirmed : bool) (st : State)
  : Outcome (option Z) :=
  if decide (length (frames st) ≤ 1)%nat then Ok None
  else if negb confirmed then Ok None
  else match at_index (frames st) position with
       | Some frameToDelete => Ok (Some (frameIndex frameToDelete))
       | None => Throw TypeError
       end.

(** [frames.filter((f, idx) => idx !== position)] *)
Definition remove_at {A} (position : Z) (l : list A) : list A :=
  if decide (0 ≤ position) then delete (Z.to_nat position) l else l.

(** The [then] of the DELETE request of [deleteFrame(position)]. *)
Definition deleteFrame_then (position : Z) (st : State) : State :=
  let renumbered :=
    imap (λ idx f, {| flipbookId := flipbookId f; frameIndex := Z.of_nat idx;
                      drawingData := drawingData f |})
      (remove_at position (frames st)) in
  {| currentFlipbookId := currentFlipbookId st;
     currentFrameIndex :=
       if decide (Z.of_nat (length renumbered) ≤ currentFrameIndex st)
       then Z.of_nat (length renumbered) - 1
       else if decide (position < currentFrameIndex st)
            then currentFrameIndex st - 1
            else currentFrameIndex st;
     frames := renumbered |}.

(** A frame list numbered 0, 1, 2, ... *)
Definition dense (l : list Frame) : Prop :=
  ∀ i f, l !! i = Some f → frameIndex f = Z.of_nat i.

End Client.

(** A client looking at three numbered frames of "cat". *)
Definition client_three : Client.State :=
  {| Client.currentFlipbookId := "cat"; Client.currentFrameIndex := 1;
     Client.frames := [Client.mkFrame "cat" 0 (Some "a");
                       Client.mkFrame "cat" 1 (Some "b");
                       Client.mkFrame "cat" 2 (Some "c")] |}.

(** A stored document as the client reads it off a [flipbook-state]
    snapshot: its name, its index and its drawing; [None] when the name or
    the index is null. *)
Definition wire (d : Drawing) : option Client.Frame :=
  match flipbookId d, frameIndex d with
  | Some f, Some i => Some (Client.mkFrame f i (drawingData d))
  | _, _ => None
  end.
(* ===================================================================== *)
(** * Properties *)
(* ===================================================================== *)

Lemma since_app w l : since w (log l w) = l.
Proof. unfold since, log. simpl. by rewrite drop_app_length. Qed.

Lemma drop_trace (l0 l : list Effect) : drop (length l0) (l0 ++ l) = l.
Proof. by rewrite drop_app_length. Qed.

Lemma deliveries_app l1 l2 :
  deliveries (l1 ++ l2) = deliveries l1 ++ deliveries l2.
Proof. unfold deliveries. by rewrite omap_app. Qed.

Lemma deliveries_deliver_all s ev :
  deliveries (deliver_all s ev) = (λ r, (r, ev)) <$> elements s.
Proof.
  unfold deliveries, deliver_all.
  induction (elements s) as [|r l IH]; simpl; [done|]. by f_equal.
Qed.

Lemma elem_of_deliver_all (r : string) (e ev : ServerEvent) (s : gset string) :
  (r, e) ∈ (λ r : string, (r, ev)) <$> elements s ↔ r ∈ s ∧ e = ev.
Proof.
  rewrite list_elem_of_fmap. split.
  - intros (x & [= -> ->] & Hx). by apply elem_of_elements in Hx.
  - intros [Hr ->]. exists r. split; [done|]. by apply elem_of_elements.
Qed.

Lemma find_store_call q b : store_call OpFind (Drawing_find q b).
Proof. solve_store_call. Qed.

Lemma findOne_store_call q : store_call OpFindOne (Drawing_findOne q).
Proof. solve_store_call. Qed.

Lemma findOneAndUpdate_store_call q u :
  store_call OpFindOneAndUpdate (Drawing_findOneAndUpdate q u).
Proof. solve_store_call. Qed.

Lemma findOneAndDelete_store_call q :
  store_call OpFindOneAndDelete (Drawing_findOneAndDelete q).
Proof. solve_store_call. Qed.

Lemma deleteMany_store_call q : store_call OpDeleteMany (Drawing_deleteMany q).
Proof. solve_store_call. Qed.

Lemma updateMany_store_call q n :
  store_call OpUpdateMany (Drawing_updateMany q n).
Proof. solve_store_call. Qed.

(** The same facts, for a run whose outcome is known. *)
Lemma store_call_run {A} op (m : M A) w o w' :
  store_call op m → m w = (o, w') →
  trace w' = trace w ++ [Called op] ∧ rooms w' = rooms w.
Proof. intros H E. specialize (H w). unfold exec in H. by rewrite E in H. Qed.

(* ===================================================================== *)
(** ** The drawing-update event *)
(* ===================================================================== *)

Lemma on_drawing_update_run socket d w :
  on_drawing_update socket (Some d) w =
  match upsert_of socket d (now w) (exec Date_now w) with
  | (Ok doc, w') =>
      (Ok tt,
       log (deliver_all (members (du_flipbookId d) w' ∖ {[socket]})
              (DrawingUpdated (du_flipbookId d) (du_frameIndex d)
                 (du_drawingData d) (createdBy doc) (updatedAt doc))
            ++ [Deliver socket
                  (DrawingSaved (du_flipbookId d) (du_frameIndex d) true)]) w')
  | (Throw e, w') =>
      (Ok tt,
       log [ConsoleError "Error handling drawing update:";
            Deliver socket (DrawingError "Failed to save drawing")] w')
  end.
Proof.
  unfold on_drawing_update, upsert_of. unfold_handler. simpl.
  destruct (Drawing_findOneAndUpdate _ _ _) as [[doc|e] w']; simpl;
    unfold log; simpl; by rewrite <- ?app_assoc.
Qed.

(** The deliveries of one drawing-update, read off the outcome of its
    upsert. *)
Lemma on_drawing_update_sent socket d w :
  deliveries (since w (exec (on_drawing_update socket (Some d)) w)) =
  match result (upsert_of socket d (now w)) (exec Date_now w) with
  | Ok doc =>
      ((λ r, (r, DrawingUpdated (du_flipbookId d) (du_frameIndex d)
                   (du_drawingData d) (createdBy doc) (updatedAt doc)))
         <$> elements (members (du_flipbookId d) w ∖ {[socket]}))
      ++ [(socket, DrawingSaved (du_flipbookId d) (du_frameIndex d) true)]
  | Throw _ => [(socket, DrawingError "Failed to save drawing")]
  end.
Proof.
  unfold exec at 1. unfold result. rewrite on_drawing_update_run.
  destruct (upsert_of _ _ _ _) as [[doc|e] w'] eqn:E.
  all: destruct (store_call_run _ _ _ _ _ (findOneAndUpdate_store_call _ _) E)
         as [Htr Hrooms]; simpl in Htr, Hrooms.
  all: unfold since, log; simpl; rewrite Htr, <- app_assoc, drop_trace; simpl.
  - rewrite deliveries_app, deliveries_deliver_all. unfold members.
    by rewrite Hrooms.
  - done.
Qed.

(** C1. A drawing-update whose upsert succeeds is relayed as
    [drawing-updated] to every socket of the flipbook's room except the
    sender, and acknowledged with [drawing-saved {success: true}] to the
    sender alone; nothing else is delivered.  When the upsert fails the only
    delivery is one [drawing-error] to the sender. *)
Theorem drawing_update_emissions (socket : string) (d : DrawingUpdate) (w : World) :
  let upsert := upsert_of socket d (now w) in
  let sent := deliveries (since w (exec (on_drawing_update socket (Some d)) w)) in
  (∀ doc, result upsert (exec Date_now w) = Ok doc →
     let updated := DrawingUpdated (du_flipbookId d) (du_frameIndex d)
                      (du_drawingData d) (createdBy doc) (updatedAt doc) in
     let saved := DrawingSaved (du_flipbookId d) (du_frameIndex d) true in
     (∀ r, (r, updated) ∈ sent ↔ r ∈ members (du_flipbookId d) w ∧ r ≠ socket)
     ∧ (∀ r, (r, saved) ∈ sent ↔ r = socket)
     ∧ (∀ r ev, (r, ev) ∈ sent → ev = updated ∨ ev = saved))
  ∧ (∀ e, result upsert (exec Date_now w) = Throw e →
     sent = [(socket, DrawingError "Failed to save drawing")]).
Proof.
  intros upsert sent. subst upsert sent. rewrite on_drawing_update_sent.
  split.
  - intros doc ->. simpl. split; [|split].
    + intros r. rewrite elem_of_app, elem_of_deliver_all, list_elem_of_singleton.
      rewrite elem_of_difference, elem_of_singleton.
      split; [intros [[? _]|?]; [done|simplify_eq] | intros ?; by left].
    + intros r. rewrite elem_of_app, elem_of_deliver_all, list_elem_of_singleton.
      split; [intros [[_ ?]|?]; by simplify_eq | intros ->; by right].
    + intros r ev. rewrite elem_of_app, elem_of_deliver_all, list_elem_of_singleton.
      intros [[_ ->]|?]; [by left | right; by simplify_eq].
  - by intros e ->.
Qed.

Lemma drawing_update_emissions_witness :
  (("B", DrawingUpdated (Some "cat") (Some (Num 0)) (Some "X") "alice" 1000)
     ∈ deliveries (since world_cat
         (exec (on_drawing_update "A" (Some update_cat_0)) world_cat))
   ↔ "B" ∈ members (Some "cat") world_cat ∧ "B" ≠ "A")
  ∧ deliveries (since world_cat_down
       (exec (on_drawing_update "A" (Some update_cat_0)) world_cat_down))
    = [("A", DrawingError "Failed to save drawing")].
Proof.
  split.
  - refine (proj1 (proj1 (drawing_update_emissions "A" update_cat_0 world_cat)
                     (mkDrawing (Some "cat") (Some 0) (Some "X") 1005 1000 "alice") _)
              "B").
    vm_compute. reflexivity.
  - refine (proj2 (drawing_update_emissions "A" update_cat_0 world_cat_down)
              StoreError _).
    vm_compute. reflexivity.
Defined.

(* ===================================================================== *)
(** ** Missing fields on drawing-update *)
(* ===================================================================== *)

Lemma store_calls_app l1 l2 :
  store_calls (l1 ++ l2) = store_calls l1 ++ store_calls l2.
Proof. unfold store_calls. by rewrite omap_app. Qed.

Lemma store_calls_deliver_all s ev : store_calls (deliver_all s ev) = [].
Proof.
  unfold store_calls, deliver_all.
  induction (elements s) as [|r l IH]; simpl; done.
Qed.

(** The store calls of one drawing-update that carries a payload. *)
Lemma on_drawing_update_calls socket d w :
  store_calls (since w (exec (on_drawing_update socket (Some d)) w))
  = [OpFindOneAndUpdate].
Proof.
  unfold exec at 1. rewrite on_drawing_update_run.
  destruct (upsert_of _ _ _ _) as [[doc|e] w'] eqn:E.
  all: destruct (store_call_run _ _ _ _ _ (findOneAndUpdate_store_call _ _) E)
         as [Htr _]; simpl in Htr.
  all: unfold since, log; simpl; rewrite Htr, <- app_assoc, drop_trace; simpl.
  - by rewrite store_calls_app, store_calls_deliver_all.
  - done.
Qed.

(** An event without payload never reaches the store. *)
Lemma on_drawing_update_bare socket w :
  on_drawing_update socket None w =
  (Ok tt, log [ConsoleError "Error handling drawing update:";
               Deliver socket (DrawingError "Failed to save drawing")] w).
Proof.
  unfold on_drawing_update. unfold_handler. unfold log. simpl.
  by rewrite <- app_assoc.
Qed.

(** C2 (defect of the code).  A drawing-update that lacks [flipbookId], or
    [frameIndex], is not turned down: the upsert runs, a record with a null
    key field is added to the collection although the schema declares both
    fields required, the sender is told [drawing-saved], and no
    [drawing-error] is delivered.  Evaluated for socket "A" in the room of
    "cat" with "B", on an empty collection. *)
Theorem drawing_update_missing_field_is_stored :
  let run d := exec (on_drawing_update "A" (Some d)) world_cat in
  (missing_required_field update_no_flipbook
   ∧ drawings (run update_no_flipbook)
     = [ {| flipbookId := None; frameIndex := Some 0;
            drawingData := Some "X"; createdAt := 1005; updatedAt := 1000;
            createdBy := "alice" |} ]
   ∧ deliveries (since world_cat (run update_no_flipbook))
     = [("A", DrawingSaved None (Some (Num 0)) true)]
   ∧ ¬ rejected_before_store "A" update_no_flipbook world_cat)
  ∧ (missing_required_field update_no_index
     ∧ drawings (run update_no_index)
       = [ {| flipbookId := Some "cat"; frameIndex := None;
              drawingData := Some "X"; createdAt := 1005; updatedAt := 1000;
              createdBy := "alice" |} ]
     ∧ deliveries (since world_cat (run update_no_index))
       = [("B", DrawingUpdated (Some "cat") None (Some "X") "alice" 1000);
          ("A", DrawingSaved (Some "cat") None true)]
     ∧ ¬ rejected_before_store "A" update_no_index world_cat).
Proof.
  intros run. split; (split; [|split; [|split]]).
  - by left.
  - subst run. vm_compute. reflexivity.
  - subst run. vm_compute. reflexivity.
  - intros [Hcalls _]. rewrite on_drawing_update_calls in Hcalls. discriminate.
  - by right.
  - subst run. vm_compute. reflexivity.
  - subst run. vm_compute. reflexivity.
  - intros [Hcalls _]. rewrite on_drawing_update_calls in Hcalls. discriminate.
Qed.

(* ===================================================================== *)
(** ** The frame-delete event *)
(* ===================================================================== *)

Lemma on_frame_delete_run socket d w :
  on_frame_delete socket (Some d) w =
  match delete_of d w with
  | (Ok _, w') =>
      (Ok tt,
       log (deliver_all (members (fd_flipbookId d) w')
              (FrameDeleted (fd_flipbookId d) (fd_frameIndex d))) w')
  | (Throw e, w') =>
      (Ok tt,
       log [ConsoleError "Error handling frame deletion:";
            Deliver socket (DrawingError "Failed to delete frame")] w')
  end.
Proof.
  unfold on_frame_delete, delete_of. unfold_handler. simpl.
  destruct (Drawing_findOneAndDelete _ _) as [[doc|e] w']; simpl;
    unfold log; simpl; by rewrite <- ?app_assoc.
Qed.

(** What one frame-delete adds to the trace when the store answers. *)
Lemma on_frame_delete_since socket d w removed :
  result (delete_of d) w = Ok removed →
  since w (exec (on_frame_delete socket (Some d)) w) =
  Called OpFindOneAndDelete
  :: deliver_all (members (fd_flipbookId d) w)
       (FrameDeleted (fd_flipbookId d) (fd_frameIndex d)).
Proof.
  unfold exec, result. rewrite on_frame_delete_run.
  destruct (delete_of d w) as [[doc|e] w'] eqn:E; simpl; [intros _|done].
  destruct (store_call_run _ _ _ _ _ (findOneAndDelete_store_call _) E)
    as [Htr Hrooms].
  unfold since, log; simpl. rewrite Htr, <- app_assoc, drop_trace. simpl.
  unfold members. by rewrite Hrooms.
Qed.

(** C3. When the store delete of a frame-delete has gone through, the
    [frame-deleted] event is delivered, after the store call, to every socket
    of the flipbook's room and to no other socket; the sender is not left
    out: if it is in the room it gets the event too. *)
Theorem frame_delete_broadcast (socket : string) (d : FrameDelete) (w : World)
    (removed : option Drawing) :
  result (delete_of d) w = Ok removed →
  let out := since w (exec (on_frame_delete socket (Some d)) w) in
  let deleted := FrameDeleted (fd_flipbookId d) (fd_frameIndex d) in
  head out = Some (Called OpFindOneAndDelete)
  ∧ (∀ r ev, (r, ev) ∈ deliveries out
             ↔ r ∈ members (fd_flipbookId d) w ∧ ev = deleted)
  ∧ (socket ∈ members (fd_flipbookId d) w → (socket, deleted) ∈ deliveries out).
Proof.
  intros Hok out deleted. subst out.
  rewrite (on_frame_delete_since _ _ _ _ Hok).
  change (deliveries (Called OpFindOneAndDelete :: ?l)) with (deliveries l).
  rewrite deliveries_deliver_all. split; [done|]. split.
  - intros r ev. apply elem_of_deliver_all.
  - intros Hin. by apply elem_of_deliver_all.
Qed.

Lemma frame_delete_broadcast_witness :
  ("A", FrameDeleted (Some "cat") (Some (Num 0)))
  ∈ deliveries (since world_cat
      (exec (on_frame_delete "A" (Some delete_cat_0)) world_cat)).
Proof.
  refine (proj2 (proj2 (frame_delete_broadcast "A" delete_cat_0 world_cat None _)) _).
  - vm_compute. reflexivity.
  - vm_compute. reflexivity.
Defined.

(* ===================================================================== *)
(** ** Joining and leaving a room *)
(* ===================================================================== *)

Lemma on_join_flipbook_run socket f w :
  on_join_flipbook socket f w =
  match snapshot_of f (exec (socket_join socket f) w) with
  | (Ok docs, w') => (Ok tt, log [Deliver socket (FlipbookState docs)] w')
  | (Throw e, w') =>
      (Ok tt, log [ConsoleError "Error sending flipbook state:"] w')
  end.
Proof.
  unfold on_join_flipbook, snapshot_of. unfold_handler. simpl.
  by destruct (Drawing_find _ _ _) as [[docs|e] w'].
Qed.

Lemma snapshot_store_call f : store_call OpFind (snapshot_of f).
Proof. apply find_store_call. Qed.

Lemma on_join_flipbook_rooms socket f w :
  rooms (exec (on_join_flipbook socket f) w)
  = <[f := {[socket]} ∪ members f w]> (rooms w).
Proof.
  unfold exec at 1. rewrite on_join_flipbook_run.
  destruct (snapshot_of _ _) as [[docs|e] w'] eqn:E.
  all: destruct (store_call_run _ _ _ _ _ (snapshot_store_call _) E)
         as [_ Hrooms]; simpl; by rewrite Hrooms.
Qed.

Lemma members_insert f g s w r :
  rooms w = <[f := s]> r →
  members g w = if decide (f = g) then s else default ∅ (r !! g).
Proof.
  intros E. unfold members. rewrite E, lookup_insert. by case_decide.
Qed.

(** C9. Joining a room a second time leaves the rooms as the first join left
    them, and leaving a room one is not in changes the members of no room;
    neither handler fails. *)
Theorem join_leave_idempotent (socket : string) (flipbookId : option string)
    (w : World) :
  let join := on_join_flipbook socket flipbookId in
  let leave := on_leave_flipbook socket flipbookId in
  rooms (exec join (exec join w)) = rooms (exec join w)
  ∧ result join w = Ok tt
  ∧ result join (exec join w) = Ok tt
  ∧ (socket ∉ members flipbookId w →
     (∀ room, members room (exec leave w) = members room w)
     ∧ result leave w = Ok tt).
Proof.
  intros join leave. subst join leave. split; [|split; [|split]].
  - rewrite !on_join_flipbook_rooms.
    rewrite (members_insert _ _ _ _ _ (on_join_flipbook_rooms socket flipbookId w)).
    rewrite decide_True by done. rewrite insert_insert_eq. f_equal.
    by rewrite (assoc_L (∪)), union_idemp_L.
  - unfold result. rewrite on_join_flipbook_run.
    by destruct (snapshot_of _ _) as [[docs|e] w'].
  - unfold result. rewrite on_join_flipbook_run.
    by destruct (snapshot_of _ _) as [[docs|e] w'].
  - intros Hnot. split; [|done]. intros room.
    unfold on_leave_flipbook, exec, socket_leave, modify, members in *. simpl.
    destruct (rooms w !! flipbookId) as [s|] eqn:E; simpl in *; [|done].
    assert (s ∖ {[socket]} = s) as ->
      by (by apply difference_disjoint_L, disjoint_singleton_r).
    case_decide as Hs; simpl.
    + subst s. destruct (decide (flipbookId = room)) as [<-|Hne].
      * by rewrite lookup_delete_eq, E.
      * by rewrite lookup_delete_ne.
    + by rewrite insert_id.
Qed.

Lemma join_leave_idempotent_witness :
  members (Some "cat") (exec (on_leave_flipbook "C" (Some "cat")) world_cat)
  = members (Some "cat") world_cat.
Proof.
  refine (proj1 (proj2 (proj2 (proj2
    (join_leave_idempotent "C" (Some "cat") world_cat))) _) (Some "cat")).
  vm_compute. intros H. discriminate H.
Defined.

(** C10. The joining socket enters the room before the snapshot is fetched,
    so when the fetch fails it is a member all the same; no event at all is
    delivered to it (no [flipbook-state], no error event), the failure goes
    to [console.error] only, and a later broadcast to the room reaches it. *)
Theorem join_survives_fetch_failure (socket : string)
    (flipbookId : option string) (w : World) (e : Error) :
  result (snapshot_of flipbookId) (exec (socket_join socket flipbookId) w)
    = Throw e →
  let w' := exec (on_join_flipbook socket flipbookId) w in
  socket ∈ members flipbookId (exec (socket_join socket flipbookId) w)
  ∧ socket ∈ members flipbookId w'
  ∧ deliveries (since w w') = []
  ∧ console_errors (since w w') = ["Error sending flipbook state:"]
  ∧ (∀ other i removed,
       let d := {| fd_flipbookId := flipbookId; fd_frameIndex := i |} in
       result (delete_of d) w' = Ok removed →
       (socket, FrameDeleted flipbookId i)
         ∈ deliveries (since w' (exec (on_frame_delete other (Some d)) w'))).
Proof.
  intros Hfail w'.
  assert (socket ∈ members flipbookId w') as Hmem.
  { subst w'.
    rewrite (members_insert _ _ _ _ _ (on_join_flipbook_rooms socket flipbookId w)).
    rewrite decide_True by done. by apply elem_of_union_l, elem_of_singleton. }
  split; [|split; [done|]].
  { unfold exec, socket_join, modify, members; simpl.
    rewrite lookup_insert_eq. simpl. by apply elem_of_union_l, elem_of_singleton. }
  assert (since w w' = [Called OpFind; ConsoleError "Error sending flipbook state:"])
    as Hout.
  { subst w'. unfold exec at 1. rewrite on_join_flipbook_run.
    unfold result in Hfail.
    destruct (snapshot_of _ _) as [[docs|e'] w1] eqn:E; simpl in Hfail; [done|].
    destruct (store_call_run _ _ _ _ _ (snapshot_store_call _) E) as [Htr _].
    simpl in Htr. unfold since, log; simpl.
    by rewrite Htr, <- app_assoc, drop_trace. }
  rewrite Hout. split; [done|]. split; [done|].
  intros other i removed d Hok.
  rewrite (on_frame_delete_since _ _ _ _ Hok).
  change (deliveries (Called OpFindOneAndDelete :: ?l)) with (deliveries l).
  rewrite deliveries_deliver_all. by apply elem_of_deliver_all.
Qed.

Lemma join_survives_fetch_failure_witness :
  "C" ∈ members (Some "cat")
          (exec (on_join_flipbook "C" (Some "cat")) world_cat_down)
  ∧ deliveries (since world_cat_down
       (exec (on_join_flipbook "C" (Some "cat")) world_cat_down)) = [].
Proof.
  assert (result (snapshot_of (Some "cat"))
            (exec (socket_join "C" (Some "cat")) world_cat_down)
          = Throw StoreError) as H by (vm_compute; reflexivity).
  pose proof (join_survives_fetch_failure "C" (Some "cat") world_cat_down
                StoreError H) as (_ & Hmem & Hsent & _).
  exact (conj Hmem Hsent).
Defined.

(* ===================================================================== *)
(** ** The store calls, when the store answers *)
(* ===================================================================== *)

Ltac run_store Hs Ha w :=
  unfold_store; rewrite Hs; unfold store_answers in Ha;
  unfold answered, set_drawings; simpl;
  destruct (faults w) as [|[] ?]; simpl in *; try done.

Lemma find_run q s b w :
  selector_of q = Some s → store_answers 1 w = true →
  Drawing_find q b w =
  (Ok (if b then merge_sort index_le (filter (selects s) (drawings w))
       else filter (selects s) (drawings w)),
   answered OpFind w).
Proof. intros Hs Ha. run_store Hs Ha w. Qed.

Lemma findOne_run q s w :
  selector_of q = Some s → store_answers 1 w = true →
  Drawing_findOne q w =
  (Ok (head (filter (selects s) (drawings w))), answered OpFindOne w).
Proof. intros Hs Ha. run_store Hs Ha w. Qed.

Lemma findOneAndUpdate_run q s u w :
  selector_of q = Some s → store_answers 1 w = true →
  Drawing_findOneAndUpdate q u w =
  match update_first s u (drawings w) with
  | Some (d, c') =>
      (Ok d, set_drawings c' (answered OpFindOneAndUpdate (exec Date_now w)))
  | None =>
      (Ok (inserted s u (now w)),
       set_drawings (drawings w ++ [inserted s u (now w)])
         (answered OpFindOneAndUpdate (exec Date_now w)))
  end.
Proof.
  intros Hs Ha. run_store Hs Ha w.
  all: by destruct (update_first _ _ _) as [[d c']|].
Qed.

Lemma findOneAndDelete_run q s w :
  selector_of q = Some s → store_answers 1 w = true →
  Drawing_findOneAndDelete q w =
  (Ok (delete_first s (drawings w)).1,
   set_drawings (delete_first s (drawings w)).2 (answered OpFindOneAndDelete w)).
Proof.
  intros Hs Ha. run_store Hs Ha w.
  all: by destruct (delete_first _ _) as [r c'].
Qed.

Lemma deleteMany_run q s w :
  selector_of q = Some s → store_answers 1 w = true →
  Drawing_deleteMany q w =
  (Ok (length (filter (selects s) (drawings w))),
   set_drawings (filter (λ d, ¬ selects s d) (drawings w))
     (answered OpDeleteMany w)).
Proof. intros Hs Ha. run_store Hs Ha w. Qed.

Lemma updateMany_run q s newId w :
  selector_of q = Some s → store_answers 1 w = true →
  Drawing_updateMany q newId w =
  (match (rewrite_all s newId [] (drawings w)).1 with
   | Ok n => Ok n
   | Throw e => Throw e
   end,
   set_drawings (rewrite_all s newId [] (drawings w)).2
     (answered OpUpdateMany w)).
Proof.
  intros Hs Ha. run_store Hs Ha w.
  all: by destruct (rewrite_all _ _ _ _) as [[n|e] c'].
Qed.

Lemma since_answered op l w : since w (log l (answered op w)) = Called op :: l.
Proof. unfold since, log, answered. simpl. by rewrite <- app_assoc, drop_trace. Qed.

(* ===================================================================== *)
(** ** Single frames over REST *)
(* ===================================================================== *)

Lemma delete_first_absent s c :
  (∀ d, d ∈ c → ¬ selects s d) → delete_first s c = (None, c).
Proof.
  induction c as [|d c IH]; intros Hno; simpl; [done|].
  rewrite decide_False by (apply Hno; left).
  rewrite IH; [done|]. intros x Hx. apply Hno. by right.
Qed.

Lemma filter_absent s (c : list Drawing) :
  (∀ d, d ∈ c → ¬ selects s d) → filter (selects s) c = [].
Proof.
  induction c as [|d c IH]; intros Hno; [done|].
  rewrite filter_cons_False by (apply Hno; left).
  apply IH. intros x Hx. apply Hno. by right.
Qed.

Lemma deleteFrame_run f n w :
  store_answers 1 w = true →
  deleteFrame f (Num n) w =
  (Ok tt,
   log [Respond 200 (JMessage "Frame deleted successfully")]
     (set_drawings (delete_first (SelFrame (Some f) (Some n)) (drawings w)).2
        (answered OpFindOneAndDelete w))).
Proof.
  intros Ha. unfold deleteFrame, try_catch, mbind, M_bind.
  by rewrite (findOneAndDelete_run (ByFrame (Some f) (Some (Num n)))
                (SelFrame (Some f) (Some n)) _ eq_refl Ha).
Qed.

Lemma getFrame_run f n w :
  store_answers 1 w = true →
  getFrame f (Num n) w =
  (Ok tt,
   log [match head (filter (selects (SelFrame (Some f) (Some n))) (drawings w)) with
        | None => Respond 404 (JError "Frame not found")
        | Some d => Respond 200 (JDrawing d)
        end] (answered OpFindOne w)).
Proof.
  intros Ha. unfold getFrame, try_catch, mbind, M_bind.
  rewrite (findOne_run (ByFrame (Some f) (Some (Num n)))
             (SelFrame (Some f) (Some n)) _ eq_refl Ha).
  by destruct (head _).
Qed.

(** C6. DELETE of a frame answers 200 "Frame deleted successfully" whether
    or not the frame is stored; when it is not stored the collection is left
    as it was, and GET of that frame answers 404 "Frame not found".  (The
    store is taken to answer; a store failure is a 500 on both routes.) *)
Theorem delete_idempotent_get_not_found (flipbookId : string) (n : Z)
    (w : World) :
  store_answers 1 w = true →
  responses (since w (exec (deleteFrame flipbookId (Num n)) w))
    = [(200, JMessage "Frame deleted successfully")]
  ∧ ((∀ d, d ∈ drawings w → key d ≠ (Some flipbookId, Some n)) →
     drawings (exec (deleteFrame flipbookId (Num n)) w) = drawings w
     ∧ responses (since w (exec (getFrame flipbookId (Num n)) w))
       = [(404, JError "Frame not found")]).
Proof.
  intros Ha. unfold exec. rewrite (deleteFrame_run _ _ _ Ha),
    (getFrame_run _ _ _ Ha). simpl. split.
  - change (set_drawings ?c (answered ?op w)) with (answered op (set_drawings c w)).
    unfold since, log, answered. simpl.
    by rewrite <- app_assoc, drop_trace.
  - intros Hno. rewrite delete_first_absent, filter_absent by done.
    split; [done|]. by rewrite since_answered.
Qed.

Lemma delete_idempotent_get_not_found_witness :
  responses (since world_cat (exec (deleteFrame "cat" (Num 7)) world_cat))
    = [(200, JMessage "Frame deleted successfully")]
  ∧ responses (since world_cat (exec (getFrame "cat" (Num 7)) world_cat))
    = [(404, JError "Frame not found")].
Proof.
  destruct (delete_idempotent_get_not_found "cat" 7 world_cat eq_refl)
    as [Hdel Hget].
  split; [exact Hdel|]. apply Hget. intros d Hd. vm_compute in Hd. inversion Hd.
Defined.

(* ===================================================================== *)
(** ** The unique index is kept *)
(* ===================================================================== *)

Lemma keeps_bind {A B} (m : M A) (f : A → M B) :
  keeps_index m → (∀ a, keeps_index (f a)) → keeps_index (m ≫= f).
Proof.
  intros Hm Hf w Hw. specialize (Hm w Hw). unfold exec, mbind, M_bind in *.
  destruct (m w) as [[a|e] w1]; simpl in *; [by apply Hf|done].
Qed.

Lemma keeps_try {A} (m : M A) (h : Error → M A) :
  keeps_index m → (∀ e, keeps_index (h e)) → keeps_index (try_catch m h).
Proof.
  intros Hm Hh w Hw. specialize (Hm w Hw). unfold exec, try_catch in *.
  destruct (m w) as [[a|e] w1]; simpl in *; [done|by apply Hh].
Qed.

(** A computation that does not touch the collection. *)
Lemma keeps_silent {A} (m : M A) :
  (∀ w, drawings (exec m w) = drawings w) → keeps_index m.
Proof. intros H w Hw. by rewrite H. Qed.

Lemma keeps_ret {A} (a : A) : keeps_index (mret a).
Proof. by apply keeps_silent. Qed.

Lemma keeps_throw {A} (e : Error) : keeps_index (mthrow (M:=M) (A:=A) e).
Proof. by apply keeps_silent. Qed.

Lemma keeps_emit l : keeps_index (emit_effects l).
Proof. by apply keeps_silent. Qed.

Lemma keeps_get {A} (f : World → A) : keeps_index (get f).
Proof. by apply keeps_silent. Qed.

Lemma keeps_now : keeps_index Date_now.
Proof. by apply keeps_silent. Qed.

Lemma keeps_round_trip : keeps_index round_trip.
Proof.
  apply keeps_silent. intros w. unfold exec, round_trip.
  by destruct (faults w) as [|[] ?].
Qed.

Lemma keeps_cast q : keeps_index (cast q).
Proof. unfold cast. destruct (selector_of q); by apply keeps_silent. Qed.

Lemma keeps_join s f : keeps_index (socket_join s f).
Proof. by apply keeps_silent. Qed.

Lemma keeps_leave s f : keeps_index (socket_leave s f).
Proof.
  apply keeps_silent. intros w. unfold exec, socket_leave, modify. simpl.
  by destruct (rooms w !! f).
Qed.

(** *** The four writes *)

Lemma update_first_keys s u c d c' :
  update_first s u c = Some (d, c') → key <$> c' = key <$> c.
Proof.
  revert d c'. induction c as [|x c IH]; intros d c'; simpl; [done|].
  case_decide.
  - by intros [= <- <-].
  - destruct (update_first s u c) as [[d1 c1]|]; [|done].
    intros [= <- <-]. simpl. f_equal. by eapply IH.
Qed.

Lemma update_first_None s u c :
  update_first s u c = None → ∀ d, d ∈ c → ¬ selects s d.
Proof.
  induction c as [|x c IH]; simpl; [by intros _ d ?%elem_of_nil|].
  case_decide as Hx; [done|].
  destruct (update_first s u c) as [[d1 c1]|]; [done|].
  intros _ d [->|Hd]%elem_of_cons; [done|by apply IH].
Qed.

Lemma inserted_selected s u t d :
  key d = key (inserted s u t) → selects s d.
Proof.
  destruct s as [f|f i]; simpl; unfold key; simpl; [by intros [= -> _]|done].
Qed.

Lemma keeps_findOneAndUpdate_write s u t c :
  unique_index c →
  match update_first s u c with
  | Some (_, c') => unique_index c'
  | None => unique_index (c ++ [inserted s u t])
  end.
Proof.
  unfold unique_index. intros Hc.
  destruct (update_first s u c) as [[d c']|] eqn:E.
  - by rewrite (update_first_keys _ _ _ _ _ E).
  - rewrite fmap_app. apply NoDup_app. split; [done|]. split.
    + intros k Hk Hk'. apply list_elem_of_singleton in Hk' as ->.
      apply list_elem_of_fmap in Hk as (d & Hkey & Hd).
      apply (update_first_None _ _ _ E d Hd). by eapply inserted_selected.
    + apply NoDup_singleton.
Qed.

Lemma delete_first_sublist s c : (delete_first s c).2 `sublist_of` c.
Proof.
  induction c as [|x c IH]; simpl; [done|].
  case_decide; simpl.
  - by apply sublist_cons.
  - destruct (delete_first s c) as [r c'']. simpl in *. by apply sublist_skip.
Qed.

Lemma unique_index_sublist c c' :
  c' `sublist_of` c → unique_index c → unique_index c'.
Proof.
  unfold unique_index. intros Hsub Hc. apply (sublist_NoDup _ _ Hc).
  by apply fmap_sublist.
Qed.

Lemma unique_index_replace done d d' rest :
  unique_index (done ++ d :: rest) →
  key d' ∉ key <$> (done ++ rest) →
  unique_index ((done ++ [d']) ++ rest).
Proof.
  unfold unique_index. rewrite <- app_assoc. simpl.
  rewrite !fmap_app, !fmap_cons, elem_of_app, !NoDup_app, !NoDup_cons.
  intros (Hd1 & Hd2 & Hd3 & Hd4) Hnew.
  split; [done|]. split; [|split; [tauto|done]].
  intros k Hk [->|Hk']%elem_of_cons; [tauto|].
  apply (Hd2 k Hk). by right.
Qed.

Lemma rewrite_all_keeps s newId done todo :
  unique_index (done ++ todo) →
  unique_index (rewrite_all s newId done todo).2.
Proof.
  revert done. induction todo as [|d rest IH]; intros done Hu; simpl.
  { by rewrite app_nil_r in Hu. }
  case_decide as Hsel.
  - case_decide as Hdup; [done|].
    pose proof (IH _ (unique_index_replace _ _ _ _ Hu Hdup)) as IH'.
    by destruct (rewrite_all _ _ _ _) as [[n|e] c].
  - apply IH. by rewrite <- app_assoc.
Qed.

(** *** The calls into the model *)

Ltac enter_store w :=
  unfold exec;
  cbv [Drawing_find Drawing_findOne Drawing_findOneAndUpdate
       Drawing_findOneAndDelete Drawing_deleteMany Drawing_updateMany cast];
  match goal with
  | |- context [selector_of ?q] => destruct (selector_of q) as [s|]
  end;
  unfold_handler; unfold round_trip; simpl; [|done];
  destruct (faults w) as [|[] ?]; simpl; try done.

Lemma keeps_find q b : keeps_index (Drawing_find q b).
Proof. intros w Hw. enter_store w. Qed.

Lemma keeps_findOne q : keeps_index (Drawing_findOne q).
Proof. intros w Hw. enter_store w. Qed.

Lemma keeps_findOneAndUpdate q u : keeps_index (Drawing_findOneAndUpdate q u).
Proof.
  intros w Hw. enter_store w.
  all: pose proof (keeps_findOneAndUpdate_write s u (now w) _ Hw) as H.
  all: by destruct (update_first _ _ _) as [[d c']|].
Qed.

Lemma keeps_findOneAndDelete q : keeps_index (Drawing_findOneAndDelete q).
Proof.
  intros w Hw. enter_store w.
  all: pose proof (unique_index_sublist _ _ (delete_first_sublist s (drawings w)) Hw).
  all: by destruct (delete_first _ _) as [r c'].
Qed.

Lemma keeps_deleteMany q : keeps_index (Drawing_deleteMany q).
Proof.
  intros w Hw. enter_store w.
  all: apply (unique_index_sublist (drawings w)); [apply sublist_filter|done].
Qed.

Lemma keeps_updateMany q newId : keeps_index (Drawing_updateMany q newId).
Proof.
  intros w Hw. enter_store w.
  all: pose proof (rewrite_all_keeps s newId [] (drawings w) Hw).
  all: by destruct (rewrite_all _ _ _ _) as [[n|e] c'].
Qed.

(** *** The handlers *)

Create HintDb keeps.
#[local] Hint Resolve keeps_ret keeps_throw keeps_emit keeps_get keeps_now
  keeps_round_trip keeps_cast keeps_join keeps_leave keeps_find keeps_findOne
  keeps_findOneAndUpdate keeps_findOneAndDelete keeps_deleteMany
  keeps_updateMany : keeps.

Ltac keeps_step :=
  match goal with
  | |- keeps_index (try_catch _ _) => apply keeps_try; [|intros ?]
  | |- keeps_index (_ ≫= _) => apply keeps_bind; [|intros ?]
  | |- keeps_index (match ?x with _ => _ end) => destruct x
  | |- keeps_index (if ?x then _ else _) => destruct x
  | |- keeps_index _ => solve [auto with keeps]
  end.

Ltac solve_keeps :=
  unfold console_error, socket_emit, socket_to_emit, io_to_emit, res_json,
    res_status_json, destructure;
  repeat keeps_step.

Lemma keeps_handle r : keeps_index (handle r).
Proof.
  destruct r; simpl.
  - unfold getFrames; solve_keeps.
  - unfold getFrame; solve_keeps.
  - unfold saveFrame; solve_keeps.
  - unfold deleteFrame; solve_keeps.
  - unfold delete_flipbook; solve_keeps.
  - unfold put_rename; solve_keeps.
  - unfold on_join_flipbook; solve_keeps.
  - unfold on_leave_flipbook; solve_keeps.
  - unfold on_drawing_update; solve_keeps.
  - unfold on_frame_delete; solve_keeps.
Qed.

Lemma serves_keeps w0 w :
  unique_index (drawings w0) → serves w0 w → unique_index (drawings w).
Proof.
  intros H0 Hs. induction Hs as [|w' r Hs IH]; [done|].
  by apply keeps_handle.
Qed.

(* ===================================================================== *)
(** ** Listing the frames of a flipbook *)
(* ===================================================================== *)

Lemma responses_app l1 l2 : responses (l1 ++ l2) = responses l1 ++ responses l2.
Proof. unfold responses. by rewrite omap_app. Qed.

Lemma responses_deliver_all s ev : responses (deliver_all s ev) = [].
Proof.
  unfold responses, deliver_all.
  induction (elements s) as [|r l IH]; simpl; done.
Qed.

Lemma getFrames_responses f w :
  responses (since w (exec (getFrames f) w)) =
  if store_answers 1 w then [(200, JDrawings (listing (Some f) (drawings w)))]
  else [(500, JError "Failed to fetch frames")].
Proof.
  unfold getFrames, exec, store_answers, since, listing. unfold_store. simpl.
  destruct (faults w) as [|[] ?]; simpl; by rewrite <- !app_assoc, drop_trace.
Qed.

Lemma listing_elem f c d : d ∈ listing f c ↔ d ∈ c ∧ flipbookId d = f.
Proof.
  unfold listing. rewrite merge_sort_Permutation, list_elem_of_filter.
  simpl. tauto.
Qed.

Lemma listing_sorted f c : Sorted index_le (listing f c).
Proof. apply Sorted_merge_sort; apply _. Qed.

Lemma listing_NoDup f c :
  unique_index c → NoDup (frameIndex <$> listing f c).
Proof.
  unfold unique_index, listing. intros Hc.
  rewrite merge_sort_Permutation.
  assert (NoDup (key <$> filter (selects (SelFlipbook f)) c)) as Hk.
  { apply (sublist_NoDup _ _ Hc), fmap_sublist, sublist_filter. }
  assert (key <$> filter (selects (SelFlipbook f)) c
          = pair f <$> (frameIndex <$> filter (selects (SelFlipbook f)) c)) as E.
  { rewrite <- list_fmap_compose. apply list_fmap_ext.
    intros i d Hd%list_elem_of_lookup_2.
    apply list_elem_of_filter in Hd as [Hd _]. simpl in Hd. unfold key. simpl.
    by rewrite Hd. }
  rewrite E in Hk. by apply NoDup_fmap_1 in Hk.
Qed.

(** C7. On a collection that satisfies the unique index, every request the
    server handles leaves it satisfied; so in every world the server reaches,
    the frames GET /frames answers with are those of the flipbook, in
    ascending order of [frameIndex], no two with the same index.  When the
    store answers, that is the response. *)
Theorem list_frames_sorted_unique (w0 w : World) (f : string) :
  unique_index (drawings w0) → serves w0 w →
  unique_index (drawings w)
  ∧ (∀ r, unique_index (drawings (exec (handle r) w)))
  ∧ (∀ docs,
       (200, JDrawings docs) ∈ responses (since w (exec (getFrames f) w)) →
       Sorted index_le docs
       ∧ NoDup (frameIndex <$> docs)
       ∧ ∀ d, d ∈ docs ↔ d ∈ drawings w ∧ flipbookId d = Some f)
  ∧ (store_answers 1 w = true →
     ∃ docs, responses (since w (exec (getFrames f) w)) = [(200, JDrawings docs)]).
Proof.
  intros H0 Hs. pose proof (serves_keeps _ _ H0 Hs) as Hw.
  split; [done|]. split; [intros r; by apply keeps_handle|].
  rewrite getFrames_responses. split.
  - intros docs Hin. destruct (store_answers 1 w).
    + apply list_elem_of_singleton in Hin. simplify_eq.
      split; [apply listing_sorted|]. split; [by apply listing_NoDup|].
      intros d. apply listing_elem.
    + apply list_elem_of_singleton in Hin. simplify_eq.
  - intros ->. by eexists.
Qed.

Lemma list_frames_sorted_unique_witness :
  responses (since world_stored (exec (getFrames "cat") world_stored))
  = [(200, JDrawings [frame "cat" 0 "a" 20; frame "cat" 1 "b" 10])]
  ∧ Sorted index_le [frame "cat" 0 "a" 20; frame "cat" 1 "b" 10].
Proof.
  assert (unique_index (drawings world_stored)) as H0.
  { apply (bool_decide_unpack _). vm_compute. exact I. }
  destruct (list_frames_sorted_unique world_stored world_stored "cat" H0
              (serves_refl _)) as (_ & _ & Hsorted & _).
  split; [vm_compute; reflexivity|].
  refine (proj1 (Hsorted _ _)). vm_compute. left.
Defined.

(* ===================================================================== *)
(** ** Deleting a frame and adding it again *)
(* ===================================================================== *)

Lemma delete_first_unique f i c :
  unique_index c →
  ∀ d, d ∈ (delete_first (SelFrame f i) c).2 → ¬ selects (SelFrame f i) d.
Proof.
  unfold unique_index. induction c as [|x c IH]; simpl; intros Hc d Hd.
  { by apply elem_of_nil in Hd. }
  apply NoDup_cons in Hc as [Hx Hc]. case_decide as Hsel; simpl in *.
  - intros Hd'. apply Hx. rewrite Hsel, <- Hd'. by apply list_elem_of_fmap_2.
  - destruct (delete_first (SelFrame f i) c) as [r c'']. simpl in *.
    apply elem_of_cons in Hd as [->|Hd]; [done|by apply IH].
Qed.

Lemma update_first_absent s u c :
  (∀ d, d ∈ c → ¬ selects s d) → update_first s u c = None.
Proof.
  induction c as [|x c IH]; intros Hno; simpl; [done|].
  rewrite decide_False by (apply Hno; left).
  rewrite IH; [done|]. intros d Hd. apply Hno. by right.
Qed.

Lemma saveFrame_run f n data author w :
  store_answers 1 w = true →
  let s := SelFrame (Some f) (Some n) in
  let u := {| u_drawingData := data;
              u_createdBy := or_default author "anonymous";
              u_updatedAt := now w |} in
  let w1 := exec Date_now w in
  saveFrame f (Num n) data author w =
  match update_first s u (drawings w) with
  | Some (d, c') =>
      (Ok tt, log [Respond 200 (JDrawing d)]
                (set_drawings c' (answered OpFindOneAndUpdate (exec Date_now w1))))
  | None =>
      (Ok tt, log [Respond 200 (JDrawing (inserted s u (now w1)))]
                (set_drawings (drawings w ++ [inserted s u (now w1)])
                   (answered OpFindOneAndUpdate (exec Date_now w1))))
  end.
Proof.
  intros Ha s u w1. unfold saveFrame, try_catch, mbind, M_bind.
  change (Date_now w) with (Ok (now w), w1).
  cbv iota beta. fold u.
  rewrite (findOneAndUpdate_run (ByFrame (Some f) (Some (Num n))) s u w1 eq_refl Ha).
  change (drawings w1) with (drawings w).
  by destruct (update_first s u (drawings w)) as [[d c']|].
Qed.

(** C8. After a frame has been deleted, the POST that stores the same index
    again inserts a new record: its [updatedAt] is the clock reading of that
    POST and its [createdAt] the reading taken when the record is built, a
    moment later; nothing is carried over from the deleted record, so both
    differ from its timestamps as soon as the clock has moved on. *)
Theorem readd_has_fresh_timestamps (f : string) (n : Z)
    (data author : option string) (w w1 : World) :
  unique_index (drawings w) →
  store_answers 1 w = true →
  drawings w1 = drawings (exec (deleteFrame f (Num n)) w) →
  store_answers 1 w1 = true →
  let w2 := exec (saveFrame f (Num n) data author) w1 in
  let fresh :=
    {| flipbookId := Some f; frameIndex := Some n; drawingData := data;
       createdAt := now w1 + Z.of_N (hd 0%N (ticks w1));
       updatedAt := now w1;
       createdBy := or_default author "anonymous" |} in
  filter (selects (SelFrame (Some f) (Some n))) (drawings w2) = [fresh]
  ∧ responses (since w1 w2) = [(200, JDrawing fresh)]
  ∧ (∀ old, old ∈ drawings w → key old = (Some f, Some n) →
       createdAt old < now w1 → updatedAt old < now w1 →
       createdAt fresh ≠ createdAt old ∧ updatedAt fresh ≠ updatedAt old).
Proof.
  intros Hu Ha Hw1 Ha1 w2 fresh.
  assert (∀ d, d ∈ drawings w1 → ¬ selects (SelFrame (Some f) (Some n)) d) as Hgone.
  { rewrite Hw1. unfold exec. rewrite (deleteFrame_run _ _ _ Ha). simpl.
    by apply delete_first_unique. }
  subst w2. unfold exec. rewrite (saveFrame_run _ _ _ _ _ Ha1).
  rewrite (update_first_absent _ _ _ Hgone). simpl.
  change (inserted _ _ _) with fresh.
  split; [|split].
  - rewrite filter_app, (filter_absent _ _ Hgone).
    by rewrite filter_cons_True.
  - change (set_drawings ?c (answered ?op ?x)) with (answered op (set_drawings c x)).
    unfold since, log, answered. simpl.
    by rewrite <- app_assoc, drop_trace.
  - intros old _ _ Hc Hup. simpl. lia.
Qed.

Lemma readd_has_fresh_timestamps_witness :
  filter (selects (SelFrame (Some "cat") (Some 0)))
    (drawings (exec (saveFrame "cat" (Num 0) (Some "z") None)
                 (exec (deleteFrame "cat" (Num 0)) world_stored)))
  = [{| flipbookId := Some "cat"; frameIndex := Some 0;
        drawingData := Some "z"; createdAt := 1005; updatedAt := 1000;
        createdBy := "anonymous" |}].
Proof.
  assert (unique_index (drawings world_stored)) as H0.
  { apply (bool_decide_unpack _). vm_compute. exact I. }
  exact (proj1 (readd_has_fresh_timestamps "cat" 0 (Some "z") None world_stored
                  (exec (deleteFrame "cat" (Num 0)) world_stored)
                  H0 eq_refl eq_refl eq_refl)).
Defined.

(* ===================================================================== *)
(** ** White space *)
(* ===================================================================== *)

Lemma skip_length p s s' :
  skip p s = Some s' →
  String.length s = (String.length p + String.length s')%nat.
Proof.
  revert s. induction p as [|a p IH]; intros s; simpl.
  - by intros [= ->].
  - destruct s as [|b s]; [done|]. case_decide; [|done].
    intros Hs. simpl. by rewrite (IH _ Hs).
Qed.

Lemma skip_one_shorter ps s s' :
  Forall (λ p, p ≠ "") ps → skip_one ps s = Some s' →
  (String.length s' < String.length s)%nat.
Proof.
  unfold skip_one. induction 1 as [|p ps Hp _ IH]; simpl; [done|].
  destruct (skip p s) as [r|] eqn:E; simpl.
  - intros [= <-]. apply skip_length in E. destruct p; [done|]. simpl in E. lia.
  - apply IH.
Qed.

Lemma skip_one_empty ps : Forall (λ p, p ≠ "") ps → skip_one ps "" = None.
Proof.
  unfold skip_one. induction 1 as [|p ps Hp _ IH]; simpl; [done|].
  by destruct p.
Qed.

(** [skip_all] stops only where nothing of [ps] is left in front. *)
Lemma skip_all_done ps n s :
  Forall (λ p, p ≠ "") ps → (String.length s ≤ n)%nat →
  skip_one ps (skip_all ps n s) = None.
Proof.
  intros Hps. revert s. induction n as [|n IH]; intros s Hn; simpl.
  - destruct s; [by apply skip_one_empty|simpl in Hn; lia].
  - destruct (skip_one ps s) as [s'|] eqn:E; [|done].
    apply IH. pose proof (skip_one_shorter _ _ _ Hps E). lia.
Qed.

Lemma white_space_not_empty :
  Forall (λ p, p ≠ "") (utf8 <$> white_space)
  ∧ Forall (λ p, p ≠ "") (String.rev ∘ utf8 <$> white_space).
Proof. split; apply (bool_decide_unpack _); vm_compute; exact I. Qed.

(** What [trimStart] returns starts with no white space. *)
Lemma trimStart_done s : skip_one (utf8 <$> white_space) (trimStart s) = None.
Proof. apply skip_all_done; [apply white_space_not_empty|done]. Qed.

Lemma rev_app_length s t :
  String.length (String.rev_app s t) = (String.length s + String.length t)%nat.
Proof.
  revert t. induction s as [|a s IH]; intros t; simpl; [done|].
  rewrite IH. simpl. lia.
Qed.

Lemma rev_app_rev_app s t u :
  String.rev_app (String.rev_app s t) u = String.rev_app t (s +:+ u).
Proof.
  revert t u. induction s as [|a s IH]; intros t u; simpl; [done|].
  by rewrite IH.
Qed.

Lemma rev_rev s : String.rev (String.rev s) = s.
Proof.
  unfold String.rev. rewrite rev_app_rev_app. simpl.
  induction s as [|a s IH]; [done|].
  change (String a (s +:+ "") = String a s). by rewrite IH.
Qed.

(** What [trimEnd] returns ends with no white space. *)
Lemma trimEnd_done s :
  skip_one (String.rev ∘ utf8 <$> white_space) (String.rev (trimEnd s)) = None.
Proof.
  unfold trimEnd. rewrite rev_rev.
  apply skip_all_done; [apply white_space_not_empty|].
  unfold String.rev. rewrite rev_app_length. simpl. lia.
Qed.

(** The bytes of some encodings. *)
Example utf8_bytes :
  let bytes c := Ascii.N_of_ascii <$> String.list_ascii_of_string (utf8 c) in
  bytes 0x20%N = [32]%N
  ∧ bytes 0xA0%N = [194; 160]%N
  ∧ bytes 0x2028%N = [226; 128; 168]%N
  ∧ bytes 0x3000%N = [227; 128; 128]%N
  ∧ bytes 0xFEFF%N = [239; 187; 191]%N.
Proof. vm_compute. done. Qed.

(** The code points beyond ASCII are removed like the blank, at both ends;
    other characters, the zero-width space among them, stay. *)
Example trim_unicode :
  trim (utf8 0xA0 +:+ " dog" +:+ utf8 0x3000 +:+ utf8 0xFEFF +:+ " ") = "dog"
  ∧ trim (utf8 0x2028) = ""
  ∧ trim ("a b" +:+ utf8 0x200B) = "a b" +:+ utf8 0x200B.
Proof. vm_compute. done. Qed.

(* ===================================================================== *)
(** ** Renaming a flipbook *)
(* ===================================================================== *)

Lemma store_answers_S n op w :
  store_answers (S n) w = true →
  store_answers 1 w = true ∧ store_answers n (answered op w) = true.
Proof.
  unfold store_answers, answered. simpl.
  destruct (faults w) as [|[] fs]; simpl; try done.
  intros _. by rewrite take_nil.
Qed.

Lemma head_filter_occupied f c :
  occupied f c ↔ is_Some (head (filter (selects (SelFlipbook (Some f))) c)).
Proof.
  unfold occupied. split.
  - intros (d & Hd & Hf).
    assert (d ∈ filter (selects (SelFlipbook (Some f))) c) as Hin
      by (by apply list_elem_of_filter).
    destruct (filter _ c); [by apply elem_of_nil in Hin|by eexists].
  - intros [d Hd]. exists d. apply head_Some_elem_of in Hd.
    by apply list_elem_of_filter in Hd as [? ?].
Qed.

Lemma put_rename_blank old new w :
  is_blank new = true →
  put_rename old new w =
  (Ok tt, log [Respond 400 (JError "New flipbook ID is required")] w).
Proof. intros Hb. unfold put_rename, try_catch. by rewrite Hb. Qed.

Lemma put_rename_occupied old new w :
  is_blank (Some new) = false → store_answers 1 w = true →
  occupied (trim new) (drawings w) →
  put_rename old (Some new) w =
  (Ok tt, log [Respond 400 (JError "A flipbook with this name already exists")]
            (answered OpFindOne w)).
Proof.
  intros Hb Ha [d Hd]%head_filter_occupied.
  unfold put_rename, try_catch, mbind, M_bind. rewrite Hb. simpl.
  rewrite (findOne_run (ByFlipbook (Some (trim new)))
             (SelFlipbook (Some (trim new))) _ eq_refl Ha).
  by rewrite Hd.
Qed.

Lemma put_rename_free old new w :
  is_blank (Some new) = false → store_answers 2 w = true →
  ¬ occupied (trim new) (drawings w) →
  let rw := rewrite_all (SelFlipbook (Some old)) (trim new) [] (drawings w) in
  let w1 := set_drawings rw.2 (answered OpUpdateMany (answered OpFindOne w)) in
  put_rename old (Some new) w =
  match rw.1 with
  | Ok k =>
      (Ok tt,
       log (deliver_all (members (Some old) w) (FlipbookRenamed old (trim new))
            ++ [Respond 200 (JRenamed "Flipbook renamed successfully" old
                               (trim new) k)]) w1)
  | Throw e =>
      (Ok tt,
       log [ConsoleError "Error renaming flipbook:";
            Respond 500 (JError "Failed to rename flipbook")] w1)
  end.
Proof.
  intros Hb Ha Hfree rw w1.
  destruct (store_answers_S 1 OpFindOne w Ha) as [Ha1 Ha2].
  unfold put_rename, try_catch, mbind, M_bind. rewrite Hb. simpl.
  rewrite (findOne_run (ByFlipbook (Some (trim new)))
             (SelFlipbook (Some (trim new))) _ eq_refl Ha1).
  destruct (head _) as [d|] eqn:Hd.
  { destruct Hfree. apply head_filter_occupied. by eexists. }
  rewrite (updateMany_run (ByFlipbook (Some old)) (SelFlipbook (Some old))
             _ _ eq_refl Ha2).
  change (drawings (answered OpFindOne w)) with (drawings w). fold rw. fold w1.
  destruct (rw.1) as [k|e]; unfold_handler; unfold log; simpl;
    by rewrite <- ?app_assoc.
Qed.

(** Refusal does not hold for the name as sent: " dog " holds a frame, and
    the rename of "cat" to " dog " goes through, to "dog". *)
Lemma rename_to_padded_occupied_id_goes_through :
  occupied " dog " (drawings world_stored)
  ∧ store_answers 2 world_stored = true
  ∧ ¬ rename_refused world_stored
        (exec (put_rename "cat" (Some " dog ")) world_stored).
Proof.
  split; [|split; [done|]].
  - exists (frame " dog " 0 "c" 30). split; [|done].
    vm_compute. do 2 right. left.
  - intros [[msg Hresp] _]. vm_compute in Hresp. discriminate Hresp.
Qed.

(** C4 (amended). A rename whose target, the requested name with the white
    space at both ends removed, already holds a frame is refused with a 400
    response; no document is modified and no event is delivered to any
    socket.  (The store is taken to answer the look-up.) *)
Theorem rename_refused_when_target_occupied (old new : string) (w : World) :
  occupied (trim new) (drawings w) →
  store_answers 1 w = true →
  rename_refused w (exec (put_rename old (Some new)) w).
Proof.
  intros Hocc Ha. unfold rename_refused, exec.
  destruct (is_blank (Some new)) eqn:Hb.
  - rewrite (put_rename_blank _ _ _ Hb). simpl. rewrite since_app.
    split; [by eexists|done].
  - rewrite (put_rename_occupied _ _ _ Hb Ha Hocc). simpl.
    rewrite since_answered. split; [by eexists|done].
Qed.

Lemma rename_refused_when_target_occupied_witness :
  rename_refused world_stored
    (exec (put_rename " dog " (Some ("cat " +:+ utf8 0xA0))) world_stored).
Proof.
  apply rename_refused_when_target_occupied; [|reflexivity].
  exists (frame "cat" 1 "b" 10). split; [|reflexivity].
  vm_compute. left.
Defined.

(** *** A rename that goes through *)

Lemma renamed_fixed s newId d :
  flipbookId d = Some newId → renamed s newId d = d.
Proof.
  intros Hf. unfold renamed. case_decide; [|done].
  destruct d; simpl in *. by subst.
Qed.

(** Without a key collision, [rewrite_all] rewrites every match. *)
Lemma rewrite_all_free s newId done todo :
  unique_index (done ++ (renamed s newId <$> todo)) →
  (rewrite_all s newId done todo).2 = done ++ (renamed s newId <$> todo)
  ∧ ∃ k, (rewrite_all s newId done todo).1 = Ok k.
Proof.
  revert done. induction todo as [|d rest IH]; intros done Hu.
  { simpl. rewrite app_nil_r. split; [done|by eexists]. }
  rewrite fmap_cons in Hu |- *. simpl rewrite_all.
  destruct (decide (selects s d)) as [Hsel|Hsel].
  - assert (renamed s newId d = set_flipbookId newId d) as Er
      by (unfold renamed; by rewrite decide_True).
    rewrite Er in Hu |- *.
    assert (unique_index ((done ++ [set_flipbookId newId d])
                          ++ (renamed s newId <$> rest))) as Hu'
      by (by rewrite <- app_assoc).
    rewrite decide_False.
    + destruct (IH _ Hu') as [E [k Hk]].
      destruct (rewrite_all _ _ _ _) as [[n|e] c]; simpl in *; [|done].
      rewrite E, <- app_assoc. split; [done|by eexists].
    + intros Hdup. unfold unique_index in Hu.
      rewrite fmap_app, fmap_cons in Hu.
      apply NoDup_app in Hu as (_ & Hd2 & Hd3).
      apply NoDup_cons in Hd3 as [Hd3 _].
      rewrite fmap_app, elem_of_app in Hdup. destruct Hdup as [Hdup|Hdup].
      * apply (Hd2 _ Hdup). left.
      * apply Hd3. apply list_elem_of_fmap in Hdup as (r & Hkey & Hr).
        apply list_elem_of_fmap. exists (renamed s newId r).
        split; [|by apply list_elem_of_fmap_2].
        rewrite renamed_fixed; [done|].
        unfold key in Hkey. simpl in Hkey. by injection Hkey as <- _.
  - assert (renamed s newId d = d) as Er
      by (unfold renamed; by rewrite decide_False).
    rewrite Er in Hu |- *.
    assert (unique_index ((done ++ [d]) ++ (renamed s newId <$> rest))) as Hu'
      by (by rewrite <- app_assoc).
    destruct (IH _ Hu') as [E Hk]. by rewrite E, <- app_assoc.
Qed.

Lemma key_inj_on c a b :
  unique_index c → a ∈ c → b ∈ c → key a = key b → a = b.
Proof.
  unfold unique_index. induction c as [|x c IH]; intros Hc Ha Hb Hk.
  { by apply elem_of_nil in Ha. }
  rewrite fmap_cons in Hc. apply NoDup_cons in Hc as [Hx Hc].
  apply elem_of_cons in Ha as [->|Ha]; apply elem_of_cons in Hb as [->|Hb].
  - done.
  - destruct Hx. rewrite Hk. by apply list_elem_of_fmap_2.
  - destruct Hx. rewrite <- Hk. by apply list_elem_of_fmap_2.
  - by apply IH.
Qed.

Lemma key_renamed old target d :
  key (renamed (SelFlipbook (Some old)) target d) =
  if decide (flipbookId d = Some old) then (Some target, frameIndex d)
  else key d.
Proof. unfold renamed. simpl. by case_decide. Qed.

(** Renaming into a free name creates no duplicate key. *)
Lemma renamed_unique old target c :
  unique_index c → ¬ occupied target c →
  unique_index (renamed (SelFlipbook (Some old)) target <$> c).
Proof.
  intros Hc Hfree. unfold unique_index. rewrite <- list_fmap_compose.
  apply NoDup_fmap_2_strong; [|by apply NoDup_fmap_1 in Hc].
  intros a b Ha Hb. simpl. rewrite !key_renamed.
  assert (∀ x, x ∈ c → flipbookId x ≠ Some target) as Hno.
  { intros x Hx Hf. apply Hfree. by exists x. }
  do 2 case_decide; unfold key; intros Hk; simplify_eq.
  - apply (key_inj_on c); [done..|]. unfold key. congruence.
  - by destruct (Hno b).
  - by destruct (Hno a).
  - apply (key_inj_on c); [done..|]. unfold key. congruence.
Qed.

Lemma filter_key_unique f i c d :
  unique_index c → d ∈ c → key d = (f, i) →
  filter (selects (SelFrame f i)) c = [d].
Proof.
  unfold unique_index. induction c as [|x c IH]; intros Hc Hd Hk.
  { by apply elem_of_nil in Hd. }
  rewrite fmap_cons in Hc. apply NoDup_cons in Hc as [Hx Hc].
  apply elem_of_cons in Hd as [<-|Hd].
  - rewrite filter_cons_True by done. f_equal. apply filter_absent.
    intros y Hy Hsel. simpl in Hsel. apply Hx. rewrite Hk, <- Hsel.
    by apply list_elem_of_fmap_2.
  - rewrite filter_cons_False; [by apply IH|].
    simpl. intros Hsel. apply Hx. rewrite Hsel, <- Hk.
    by apply list_elem_of_fmap_2.
Qed.

(** Success does not hold for every name without frames: the empty name
    holds no frame, and the rename to it is turned down; "dog " holds no
    frame either, and after the rename to it the frames are under "dog". *)
Lemma rename_to_free_id_not_as_stated :
  (¬ occupied "" (drawings world_stored)
   ∧ ¬ rename_done "cat" "" world_stored
         (exec (put_rename "cat" (Some "")) world_stored))
  ∧ (¬ occupied "dog " (drawings world_stored)
     ∧ ¬ rename_done "cat" "dog " world_stored
           (exec (put_rename "cat" (Some "dog ")) world_stored)).
Proof.
  assert (∀ f, (∀ d, d ∈ drawings world_stored → flipbookId d ≠ Some f)
               → ¬ occupied f (drawings world_stored)) as Hfree.
  { intros f Hno (d & Hd & Hf). by apply (Hno d). }
  split; split.
  - apply Hfree. intros d Hd. vm_compute in Hd.
    repeat (apply elem_of_cons in Hd as [->|Hd]; [done|]).
    by apply elem_of_nil in Hd.
  - intros [[k Hresp] _]. vm_compute in Hresp. discriminate Hresp.
  - apply Hfree. intros d Hd. vm_compute in Hd.
    repeat (apply elem_of_cons in Hd as [->|Hd]; [done|]).
    by apply elem_of_nil in Hd.
  - intros (_ & Hget & _).
    specialize (Hget (frame "cat" 0 "a" 20) 0).
    assert (frame "cat" 0 "a" 20 ∈ drawings world_stored) as Hin
      by (vm_compute; right; left).
    specialize (Hget Hin eq_refl). vm_compute in Hget. discriminate Hget.
Qed.

Lemma store_answers_3 w :
  store_answers 3 w = true →
  store_answers 2 w = true
  ∧ store_answers 1 (answered OpUpdateMany (answered OpFindOne w)) = true.
Proof.
  unfold store_answers, answered. simpl.
  by destruct (faults w) as [|[] [|[] [|[] ?]]].
Qed.

Lemma renamed_not_old old target c x :
  ¬ occupied target c →
  x ∈ renamed (SelFlipbook (Some old)) target <$> c →
  flipbookId x ≠ Some old.
Proof.
  intros Hfree (a & -> & Ha)%list_elem_of_fmap. unfold renamed. simpl.
  case_decide as Hsel; [|done]. simpl. intros [= ->].
  apply Hfree. by exists a.
Qed.

(** C5 (amended). A rename whose requested name is not blank and whose
    target, that name with the white space at both ends removed, holds no
    frame, succeeds: the response is 200, every frame that was stored under
    the old name is what GET /frame answers under the target (same
    [frameIndex], same [drawingData], the name alone rewritten), and GET
    /frames under the old name answers the empty list.  (The collection
    satisfies its unique index and the store answers.) *)
Theorem rename_moves_frames (old new : string) (w : World) :
  unique_index (drawings w) →
  store_answers 3 w = true →
  is_blank (Some new) = false →
  ¬ occupied (trim new) (drawings w) →
  rename_done old (trim new) w (exec (put_rename old (Some new)) w).
Proof.
  intros Hu Ha Hb Hfree.
  destruct (store_answers_3 w Ha) as [Ha2 Ha1].
  pose proof (renamed_unique old (trim new) _ Hu Hfree) as Hu'.
  destruct (rewrite_all_free (SelFlipbook (Some old)) (trim new) []
              (drawings w) Hu') as [Erw [k Ek]].
  unfold rename_done, exec.
  rewrite (put_rename_free _ _ _ Hb Ha2 Hfree), Ek, Erw.
  cbn [snd app].
  set (c' := renamed (SelFlipbook (Some old)) (trim new) <$> drawings w) in *.
  set (w1 := set_drawings c' (answered OpUpdateMany (answered OpFindOne w))).
  set (out := deliver_all _ _ ++ _).
  assert (store_answers 1 (log out w1) = true) as Ha' by exact Ha1.
  assert (drawings (log out w1) = c') as Hc by done.
  split; [|split].
  - exists k. unfold since, log, w1, answered. simpl.
    rewrite <- !app_assoc, drop_trace. simpl. subst out.
    by rewrite responses_app, responses_deliver_all.
  - intros d i Hd Hk.
    rewrite (getFrame_run _ _ _ Ha'), Hc.
    assert (renamed (SelFlipbook (Some old)) (trim new) d
            = set_flipbookId (trim new) d) as Er.
    { unfold renamed. rewrite decide_True; [done|]. simpl.
      unfold key in Hk. congruence. }
    rewrite (filter_key_unique _ _ _ (set_flipbookId (trim new) d) Hu').
    + simpl. by rewrite since_answered.
    + rewrite <- Er. by apply list_elem_of_fmap_2.
    + unfold key in *. simpl. congruence.
  - fold (exec (getFrames old) (log out w1)).
    rewrite getFrames_responses, Ha', Hc. unfold listing.
    rewrite filter_absent; [done|].
    intros x Hx Hsel. by apply (renamed_not_old _ _ _ _ Hfree Hx).
Qed.

Lemma rename_moves_frames_witness :
  rename_done "cat" "dog" world_stored
    (exec (put_rename "cat" (Some "dog ")) world_stored).
Proof.
  assert (unique_index (drawings world_stored)) as H0.
  { apply (bool_decide_unpack _). vm_compute. exact I. }
  apply (rename_moves_frames "cat" "dog " world_stored H0 eq_refl eq_refl).
  intros (d & Hd & Hf). vm_compute in Hd.
  repeat (apply elem_of_cons in Hd as [->|Hd]; [discriminate Hf|]).
  by apply elem_of_nil in Hd.
Defined.

(* ===================================================================== *)
(** * Further properties of the handlers *)
(* ===================================================================== *)

(** ** No handler lets an exception out *)




(** ** One response per REST request *)

Ltac crush_trace :=
  unfold since, log; simpl;
  rewrite <- ?app_assoc; rewrite ?drop_trace, ?drop_all; simpl;
  rewrite ?responses_app, ?responses_deliver_all, ?deliveries_app,
    ?deliveries_deliver_all, ?store_calls_app, ?store_calls_deliver_all;
  simpl.

Ltac crush_handlers :=
  unfold_handlers; unfold_store; simpl; repeat break_match; crush_trace.

(** Every REST request gets exactly one HTTP response, whatever the store
    does, and a Socket.IO event gets none. *)
Theorem one_response_per_rest_request (r : Request) (w : World) :
  length (responses (since w (exec (handle r) w)))
  = if is_rest r then 1%nat else 0%nat.
Proof. destruct r; simpl; crush_handlers; done. Qed.

(** ** When the store is down *)

(** A request that finds the store down changes no document.  A
    drawing-update or a frame-delete tells its sender, with one
    [drawing-error]; nothing else is delivered to anyone, so neither a
    snapshot nor the broadcast of a mutation goes out.  A REST request is
    answered once, with an error body and status 500, or 400 when it is a
    rename turned down for its blank name before the store is asked; a
    Socket.IO event gets no response. *)
Theorem store_down_changes_nothing (r : Request) (w : World) :
  store_down w →
  let out := since w (exec (handle r) w) in
  drawings (exec (handle r) w) = drawings w
  ∧ deliveries out = failure_notice r
  ∧ Forall (λ p, is_error_event p.2 = true) (deliveries out)
  ∧ (responses out).*1
    = (if is_rest r then [if blank_rename r then 400 else 500] else [])
  ∧ Forall (λ p, ∃ msg, p.2 = JError msg) (responses out).
Proof.
  unfold store_down. intros Hdown. cbv zeta.
  destruct (faults w) as [|[] fs] eqn:Hf; simplify_eq/=.
  destruct r; simpl; unfold_handlers; unfold_store; rewrite ?Hf; simpl;
    repeat (break_match; rewrite ?Hf in *; simplify_eq/=); crush_trace;
    repeat split; repeat (apply Forall_cons; split); try apply Forall_nil;
    simpl; eauto.
Qed.

Lemma store_down_changes_nothing_witness :
  drawings (exec (handle (DeleteFlipbook "cat")) world_stored_down)
  = drawings world_stored_down
  ∧ (responses (since world_stored_down
       (exec (handle (GetFrames "cat")) world_stored_down))).*1 = [500].
Proof.
  split.
  - exact (proj1 (store_down_changes_nothing (DeleteFlipbook "cat")
                    world_stored_down eq_refl)).
  - exact (proj1 (proj2 (proj2 (proj2
             (store_down_changes_nothing (GetFrames "cat")
                world_stored_down eq_refl))))).
Defined.

(** ** What a request leaves alone *)

(** The reads (GET of frames, join, leave) never modify the collection. *)
Theorem reads_keep_collection (r : Request) (w : World) :
  is_read r = true → drawings (exec (handle r) w) = drawings w.
Proof.
  destruct r; simpl; try done; intros _; crush_handlers; done.
Qed.

Lemma reads_keep_collection_witness :
  drawings (exec (handle (JoinFlipbook "C" None)) world_stored)
  = drawings world_stored.
Proof.
  exact (reads_keep_collection (JoinFlipbook "C" None) world_stored eq_refl).
Defined.

(** Only join-flipbook and leave-flipbook change who is in a room: no REST
    request and no drawing or delete event moves a socket, and in
    particular a rename or a deletion of a flipbook leaves the members of
    its room where they are. *)
Theorem only_join_leave_change_rooms (r : Request) (w : World) :
  is_membership r = false → rooms (exec (handle r) w) = rooms w.
Proof.
  destruct r; simpl; try done; intros _; crush_handlers; done.
Qed.

Lemma only_join_leave_change_rooms_witness :
  rooms (exec (handle (PutRename "cat" (Some "dog"))) world_stored)
  = rooms world_stored.
Proof.
  exact (only_join_leave_change_rooms (PutRename "cat" (Some "dog"))
           world_stored eq_refl).
Defined.

(* ===================================================================== *)
(** * Single frames: what is stored *)
(* ===================================================================== *)

Lemma store_answers_2 op w :
  store_answers 2 w = true →
  store_answers 1 w = true ∧ store_answers 1 (answered op w) = true.
Proof. apply store_answers_S. Qed.

Lemma apply_update_key u d : key (apply_update u d) = key d.
Proof. done. Qed.

Lemma selects_frame_key f i d : selects (SelFrame f i) d ↔ key d = (f, i).
Proof. done. Qed.

(** What [update_first] does when it finds a match. *)
Lemma update_first_Some s u c d c' :
  update_first s u c = Some (d, c') →
  (∃ d0, d0 ∈ c ∧ selects s d0 ∧ head (filter (selects s) c) = Some d0
         ∧ d = apply_update u d0)
  ∧ d ∈ c'
  ∧ length c' = length c.
Proof.
  revert d c'. induction c as [|x c IH]; intros d c'; simpl; [done|].
  case_decide as Hx.
  - intros [= <- <-]. split; [|split; [left|done]].
    exists x. rewrite filter_cons_True by done. repeat split; [left|done].
  - destruct (update_first s u c) as [[d1 c1]|] eqn:E; [|done].
    intros [= <- <-]. destruct (IH _ _ eq_refl) as ((d0 & H1 & H2 & H3 & H4) & H5 & H6).
    split; [|split; [by right|simpl; by rewrite H6]].
    exists d0. rewrite filter_cons_False by done. repeat split; [by right|done..].
Qed.

(** The documents a selector does not match are left as they were. *)
Lemma update_first_others f i u c d c' x :
  update_first (SelFrame f i) u c = Some (d, c') →
  key x ≠ (f, i) → (x ∈ c' ↔ x ∈ c).
Proof.
  revert d c'. induction c as [|y c IH]; intros d c'; simpl; [done|].
  case_decide as Hy.
  - intros [= <- <-] Hx. rewrite !elem_of_cons.
    split; (intros [->|?]; [|by right]).
    + by destruct Hx.
    + by destruct Hx.
  - destruct (update_first _ u c) as [[d1 c1]|] eqn:E; [|done].
    intros [= <- <-] Hx. rewrite !elem_of_cons. by rewrite (IH _ _ eq_refl Hx).
Qed.

Lemma delete_first_others s c x :
  ¬ selects s x → (x ∈ (delete_first s c).2 ↔ x ∈ c).
Proof.
  intros Hx. induction c as [|y c IH]; simpl; [done|].
  case_decide as Hy; simpl.
  - rewrite elem_of_cons. split; [by right|]. by intros [->|?].
  - destruct (delete_first s c) as [r c'']. simpl in *.
    by rewrite !elem_of_cons, IH.
Qed.

Lemma delete_first_length s c :
  length (delete_first s c).2
  = (length c - length (take 1 (filter (selects s) c)))%nat.
Proof.
  induction c as [|y c IH]; simpl; [done|].
  case_decide as Hy; simpl.
  - rewrite filter_cons_True by done. simpl. lia.
  - rewrite filter_cons_False by done.
    destruct (delete_first s c) as [r c'']. simpl in *. rewrite IH.
    destruct (filter (selects s) c) eqn:E; simpl; [lia|].
    assert (length c ≠ 0%nat); [|lia].
    destruct c; [done|simpl; lia].
Qed.

Lemma delete_first_app_absent s c d :
  (∀ x, x ∈ c → ¬ selects s x) → selects s d →
  delete_first s (c ++ [d]) = (Some d, c).
Proof.
  intros Hno Hd. induction c as [|y c IH]; simpl.
  - by rewrite decide_True.
  - rewrite decide_False by (apply Hno; left).
    rewrite IH; [done|]. intros x Hx. apply Hno. by right.
Qed.

(** The record a POST leaves under its key, and what it answers. *)
Lemma saveFrame_stored f n data author w :
  unique_index (drawings w) → store_answers 1 w = true →
  let s := SelFrame (Some f) (Some n) in
  let u := {| u_drawingData := data;
              u_createdBy := or_default author "anonymous";
              u_updatedAt := now w |} in
  let w1 := exec (saveFrame f (Num n) data author) w in
  let d := match head (filter (selects s) (drawings w)) with
           | Some d0 => apply_update u d0
           | None => inserted s u (now w + Z.of_N (hd 0%N (ticks w)))
           end in
  unique_index (drawings w1)
  ∧ filter (selects s) (drawings w1) = [d]
  ∧ responses (since w w1) = [(200, JDrawing d)]
  ∧ length (drawings w1)
    = (length (drawings w)
       + match head (filter (selects s) (drawings w)) with
         | Some _ => 0 | None => 1 end)%nat
  ∧ faults w1 = tl (faults w)
  ∧ now w ≤ now w1.
Proof.
  intros Hu Ha s u w1 d. subst w1. unfold exec.
  rewrite (saveFrame_run _ _ _ _ _ Ha). fold s u.
  pose proof (keeps_findOneAndUpdate_write s u
                (now w + Z.of_N (hd 0%N (ticks w))) _ Hu) as Hk.
  destruct (update_first s u (drawings w)) as [[d1 c1]|] eqn:E.
  - destruct (update_first_Some _ _ _ _ _ E)
      as ((d0 & H1 & H2 & H3 & H4) & H5 & H6).
    subst d d1. rewrite H3. simpl. split; [done|]. split.
    + by apply filter_key_unique.
    + split; [|split; [rewrite H6; lia|split; [done|lia]]].
      unfold since, log, answered, set_drawings. simpl.
      by rewrite <- app_assoc, drop_trace.
  - pose proof (update_first_None _ _ _ E) as Hno.
    subst d. rewrite (filter_absent _ _ Hno). simpl. split; [done|]. split.
    + by rewrite filter_app, (filter_absent _ _ Hno), filter_cons_True.
    + split; [|split; [rewrite length_app; simpl; lia|split; [done|lia]]].
      unfold since, log, answered, set_drawings. simpl.
      by rewrite <- app_assoc, drop_trace.
Qed.

Lemma store_answers_after (w w1 : World) :
  store_answers 2 w = true → faults w1 = tl (faults w) →
  store_answers 1 w = true ∧ store_answers 1 w1 = true.
Proof.
  unfold store_answers. intros Ha ->.
  by destruct (faults w) as [|[] [|[] ?]].
Qed.

Lemma store_answers_first w :
  store_answers 2 w = true → store_answers 1 w = true.
Proof. unfold store_answers. by destruct (faults w) as [|[] [|[] ?]]. Qed.

(** A POST and the GET that follows it agree: the GET answers the record the
    POST answered, stored under the key of the route, with the author (or
    "anonymous") and the clock reading of the POST.  Its [drawingData] is the
    posted one; a POST that carries none leaves the data the frame had, and
    gives a new frame none. *)
Theorem save_then_get (f : string) (n : Z) (data author : option string)
    (w : World) :
  unique_index (drawings w) → store_answers 2 w = true →
  let w1 := exec (saveFrame f (Num n) data author) w in
  let before := head (filter (selects (SelFrame (Some f) (Some n))) (drawings w)) in
  ∃ d, responses (since w w1) = [(200, JDrawing d)]
       ∧ responses (since w1 (exec (getFrame f (Num n)) w1)) = [(200, JDrawing d)]
       ∧ key d = (Some f, Some n)
       ∧ drawingData d = match data with
                         | Some x => Some x
                         | None => before ≫= drawingData
                         end
       ∧ createdBy d = or_default author "anonymous"
       ∧ updatedAt d = now w.
Proof.
  intros Hu Ha w1 before.
  destruct (saveFrame_stored f n data author w Hu) as (Hu1 & Hf & Hr & _ & Hfl & _).
  { by apply store_answers_first. }
  fold w1 before in Hu1, Hf, Hr, Hfl.
  destruct (store_answers_after w w1 Ha Hfl) as [_ Ha1].
  eexists. split; [exact Hr|]. split.
  - unfold exec. rewrite (getFrame_run _ _ _ Ha1), Hf. simpl.
    by rewrite since_answered.
  - destruct before as [d0|] eqn:E; simpl.
    + apply head_Some_elem_of, list_elem_of_filter in E as [E _].
      rewrite apply_update_key. by destruct data.
    + by destruct data.
Qed.

Lemma save_then_get_witness :
  (∃ d, responses (since world_stored
          (exec (saveFrame "cat" (Num 5) (Some "e") None) world_stored))
        = [(200, JDrawing d)]
        ∧ drawingData d = Some "e")
  ∧ (∃ d, responses (since world_stored
            (exec (saveFrame "cat" (Num 0) None None) world_stored))
          = [(200, JDrawing d)]
          ∧ drawingData d = Some "a").
Proof.
  assert (unique_index (drawings world_stored)) as H0.
  { apply (bool_decide_unpack _). vm_compute. exact I. }
  split.
  - destruct (save_then_get "cat" 5 (Some "e") None world_stored H0 eq_refl)
      as (d & Hr & _ & _ & Hd & _).
    exists d. exact (conj Hr Hd).
  - destruct (save_then_get "cat" 0 None None world_stored H0 eq_refl)
      as (d & Hr & _ & _ & Hd & _).
    exists d. exact (conj Hr Hd).
Defined.

(** Last write wins, in place: of two POSTs to the same frame the second
    decides [createdBy] and [updatedAt], and [drawingData] when it carries
    one (the data of the first stays when it carries none); the record keeps
    the [createdAt] it had after the first, and no second record appears. *)
Theorem last_write_wins (f : string) (n : Z)
    (data1 author1 data2 author2 : option string) (w : World) :
  unique_index (drawings w) → store_answers 2 w = true →
  let s := SelFrame (Some f) (Some n) in
  let w1 := exec (saveFrame f (Num n) data1 author1) w in
  let w2 := exec (saveFrame f (Num n) data2 author2) w1 in
  ∃ d1 d2, filter (selects s) (drawings w1) = [d1]
           ∧ filter (selects s) (drawings w2) = [d2]
           ∧ drawingData d2 = match data2 with
                              | Some x => Some x
                              | None => drawingData d1
                              end
           ∧ createdBy d2 = or_default author2 "anonymous"
           ∧ updatedAt d2 = now w1
           ∧ createdAt d2 = createdAt d1
           ∧ length (drawings w2) = length (drawings w1).
Proof.
  intros Hu Ha s w1 w2.
  destruct (saveFrame_stored f n data1 author1 w Hu) as (Hu1 & Hf1 & _ & _ & Hfl & _).
  { by apply store_answers_first. }
  fold w1 s in Hu1, Hf1, Hfl.
  destruct (store_answers_after w w1 Ha Hfl) as [_ Ha1].
  destruct (saveFrame_stored f n data2 author2 w1 Hu1 Ha1) as (_ & Hf2 & _ & Hl & _).
  fold w2 s in Hf2, Hl. rewrite Hf1 in Hf2, Hl. simpl in Hf2, Hl.
  eexists _, _. split; [exact Hf1|]. split; [exact Hf2|].
  repeat split; simpl; lia.
Qed.

Lemma last_write_wins_witness :
  (∃ d2, filter (selects (SelFrame (Some "cat") (Some 0)))
           (drawings (exec (saveFrame "cat" (Num 0) (Some "y") None)
              (exec (saveFrame "cat" (Num 0) (Some "x") (Some "ann"))
                 world_stored))) = [d2]
         ∧ drawingData d2 = Some "y")
  ∧ (∃ d2, filter (selects (SelFrame (Some "cat") (Some 0)))
             (drawings (exec (saveFrame "cat" (Num 0) None None)
                (exec (saveFrame "cat" (Num 0) (Some "x") (Some "ann"))
                   world_stored))) = [d2]
           ∧ drawingData d2 = Some "x").
Proof.
  assert (unique_index (drawings world_stored)) as H0.
  { apply (bool_decide_unpack _). vm_compute. exact I. }
  split.
  - destruct (last_write_wins "cat" 0 (Some "x") (Some "ann") (Some "y") None
                world_stored H0 eq_refl) as (d1 & d2 & H1 & H2 & H3 & _).
    exists d2. exact (conj H2 H3).
  - destruct (last_write_wins "cat" 0 (Some "x") (Some "ann") None None
                world_stored H0 eq_refl) as (d1 & d2 & H1 & H2 & H3 & _).
    exists d2. split; [exact H2|]. rewrite H3.
    revert H1. vm_compute. intros [= <-]. reflexivity.
Defined.

(** A write to one frame, over REST or over the socket, changes no other
    record, whatever the store does: the records with another key are the
    same before and after. *)
Theorem frame_writes_are_local (r : Request) (k : option string * option Z)
    (w : World) (x : Drawing) :
  frame_of r = Some k → key x ≠ k →
  (x ∈ drawings (exec (handle r) w) ↔ x ∈ drawings w).
Proof.
  intros Hk Hx.
  destruct r; simpl in Hk; try done.
  all: try match goal with data : option _ |- _ => destruct data; [|done] end.
  all: unfold handle; unfold_handlers; unfold_store; simpl in *.
  all: repeat (break_match; simplify_eq/=); try done.
  all: try (by eapply update_first_others).
  all: try (rewrite elem_of_app, list_elem_of_singleton;
            split; [intros [? | ->]; [done|by destruct Hx]|by left]).
  all: match goal with
       | H : delete_first ?s ?c = (_, ?c') |- _ =>
           change c' with (snd (@pair (option Drawing) _ None c'));
           rewrite <- (delete_first_others s c x) by done; by rewrite H
       end.
Qed.

Lemma frame_writes_are_local_witness :
  frame "cat" 1 "b" 10
    ∈ drawings (exec (handle (DeleteFrame "cat" (Num 0))) world_stored)
  ↔ frame "cat" 1 "b" 10 ∈ drawings world_stored.
Proof.
  apply (frame_writes_are_local (DeleteFrame "cat" (Num 0))
           (Some "cat", Some 0) world_stored (frame "cat" 1 "b" 10) eq_refl).
  intros H. discriminate H.
Defined.

Lemma deleteFrame_world f n w :
  store_answers 1 w = true →
  let w1 := exec (deleteFrame f (Num n)) w in
  drawings w1 = (delete_first (SelFrame (Some f) (Some n)) (drawings w)).2
  ∧ faults w1 = tl (faults w).
Proof. intros Ha. unfold exec. by rewrite (deleteFrame_run _ _ _ Ha). Qed.

Lemma filter_unique_length f i c :
  unique_index c → (length (filter (selects (SelFrame f i)) c) ≤ 1)%nat.
Proof.
  intros Hu. destruct (filter _ c) as [|d l] eqn:E; [simpl; lia|].
  assert (d ∈ filter (selects (SelFrame f i)) c) as Hd by (rewrite E; left).
  apply list_elem_of_filter in Hd as [Hs Hd].
  rewrite (filter_key_unique f i c d Hu Hd Hs) in E. by simplify_eq.
Qed.

(** After a DELETE the frame is gone: under the unique index the GET that
    follows answers 404, and the collection is shorter by exactly the
    records that had the key (one or none). *)
Theorem delete_then_get (f : string) (n : Z) (w : World) :
  unique_index (drawings w) → store_answers 2 w = true →
  let s := SelFrame (Some f) (Some n) in
  let w1 := exec (deleteFrame f (Num n)) w in
  responses (since w1 (exec (getFrame f (Num n)) w1))
    = [(404, JError "Frame not found")]
  ∧ (length (drawings w1) + length (filter (selects s) (drawings w)))%nat
    = length (drawings w).
Proof.
  intros Hu Ha s w1.
  destruct (deleteFrame_world f n w (store_answers_first _ Ha)) as [Hd Hfl].
  fold w1 s in Hd, Hfl.
  destruct (store_answers_after w w1 Ha Hfl) as [_ Ha1]. split.
  - unfold exec. rewrite (getFrame_run _ _ _ Ha1), Hd.
    rewrite filter_absent by (by apply delete_first_unique).
    simpl. by rewrite since_answered.
  - rewrite Hd, delete_first_length.
    pose proof (filter_unique_length (Some f) (Some n) _ Hu) as Hle.
    pose proof (length_filter (selects s) (drawings w)) as Hle'.
    fold s in Hle |- *. rewrite take_ge by lia. lia.
Qed.

Lemma delete_then_get_witness :
  responses (since (exec (deleteFrame "cat" (Num 0)) world_stored)
     (exec (getFrame "cat" (Num 0))
        (exec (deleteFrame "cat" (Num 0)) world_stored)))
  = [(404, JError "Frame not found")].
Proof.
  assert (unique_index (drawings world_stored)) as H0.
  { apply (bool_decide_unpack _). vm_compute. exact I. }
  exact (proj1 (delete_then_get "cat" 0 world_stored H0 eq_refl)).
Defined.

(** Adding a frame that was not stored and deleting it again gives back the
    collection as it was, record for record and in the same order. *)
Theorem save_then_delete_restores (f : string) (n : Z)
    (data author : option string) (w : World) :
  (∀ d, d ∈ drawings w → key d ≠ (Some f, Some n)) →
  store_answers 2 w = true →
  drawings (exec (deleteFrame f (Num n))
              (exec (saveFrame f (Num n) data author) w))
  = drawings w.
Proof.
  intros Hno' Ha.
  assert (∀ d, d ∈ drawings w → ¬ selects (SelFrame (Some f) (Some n)) d)
    as Hno by exact Hno'.
  set (w1 := exec (saveFrame f (Num n) data author) w).
  assert (store_answers 1 w = true) as Ha0 by (by apply store_answers_first).
  assert (faults w1 = tl (faults w) ∧ ∃ d, drawings w1 = drawings w ++ [d]
          ∧ key d = (Some f, Some n)) as (Hfl & d & Hd & Hk).
  { subst w1. unfold exec. rewrite (saveFrame_run _ _ _ _ _ Ha0).
    rewrite (update_first_absent _ _ _ Hno). simpl. split; [done|].
    by eexists. }
  destruct (store_answers_after w w1 Ha Hfl) as [_ Ha1].
  destruct (deleteFrame_world f n w1 Ha1) as [-> _].
  by rewrite Hd, (delete_first_app_absent _ _ _ Hno Hk).
Qed.

Lemma save_then_delete_restores_witness :
  drawings (exec (deleteFrame "cat" (Num 9))
              (exec (saveFrame "cat" (Num 9) (Some "n") None) world_stored))
  = drawings world_stored.
Proof.
  apply save_then_delete_restores; [|reflexivity].
  intros d Hd. vm_compute in Hd.
  repeat (apply elem_of_cons in Hd as [->|Hd]; [discriminate|]).
  by apply elem_of_nil in Hd.
Defined.

(* ===================================================================== *)
(** * Whole flipbooks: deletion and renaming *)
(* ===================================================================== *)

Lemma listing_length f c :
  length (listing f c) = length (filter (selects (SelFlipbook f)) c).
Proof. unfold listing. by rewrite merge_sort_Permutation. Qed.

Lemma filter_other_flipbook (g f : option string) (c : list Drawing) :
  g ≠ f →
  filter (selects (SelFlipbook g)) (filter (λ d, ¬ selects (SelFlipbook f) d) c)
  = filter (selects (SelFlipbook g)) c.
Proof.
  intros Hne. induction c as [|d c IH]; [done|].
  destruct (decide (selects (SelFlipbook f) d)) as [Hf|Hf].
  - rewrite (filter_cons_False (λ d, ¬ _)) by tauto.
    rewrite (filter_cons_False (selects (SelFlipbook g)) d c); [done|].
    simpl in *. congruence.
  - rewrite (filter_cons_True (λ d, ¬ _)) by done.
    destruct (decide (selects (SelFlipbook g) d)).
    + by rewrite !filter_cons_True, IH.
    + by rewrite !filter_cons_False, IH.
Qed.

Lemma filter_complement_length (P : Drawing → Prop) `{∀ d, Decision (P d)} c :
  (length (filter (λ d, ¬ P d) c) + length (filter P c))%nat = length c.
Proof.
  induction c as [|d c IH]; [done|].
  destruct (decide (P d)).
  - rewrite (filter_cons_True P), (filter_cons_False (λ d, ¬ P d)) by tauto.
    simpl. lia.
  - rewrite (filter_cons_False P), (filter_cons_True (λ d, ¬ P d)) by tauto.
    simpl. lia.
Qed.

Lemma delete_flipbook_run f w :
  store_answers 1 w = true →
  delete_flipbook f w =
  (Ok tt,
   log (deliver_all (members (Some f) w) (FlipbookDeleted f)
        ++ [Respond 200 (JDeleted "Flipbook deleted successfully"
              (length (filter (selects (SelFlipbook (Some f))) (drawings w))))])
     (set_drawings (filter (λ d, ¬ selects (SelFlipbook (Some f)) d) (drawings w))
        (answered OpDeleteMany w))).
Proof.
  intros Ha. unfold delete_flipbook, try_catch, mbind, M_bind.
  rewrite (deleteMany_run (ByFlipbook (Some f)) (SelFlipbook (Some f)) _
             eq_refl Ha).
  unfold_handler. unfold log. simpl. by rewrite <- app_assoc.
Qed.

(** DELETE of a flipbook removes the frames of that flipbook and no other:
    [deletedCount] is the number of frames it had, [flipbook-deleted] reaches
    exactly the sockets of its room, the listing of every other flipbook is
    unchanged, the listing of the deleted one is empty afterwards, and a
    second DELETE answers [deletedCount] 0. *)
Theorem delete_flipbook_removes_all (f : string) (w : World) :
  store_answers 2 w = true →
  let w1 := exec (delete_flipbook f) w in
  (∀ d, d ∈ drawings w1 ↔ d ∈ drawings w ∧ flipbookId d ≠ Some f)
  ∧ responses (since w w1)
    = [(200, JDeleted "Flipbook deleted successfully"
               (length (listing (Some f) (drawings w))))]
  ∧ (length (drawings w1) + length (listing (Some f) (drawings w)))%nat
    = length (drawings w)
  ∧ (∀ r ev, (r, ev) ∈ deliveries (since w w1)
             ↔ r ∈ members (Some f) w ∧ ev = FlipbookDeleted f)
  ∧ (∀ g, g ≠ Some f → listing g (drawings w1) = listing g (drawings w))
  ∧ responses (since w1 (exec (getFrames f) w1)) = [(200, JDrawings [])]
  ∧ responses (since w1 (exec (delete_flipbook f) w1))
    = [(200, JDeleted "Flipbook deleted successfully" 0)].
Proof.
  intros Ha w1.
  assert (store_answers 1 w = true) as Ha0 by (by apply store_answers_first).
  set (c1 := filter (λ d, ¬ selects (SelFlipbook (Some f)) d) (drawings w)).
  set (out := deliver_all (members (Some f) w) (FlipbookDeleted f)
        ++ [Respond 200 (JDeleted "Flipbook deleted successfully"
              (length (filter (selects (SelFlipbook (Some f))) (drawings w))))]).
  assert (w1 = log out (set_drawings c1 (answered OpDeleteMany w))) as Hw1.
  { subst w1. unfold exec. by rewrite (delete_flipbook_run _ _ Ha0). }
  assert (store_answers 1 w1 = true) as Ha1.
  { apply (store_answers_after w w1 Ha). by rewrite Hw1. }
  assert (drawings w1 = c1) as Hc by (by rewrite Hw1).
  assert (filter (selects (SelFlipbook (Some f))) c1 = []) as Hnone.
  { apply filter_absent. intros d Hd.
    by apply list_elem_of_filter in Hd as [Hd _]. }
  assert (since w w1 = Called OpDeleteMany :: out) as Hout.
  { rewrite Hw1. unfold since, log, answered, set_drawings. simpl.
    by rewrite <- app_assoc, drop_trace. }
  split; [|split; [|split; [|split; [|split; [|split]]]]].
  - intros d. rewrite Hc. unfold c1. rewrite list_elem_of_filter. simpl. tauto.
  - rewrite Hout, listing_length. subst out.
    change (responses (?e :: ?l)) with (responses l).
    by rewrite responses_app, responses_deliver_all.
  - rewrite Hc, listing_length. apply filter_complement_length.
  - intros r ev. rewrite Hout. subst out.
    change (deliveries (?e :: ?l)) with (deliveries l).
    rewrite deliveries_app, deliveries_deliver_all. simpl.
    rewrite app_nil_r. apply elem_of_deliver_all.
  - intros g Hg. rewrite Hc. unfold listing, c1.
    by rewrite filter_other_flipbook.
  - rewrite getFrames_responses, Ha1, Hc. unfold listing. by rewrite Hnone.
  - unfold exec. rewrite (delete_flipbook_run _ _ Ha1), Hc, Hnone. simpl.
    unfold since, log, answered, set_drawings. simpl.
    rewrite <- !app_assoc, drop_trace. simpl.
    by rewrite responses_app, responses_deliver_all.
Qed.

Lemma delete_flipbook_removes_all_witness :
  responses (since world_stored (exec (delete_flipbook "cat") world_stored))
  = [(200, JDeleted "Flipbook deleted successfully" 2)].
Proof.
  exact (proj1 (proj2 (delete_flipbook_removes_all "cat" world_stored eq_refl))).
Defined.

(** The count [rewrite_all] answers: the matches whose content changed. *)
Lemma rewrite_all_count s newId acc todo :
  unique_index (acc ++ (renamed s newId <$> todo)) →
  (rewrite_all s newId acc todo).1
  = Ok (length (filter (λ d, selects s d ∧ set_flipbookId newId d ≠ d) todo)).
Proof.
  revert acc. induction todo as [|d rest IH]; intros acc Hu; [done|].
  destruct (rewrite_all_free s newId acc (d :: rest) Hu) as [_ [k Hk]].
  rewrite fmap_cons in Hu. simpl rewrite_all in *.
  destruct (decide (selects s d)) as [Hsel|Hsel].
  - assert (renamed s newId d = set_flipbookId newId d) as Er
      by (unfold renamed; by rewrite decide_True).
    rewrite Er in Hu.
    assert (unique_index ((acc ++ [set_flipbookId newId d])
                          ++ (renamed s newId <$> rest))) as Hu'
      by (by rewrite <- app_assoc).
    specialize (IH _ Hu').
    destruct (decide (key (set_flipbookId newId d) ∈ key <$> acc ++ rest));
      [done|].
    destruct (rewrite_all s newId _ rest) as [[m|e] c]; simpl in *; [|done].
    simplify_eq. f_equal.
    destruct (decide (set_flipbookId newId d = d)) as [Heq|Hne].
    + rewrite filter_cons_False by tauto. done.
    + rewrite filter_cons_True by tauto. done.
  - assert (renamed s newId d = d) as Er
      by (unfold renamed; by rewrite decide_False).
    rewrite Er in Hu.
    assert (unique_index ((acc ++ [d]) ++ (renamed s newId <$> rest))) as Hu'
      by (by rewrite <- app_assoc).
    rewrite (IH _ Hu'). f_equal. rewrite filter_cons_False by tauto. done.
Qed.

(** The world a rename that goes through leaves behind. *)
Lemma put_rename_world old new w :
  unique_index (drawings w) → store_answers 2 w = true →
  is_blank (Some new) = false → ¬ occupied (trim new) (drawings w) →
  let w1 := exec (put_rename old (Some new)) w in
  let s := SelFlipbook (Some old) in
  drawings w1 = renamed s (trim new) <$> drawings w
  ∧ faults w1 = tl (tl (faults w))
  ∧ since w w1
    = [Called OpFindOne; Called OpUpdateMany]
      ++ deliver_all (members (Some old) w) (FlipbookRenamed old (trim new))
      ++ [Respond 200
            (JRenamed "Flipbook renamed successfully" old (trim new)
               (length (filter (λ d, selects s d
                                  ∧ set_flipbookId (trim new) d ≠ d)
                          (drawings w))))].
Proof.
  intros Hu Ha Hb Hfree w1 s. subst w1.
  pose proof (renamed_unique old (trim new) _ Hu Hfree) as Hu'.
  destruct (rewrite_all_free s (trim new) [] (drawings w) Hu') as [Erw _].
  pose proof (rewrite_all_count s (trim new) [] (drawings w) Hu') as Ek.
  unfold exec. rewrite (put_rename_free _ _ _ Hb Ha Hfree).
  fold s. rewrite Ek, Erw. cbn [snd app]. split; [done|]. split; [done|].
  unfold since, log, answered, set_drawings. simpl.
  by rewrite <- !app_assoc, drop_trace.
Qed.

Lemma renamed_other old target g (c : list Drawing) :
  g ≠ Some old → g ≠ Some target →
  filter (selects (SelFlipbook g))
    (renamed (SelFlipbook (Some old)) target <$> c)
  = filter (selects (SelFlipbook g)) c.
Proof.
  intros Ho Ht. induction c as [|d c IH]; [done|]. rewrite fmap_cons.
  unfold renamed at 1. simpl. case_decide as Hsel.
  - rewrite filter_cons_False by (simpl; congruence).
    rewrite (filter_cons_False _ d) by (simpl; congruence). done.
  - destruct (decide (selects (SelFlipbook g) d)).
    + by rewrite !filter_cons_True, IH.
    + by rewrite !filter_cons_False, IH.
Qed.

(** A rename that goes through tells exactly the sockets of the old room,
    with the old and the new name; it moves nobody to the new room; the
    collection keeps its size; the listing of every flipbook other than the
    two is unchanged; and when the two names differ [updatedCount] is the
    number of frames the flipbook had. *)
Theorem rename_effects (old new : string) (w : World) :
  unique_index (drawings w) → store_answers 2 w = true →
  is_blank (Some new) = false → ¬ occupied (trim new) (drawings w) →
  let w1 := exec (put_rename old (Some new)) w in
  (∀ r ev, (r, ev) ∈ deliveries (since w w1)
           ↔ r ∈ members (Some old) w ∧ ev = FlipbookRenamed old (trim new))
  ∧ members (Some (trim new)) w1 = members (Some (trim new)) w
  ∧ length (drawings w1) = length (drawings w)
  ∧ (∀ g, g ≠ Some old → g ≠ Some (trim new) →
       listing g (drawings w1) = listing g (drawings w))
  ∧ (old ≠ trim new →
     responses (since w w1)
     = [(200, JRenamed "Flipbook renamed successfully" old (trim new)
                (length (listing (Some old) (drawings w))))]).
Proof.
  intros Hu Ha Hb Hfree w1.
  destruct (put_rename_world old new w Hu Ha Hb Hfree) as (Hd & _ & Hout).
  fold w1 in Hd, Hout. rewrite Hout.
  split; [|split; [|split; [|split]]].
  - intros r ev. cbn [app].
    change (deliveries (?e1 :: ?e2 :: ?l)) with (deliveries l).
    rewrite deliveries_app, deliveries_deliver_all. simpl.
    rewrite app_nil_r. apply elem_of_deliver_all.
  - unfold members. f_equal. f_equal. subst w1. unfold exec.
    unfold put_rename. unfold_store. simpl.
    repeat break_match; done.
  - by rewrite Hd, length_fmap.
  - intros g Ho Ht. rewrite Hd. unfold listing. by rewrite renamed_other.
  - intros Hne. cbn [app].
    change (responses (?e1 :: ?e2 :: ?l)) with (responses l).
    rewrite responses_app, responses_deliver_all. simpl.
    rewrite listing_length. do 4 f_equal.
    apply list_filter_iff. intros d. simpl. split; [tauto|].
    intros Hsel. split; [done|]. intros Heq.
    apply Hne. rewrite <- Heq in Hsel. simpl in Hsel. congruence.
Qed.

Lemma rename_effects_witness :
  responses (since world_stored
     (exec (put_rename "cat" (Some " dog")) world_stored))
  = [(200, JRenamed "Flipbook renamed successfully" "cat" "dog" 2)].
Proof.
  assert (unique_index (drawings world_stored)) as H0.
  { apply (bool_decide_unpack _). vm_compute. exact I. }
  refine (proj2 (proj2 (proj2 (proj2
    (rename_effects "cat" " dog" world_stored H0 eq_refl eq_refl _)))) _).
  - intros (d & Hd & Hf). vm_compute in Hd.
    repeat (apply elem_of_cons in Hd as [->|Hd]; [discriminate Hf|]).
    by apply elem_of_nil in Hd.
  - vm_compute. intros H. discriminate H.
Defined.

(** Renaming a flipbook to a free name and renaming it back restores the
    collection, record for record and in the same order, when the flipbook's
    own name is one a rename can give: not empty and without white space at
    its ends (the way back goes to the trimmed name). *)
Theorem rename_round_trip (old new : string) (w : World) :
  unique_index (drawings w) → store_answers 4 w = true →
  is_blank (Some old) = false → trim old = old →
  is_blank (Some new) = false → ¬ occupied (trim new) (drawings w) →
  drawings (exec (put_rename (trim new) (Some old))
              (exec (put_rename old (Some new)) w))
  = drawings w.
Proof.
  intros Hu Ha Hbo Hto Hbn Hfree.
  set (w1 := exec (put_rename old (Some new)) w).
  assert (store_answers 2 w = true) as Ha0.
  { revert Ha. unfold store_answers.
    by destruct (faults w) as [|[] [|[] [|[] [|[] ?]]]]. }
  destruct (put_rename_world old new w Hu Ha0 Hbn Hfree) as (Hd & Hfl & _).
  fold w1 in Hd, Hfl.
  assert (store_answers 2 w1 = true) as Ha1.
  { revert Ha. unfold store_answers. rewrite Hfl.
    by destruct (faults w) as [|[] [|[] [|[] [|[] ?]]]]. }
  assert (unique_index (drawings w1)) as Hu1.
  { rewrite Hd. by apply renamed_unique. }
  assert (¬ occupied (trim old) (drawings w1)) as Hfree1.
  { rewrite Hto, Hd. intros (x & Hx & Hf).
    by apply (renamed_not_old _ _ _ _ Hfree Hx). }
  destruct (put_rename_world (trim new) old w1 Hu1 Ha1 Hbo Hfree1) as (-> & _).
  rewrite Hd, Hto, <- list_fmap_compose.
  rewrite <- (list_fmap_id (drawings w)) at 2.
  apply list_fmap_ext. intros i d Hin%list_elem_of_lookup_2. simpl.
  unfold renamed. simpl.
  destruct (decide (flipbookId d = Some old)) as [Hsel|Hsel]; simpl.
  - rewrite decide_True by done. destruct d; simpl in *. by subst.
  - rewrite decide_False; [done|]. intros Hf. apply Hfree. by exists d.
Qed.

Lemma rename_round_trip_witness :
  drawings (exec (put_rename "dog" (Some "cat"))
              (exec (put_rename "cat" (Some "dog ")) world_stored))
  = drawings world_stored.
Proof.
  assert (unique_index (drawings world_stored)) as H0.
  { apply (bool_decide_unpack _). vm_compute. exact I. }
  apply (rename_round_trip "cat" "dog " world_stored H0 eq_refl eq_refl
           eq_refl eq_refl).
  intros (d & Hd & Hf). vm_compute in Hd.
  repeat (apply elem_of_cons in Hd as [->|Hd]; [discriminate Hf|]).
  by apply elem_of_nil in Hd.
Defined.

(** A rename without a usable name (absent, empty or blank) is answered 400
    before the store is asked anything: no store call, no delivery, no
    change to the collection. *)
Theorem rename_blank_is_rejected_first (old : string) (new : option string)
    (w : World) :
  match new with Some s => trim s = "" | None => True end →
  since w (exec (put_rename old new) w)
    = [Respond 400 (JError "New flipbook ID is required")]
  ∧ drawings (exec (put_rename old new) w) = drawings w.
Proof.
  intros Hblank.
  assert (is_blank new = true) as Hb.
  { destruct new as [s|]; [|done]. simpl. rewrite (bool_decide_eq_true_2 _ Hblank).
    by destruct (bool_decide (s = "")). }
  unfold exec. rewrite (put_rename_blank _ _ _ Hb). simpl.
  by rewrite since_app.
Qed.

Lemma rename_blank_is_rejected_first_witness :
  since world_stored
    (exec (put_rename "cat" (Some (" " +:+ utf8 0xA0 +:+ utf8 0x2003)))
       world_stored)
  = [Respond 400 (JError "New flipbook ID is required")].
Proof.
  exact (proj1 (rename_blank_is_rejected_first "cat"
                  (Some (" " +:+ utf8 0xA0 +:+ utf8 0x2003)) world_stored
                  eq_refl)).
Defined.

(* ===================================================================== *)
(** * Rooms and what reaches them *)
(* ===================================================================== *)

Lemma members_after_join socket f room w :
  members room (exec (on_join_flipbook socket f) w)
  = if decide (f = room) then {[socket]} ∪ members f w else members room w.
Proof. apply (members_insert _ _ _ _ _ (on_join_flipbook_rooms socket f w)). Qed.

Lemma members_after_leave socket f room w :
  members room (exec (on_leave_flipbook socket f) w)
  = if decide (f = room) then members f w ∖ {[socket]} else members room w.
Proof.
  unfold on_leave_flipbook, exec, socket_leave, modify, members. simpl.
  destruct (rooms w !! f) as [g|] eqn:E; simpl.
  - destruct (decide (g ∖ {[socket]} = ∅)) as [He|He]; simpl.
    + case_decide as Hr; [subst room|].
      * by rewrite lookup_delete_eq, He.
      * by rewrite lookup_delete_ne.
    + case_decide as Hr; [subst room|].
      * by rewrite lookup_insert_eq.
      * by rewrite lookup_insert_ne.
  - case_decide as Hr; [subst room|done].
    rewrite E. simpl. by rewrite difference_disjoint_L.
Qed.

(** When the store answers, a join delivers exactly one event: the snapshot
    of the flipbook, in ascending order of [frameIndex], to the joining
    socket and to no other; the socket is in the room afterwards, and nobody
    else's membership has changed. *)
Theorem join_sends_snapshot (socket : string) (f : option string) (w : World) :
  store_answers 1 w = true →
  let w1 := exec (on_join_flipbook socket f) w in
  deliveries (since w w1) = [(socket, FlipbookState (listing f (drawings w)))]
  ∧ Sorted index_le (listing f (drawings w))
  ∧ (∀ d, d ∈ listing f (drawings w) ↔ d ∈ drawings w ∧ flipbookId d = f)
  ∧ socket ∈ members f w1
  ∧ (∀ other room, other ≠ socket →
       (other ∈ members room w1 ↔ other ∈ members room w)).
Proof.
  intros Ha w1. split; [|split; [apply listing_sorted|split; [apply listing_elem|]]].
  - subst w1. unfold exec. rewrite on_join_flipbook_run.
    unfold snapshot_of.
    rewrite (find_run (ByFlipbook f) (SelFlipbook f) true
               (exec (socket_join socket f) w) eq_refl Ha).
    unfold since, log, answered, exec, socket_join, modify, set_rooms. simpl.
    by rewrite <- app_assoc, drop_trace.
  - subst w1. split.
    + rewrite members_after_join, decide_True by done.
      by apply elem_of_union_l, elem_of_singleton.
    + intros other room Hne. rewrite members_after_join.
      case_decide as Hr; [subst room|done].
      rewrite elem_of_union, elem_of_singleton. tauto.
Qed.

Lemma join_sends_snapshot_witness :
  deliveries (since world_stored
     (exec (on_join_flipbook "C" (Some "cat")) world_stored))
  = [("C", FlipbookState [frame "cat" 0 "a" 20; frame "cat" 1 "b" 10])].
Proof.
  exact (proj1 (join_sends_snapshot "C" (Some "cat") world_stored eq_refl)).
Defined.

(** Leaving undoes joining: after a join and a leave the socket is out of
    the room, every other socket is where it was, the rooms are as before
    when the socket was not a member to begin with, and a [frame-deleted]
    broadcast to the room no longer reaches the socket. *)
Theorem join_then_leave (socket : string) (f : option string) (w : World) :
  let w2 := exec (on_leave_flipbook socket f)
              (exec (on_join_flipbook socket f) w) in
  (socket ∉ members f w2)
  ∧ (∀ other room, other ≠ socket →
       (other ∈ members room w2 ↔ other ∈ members room w))
  ∧ (socket ∉ members f w → ∀ room, members room w2 = members room w)
  ∧ (∀ other i removed ev,
       let d := {| fd_flipbookId := f; fd_frameIndex := i |} in
       result (delete_of d) w2 = Ok removed →
       (socket, ev)
         ∉ deliveries (since w2 (exec (on_frame_delete other (Some d)) w2))).
Proof.
  intros w2.
  assert (∀ room, members room w2
            = if decide (f = room) then members f w ∖ {[socket]}
              else members room w) as Hm.
  { intros room. subst w2. rewrite members_after_leave.
    destruct (decide (f = room)) as [<-|Hr].
    - rewrite members_after_join, decide_True by done.
      apply set_eq. intros x.
      rewrite !elem_of_difference, elem_of_union, elem_of_singleton. tauto.
    - by rewrite members_after_join, decide_False. }
  assert (socket ∉ members f w2) as Hout.
  { rewrite Hm, decide_True by done.
    rewrite elem_of_difference, elem_of_singleton. tauto. }
  split; [done|]. split; [|split].
  - intros other room Hne. rewrite Hm. case_decide as Hr; [subst room|done].
    rewrite elem_of_difference, elem_of_singleton. tauto.
  - intros Hnot room. rewrite Hm. case_decide as Hr; [subst room|done].
    by apply difference_disjoint_L, disjoint_singleton_r.
  - intros other i removed ev d Hok.
    rewrite (on_frame_delete_since _ _ _ _ Hok).
    change (deliveries (Called OpFindOneAndDelete :: ?l)) with (deliveries l).
    rewrite deliveries_deliver_all, elem_of_deliver_all. tauto.
Qed.

(** ** What a drawing-update stores is what it relays *)

Lemma findOneAndUpdate_frame f n i u w :
  cast_number n = Some i → unique_index (drawings w) →
  store_answers 1 w = true →
  ∃ doc, result (Drawing_findOneAndUpdate (ByFrame f n) u) w = Ok doc
         ∧ filter (selects (SelFrame f i))
             (drawings (exec (Drawing_findOneAndUpdate (ByFrame f n) u) w))
           = [doc]
         ∧ key doc = (f, i)
         ∧ drawingData doc
           = match u_drawingData u with
             | Some x => Some x
             | None => head (filter (selects (SelFrame f i)) (drawings w))
                         ≫= drawingData
             end
         ∧ createdBy doc = u_createdBy u
         ∧ updatedAt doc = u_updatedAt u.
Proof.
  intros Hc Hu Ha. unfold result, exec.
  rewrite (findOneAndUpdate_run (ByFrame f n) (SelFrame f i) u w); [|by simpl; rewrite Hc|done].
  pose proof (keeps_findOneAndUpdate_write (SelFrame f i) u (now w) _ Hu) as Hk.
  destruct (update_first _ u (drawings w)) as [[d1 c1]|] eqn:E.
  - destruct (update_first_Some _ _ _ _ _ E)
      as ((d0 & H1 & H2 & H3 & H4) & H5 & H6). subst d1.
    exists (apply_update u d0). simpl. split; [done|]. split.
    + by apply filter_key_unique.
    + rewrite apply_update_key, H3. simpl. by destruct (u_drawingData u).
  - pose proof (update_first_None _ _ _ E) as Hno.
    eexists. simpl. split; [done|]. split.
    + by rewrite filter_app, (filter_absent _ _ Hno), filter_cons_True.
    + rewrite (filter_absent _ _ Hno). simpl. by destruct (u_drawingData u).
Qed.

(** A drawing-update that is stored leaves one record under its key, with
    the clock reading of the handler as [updatedAt], and as [createdBy] the
    name sent or, when none or an empty one was sent, the id of the sending
    socket.  Its [drawingData] is the one sent; an update that carries none
    leaves the data the frame had, and gives a new frame none.  The
    [drawing-updated] event the others receive carries the payload's
    [drawingData] and the stored [createdBy] and [updatedAt]. *)
Theorem drawing_update_persisted (socket : string) (d : DrawingUpdate)
    (i : option Z) (w : World) :
  cast_number (du_frameIndex d) = Some i →
  unique_index (drawings w) → store_answers 1 w = true →
  let w1 := exec (on_drawing_update socket (Some d)) w in
  let before := head (filter (selects (SelFrame (du_flipbookId d) i))
                        (drawings w)) in
  ∃ doc, filter (selects (SelFrame (du_flipbookId d) i)) (drawings w1) = [doc]
         ∧ drawingData doc = match du_drawingData d with
                             | Some x => Some x
                             | None => before ≫= drawingData
                             end
         ∧ createdBy doc = or_default (du_createdBy d) socket
         ∧ updatedAt doc = now w
         ∧ deliveries (since w w1)
           = ((λ r, (r, DrawingUpdated (du_flipbookId d) (du_frameIndex d)
                          (du_drawingData d) (createdBy doc) (updatedAt doc)))
                <$> elements (members (du_flipbookId d) w ∖ {[socket]}))
             ++ [(socket, DrawingSaved (du_flipbookId d) (du_frameIndex d) true)].
Proof.
  intros Hc Hu Ha w1 before.
  destruct (findOneAndUpdate_frame (du_flipbookId d) (du_frameIndex d) i
              {| u_drawingData := du_drawingData d;
                 u_createdBy := or_default (du_createdBy d) socket;
                 u_updatedAt := now w |} (exec Date_now w) Hc Hu Ha)
    as (doc & Hr & Hf & _ & Hd & Hb & Ht).
  exists doc. subst w1. rewrite on_drawing_update_sent.
  unfold upsert_of. rewrite Hr. split; [|done].
  unfold exec at 1. rewrite on_drawing_update_run. unfold upsert_of.
  unfold result, exec in Hr, Hf.
  destruct (Drawing_findOneAndUpdate _ _ _) as [[doc'|e] w']; simpl in *; [|done].
  done.
Qed.

Lemma drawing_update_persisted_witness :
  (∃ doc, filter (selects (SelFrame (Some "cat") (Some 0)))
            (drawings (exec (on_drawing_update "A"
               (Some {| du_flipbookId := Some "cat";
                        du_frameIndex := Some (Num 0);
                        du_drawingData := Some "X"; du_createdBy := None |}))
               world_cat)) = [doc]
          ∧ createdBy doc = "A")
  ∧ (∃ doc, filter (selects (SelFrame (Some "cat") (Some 0)))
              (drawings (exec (on_drawing_update "A"
                 (Some {| du_flipbookId := Some "cat";
                          du_frameIndex := Some (Num 0);
                          du_drawingData := None; du_createdBy := None |}))
                 world_stored)) = [doc]
            ∧ drawingData doc = Some "a").
Proof.
  split.
  - destruct (drawing_update_persisted "A"
                {| du_flipbookId := Some "cat"; du_frameIndex := Some (Num 0);
                   du_drawingData := Some "X"; du_createdBy := None |}
                (Some 0) world_cat eq_refl (NoDup_nil_2 : unique_index [])
                eq_refl)
      as (doc & Hf & _ & Hb & _).
    exists doc. exact (conj Hf Hb).
  - assert (unique_index (drawings world_stored)) as H0.
    { apply (bool_decide_unpack _). vm_compute. exact I. }
    destruct (drawing_update_persisted "A"
                {| du_flipbookId := Some "cat"; du_frameIndex := Some (Num 0);
                   du_drawingData := None; du_createdBy := None |}
                (Some 0) world_stored eq_refl H0 eq_refl)
      as (doc & Hf & Hd & _).
    exists doc. exact (conj Hf Hd).
Defined.

(** ** A frame-delete that fails *)

Lemma findOneAndDelete_throw q w e :
  result (Drawing_findOneAndDelete q) w = Throw e →
  drawings (exec (Drawing_findOneAndDelete q) w) = drawings w.
Proof.
  unfold result, exec. unfold_store. simpl.
  repeat break_match; simplify_eq/=; done.
Qed.

(** When the store delete of a frame-delete fails, the sender alone is told,
    with one [drawing-error]; no [frame-deleted] goes out and the collection
    is as it was.  An event without payload is answered the same way without
    the store being asked. *)
Theorem frame_delete_failure (socket : string) (d : FrameDelete) (w : World)
    (e : Error) :
  result (delete_of d) w = Throw e →
  deliveries (since w (exec (on_frame_delete socket (Some d)) w))
    = [(socket, DrawingError "Failed to delete frame")]
  ∧ drawings (exec (on_frame_delete socket (Some d)) w) = drawings w
  ∧ since w (exec (on_frame_delete socket None) w)
    = [ConsoleError "Error handling frame deletion:";
       Deliver socket (DrawingError "Failed to delete frame")].
Proof.
  intros Hthrow. pose proof (findOneAndDelete_throw _ _ _ Hthrow) as Hkeep.
  unfold exec at 1 2. rewrite on_frame_delete_run.
  unfold result, exec, delete_of in *.
  destruct (Drawing_findOneAndDelete _ _) as [[r|e'] w'] eqn:E; [done|].
  destruct (store_call_run _ _ _ _ _ (findOneAndDelete_store_call _) E)
    as [Htr _]. simpl in *. split; [|split; [done|]].
  - unfold since, log. simpl. by rewrite Htr, <- app_assoc, drop_trace.
  - unfold on_frame_delete. unfold_handler. unfold since. simpl.
    by rewrite <- app_assoc, drop_trace.
Qed.

Lemma frame_delete_failure_witness :
  deliveries (since world_cat_down
     (exec (on_frame_delete "A" (Some delete_cat_0)) world_cat_down))
  = [("A", DrawingError "Failed to delete frame")].
Proof.
  exact (proj1 (frame_delete_failure "A" delete_cat_0 world_cat_down StoreError
                  eq_refl)).
Defined.

(* ===================================================================== *)
(** * The reporting routes *)
(* ===================================================================== *)

Section distinct.
Context {A : Type} `{EqDecision A}.

Lemma elem_of_distinct (l : list A) x : x ∈ distinct l ↔ x ∈ l.
Proof.
  induction l as [|y l IH]; simpl; [done|].
  rewrite !elem_of_cons, list_elem_of_filter, IH.
  destruct (decide (x = y)); tauto.
Qed.

Lemma NoDup_distinct (l : list A) : NoDup (distinct l).
Proof.
  induction l as [|y l IH]; simpl; [constructor|].
  apply NoDup_cons. split.
  - rewrite list_elem_of_filter. tauto.
  - by apply NoDup_filter.
Qed.
End distinct.

Lemma max_of_spec l m :
  max_of l = Some m → m ∈ l ∧ ∀ x, x ∈ l → x ≤ m.
Proof.
  destruct l as [|x l]; [done|]. simpl. intros [= <-].
  induction l as [|y l IH]; simpl.
  - split; [left|]. intros z ->%list_elem_of_singleton. lia.
  - destruct IH as [Hin Hle]. split.
    + destruct (Z.max_spec y (foldr Z.max x l)) as [[_ ->]|[_ ->]].
      * apply elem_of_cons in Hin as [->|Hin]; [left|by do 2 right].
      * right; left.
    + intros z Hz. apply elem_of_cons in Hz as [->|Hz].
      * specialize (Hle x (list_elem_of_here _ _)). lia.
      * apply elem_of_cons in Hz as [->|Hz]; [lia|].
        specialize (Hle z (list_elem_of_further _ _ _ Hz)). lia.
Qed.

Lemma min_of_spec l m :
  min_of l = Some m → m ∈ l ∧ ∀ x, x ∈ l → m ≤ x.
Proof.
  destruct l as [|x l]; [done|]. simpl. intros [= <-].
  induction l as [|y l IH]; simpl.
  - split; [left|]. intros z ->%list_elem_of_singleton. lia.
  - destruct IH as [Hin Hle]. split.
    + destruct (Z.min_spec y (foldr Z.min x l)) as [[_ ->]|[_ ->]].
      * right; left.
      * apply elem_of_cons in Hin as [->|Hin]; [left|by do 2 right].
    + intros z Hz. apply elem_of_cons in Hz as [->|Hz].
      * specialize (Hle x (list_elem_of_here _ _)). lia.
      * apply elem_of_cons in Hz as [->|Hz]; [lia|].
        specialize (Hle z (list_elem_of_further _ _ _ Hz)). lia.
Qed.

Lemma max_of_is_Some l : l ≠ [] → is_Some (max_of l).
Proof. destruct l; [done|by eexists]. Qed.

Lemma min_of_is_Some l : l ≠ [] → is_Some (min_of l).
Proof. destruct l; [done|by eexists]. Qed.

Lemma getInfo_run f w :
  store_answers 1 w = true →
  getInfo f w =
  (Ok (200, RInfo (info_of f
                     (filter (selects (SelFlipbook (Some f))) (drawings w)))),
   answered OpFind w).
Proof.
  intros Ha. unfold getInfo, try_catch, mbind, M_bind.
  by rewrite (find_run (ByFlipbook (Some f)) (SelFlipbook (Some f)) false _
                eq_refl Ha).
Qed.

Lemma getFlipbooks_run w :
  store_answers 1 w = true →
  ∃ w', getFlipbooks w = (Ok (200, RSummaries (summaries (drawings w))), w')
        ∧ drawings w' = drawings w.
Proof.
  unfold store_answers, getFlipbooks, Drawing_aggregate. unfold_store.
  destruct (faults w) as [|[] fs]; simpl; intros Ha; try done; by eexists.
Qed.

(** GET /info of a flipbook counts the frames GET /frames lists; with no
    frame it reports no dates and no creators; otherwise [lastUpdated] is the
    latest [updatedAt] and [createdAt] the earliest [createdAt] among the
    frames, each attained by a frame; [creators] holds every non-empty
    [createdBy] of the flipbook exactly once. *)
Theorem info_reports_the_flipbook (f : string) (w : World) :
  store_answers 1 w = true →
  ∃ i, result (getInfo f) w = Ok (200, RInfo i)
       ∧ info_flipbookId i = f
       ∧ info_frameCount i = length (listing (Some f) (drawings w))
       ∧ (info_frameCount i = 0%nat →
          info_lastUpdated i = None ∧ info_createdAt i = None
          ∧ info_creators i = [])
       ∧ (∀ d, d ∈ drawings w → flipbookId d = Some f →
            ∃ hi lo, info_lastUpdated i = Some hi ∧ info_createdAt i = Some lo
                     ∧ updatedAt d ≤ hi ∧ lo ≤ createdAt d)
       ∧ (∀ hi, info_lastUpdated i = Some hi →
            ∃ d, d ∈ drawings w ∧ flipbookId d = Some f ∧ updatedAt d = hi)
       ∧ (∀ lo, info_createdAt i = Some lo →
            ∃ d, d ∈ drawings w ∧ flipbookId d = Some f ∧ createdAt d = lo)
       ∧ NoDup (info_creators i)
       ∧ (∀ c, c ∈ info_creators i
               ↔ c ≠ "" ∧ ∃ d, d ∈ drawings w ∧ flipbookId d = Some f
                               ∧ createdBy d = c).
Proof.
  intros Ha. unfold result. rewrite (getInfo_run _ _ Ha). simpl.
  set (g := filter (selects (SelFlipbook (Some f))) (drawings w)).
  assert (∀ d, d ∈ g ↔ d ∈ drawings w ∧ flipbookId d = Some f) as Hg.
  { intros d. unfold g. rewrite list_elem_of_filter. simpl. tauto. }
  eexists. split; [done|]. simpl.
  split; [done|]. split; [by rewrite listing_length|].
  split; [|split; [|split; [|split; [|split]]]].
  - intros H0. apply length_zero_iff_nil in H0. by rewrite H0.
  - intros d Hd Hf. assert (d ∈ g) as Hin by (by apply Hg).
    destruct (max_of_is_Some (updatedAt <$> g)) as [hi Hhi].
    { intros E. apply fmap_nil_inv in E. rewrite E in Hin.
      by apply elem_of_nil in Hin. }
    destruct (min_of_is_Some (createdAt <$> g)) as [lo Hlo].
    { intros E. apply fmap_nil_inv in E. rewrite E in Hin.
      by apply elem_of_nil in Hin. }
    exists hi, lo. split; [done|]. split; [done|].
    destruct (max_of_spec _ _ Hhi) as [_ Hmax].
    destruct (min_of_spec _ _ Hlo) as [_ Hmin].
    split; [apply Hmax|apply Hmin]; by apply list_elem_of_fmap_2.
  - intros hi Hhi. destruct (max_of_spec _ _ Hhi) as [Hin _].
    apply list_elem_of_fmap in Hin as (d & -> & Hd).
    apply Hg in Hd as [? ?]. by exists d.
  - intros lo Hlo. destruct (min_of_spec _ _ Hlo) as [Hin _].
    apply list_elem_of_fmap in Hin as (d & -> & Hd).
    apply Hg in Hd as [? ?]. by exists d.
  - apply NoDup_distinct.
  - intros c. rewrite elem_of_distinct, list_elem_of_filter, list_elem_of_fmap.
    split.
    + intros [Hc (d & -> & Hd)]. split; [done|].
      apply Hg in Hd as [? ?]. by exists d.
    + intros [Hc (d & Hd & Hf & <-)]. split; [done|].
      exists d. split; [done|]. by apply Hg.
Qed.

Lemma info_reports_the_flipbook_witness :
  result (getInfo "cat") world_authors
  = Ok (200, RInfo {| info_flipbookId := "cat"; info_frameCount := 3;
                      info_lastUpdated := Some 40; info_createdAt := Some 10;
                      info_creators := ["ann"] |}).
Proof.
  destruct (info_reports_the_flipbook "cat" world_authors eq_refl)
    as (i & Hr & _).
  rewrite Hr. vm_compute in Hr. injection Hr as <-. reflexivity.
Defined.

Lemma filter_two_length (c : list Drawing) (k : option string)
    (ks : list (option string)) :
  k ∉ ks →
  length (filter (λ d, flipbookId d ∈ k :: ks) c)
  = (length (filter (selects (SelFlipbook k)) c)
     + length (filter (λ d, flipbookId d ∈ ks) c))%nat.
Proof.
  intros Hk. induction c as [|d c IH]; [done|].
  destruct (decide (flipbookId d = k)) as [Hd|Hd].
  - rewrite (filter_cons_True (selects _)) by done.
    rewrite (filter_cons_True (λ d, _ ∈ k :: ks)) by (rewrite Hd; left).
    rewrite (filter_cons_False (λ d, _ ∈ ks)) by (by rewrite Hd).
    simpl. lia.
  - rewrite (filter_cons_False (selects _)) by done.
    destruct (decide (flipbookId d ∈ ks)) as [Hin|Hin].
    + rewrite (filter_cons_True (λ d, _ ∈ k :: ks)) by (by right).
      rewrite (filter_cons_True (λ d, _ ∈ ks)) by done. simpl. lia.
    + rewrite (filter_cons_False (λ d, _ ∈ k :: ks)).
      * by rewrite (filter_cons_False (λ d, _ ∈ ks)).
      * rewrite elem_of_cons. tauto.
Qed.

(** The frame counts of distinct groups add up to the documents the groups
    cover. *)
Lemma group_counts (c : list Drawing) (ks : list (option string)) :
  NoDup ks →
  sum_list (sum_frameCount <$> (summary_of c <$> ks))
  = length (filter (λ d, flipbookId d ∈ ks) c).
Proof.
  induction 1 as [|k ks Hk Hks IH].
  - simpl. induction c as [|d c IHc]; [done|].
    rewrite filter_cons_False; [done|]. apply not_elem_of_nil.
  - rewrite !fmap_cons, filter_two_length by done.
    change (sum_list (?x :: ?l)) with (x + sum_list l)%nat.
    by rewrite IH.
Qed.

Lemma filter_all (P : Drawing → Prop) `{∀ d, Decision (P d)} (c : list Drawing) :
  (∀ d, d ∈ c → P d) → filter P c = c.
Proof.
  induction c as [|d c IH]; intros Hall; [done|].
  rewrite filter_cons_True by (apply Hall; left).
  f_equal. apply IH. intros x Hx. apply Hall. by right.
Qed.

Lemma summaries_elem c s :
  s ∈ summaries c
  ↔ ∃ d, d ∈ c ∧ s = summary_of c (flipbookId d).
Proof.
  unfold summaries. rewrite merge_sort_Permutation, list_elem_of_fmap.
  split.
  - intros (f & -> & Hf). apply elem_of_distinct, list_elem_of_fmap in Hf
      as (d & -> & Hd). by exists d.
  - intros (d & Hd & ->). exists (flipbookId d). split; [done|].
    by apply elem_of_distinct, list_elem_of_fmap_2.
Qed.

(** GET /api/flipbooks lists every flipbook that has a frame, and only
    those, each once, most recently updated first; each entry counts the
    frames GET /frames lists for it, at least one, and the counts add up to
    the size of the collection. *)
Theorem flipbooks_lists_each_flipbook_once (w : World) :
  store_answers 1 w = true →
  ∃ l, result getFlipbooks w = Ok (200, RSummaries l)
       ∧ NoDup (sum_flipbookId <$> l)
       ∧ (∀ f, f ∈ sum_flipbookId <$> l
               ↔ ∃ d, d ∈ drawings w ∧ flipbookId d = f)
       ∧ Sorted later_first l
       ∧ sum_list (sum_frameCount <$> l) = length (drawings w)
       ∧ (∀ s, s ∈ l →
            sum_frameCount s
            = length (listing (sum_flipbookId s) (drawings w))
            ∧ (0 < sum_frameCount s)%nat).
Proof.
  intros Ha. destruct (getFlipbooks_run w Ha) as (w' & Hrun & _).
  unfold result. rewrite Hrun. simpl. eexists. split; [done|].
  set (c := drawings w).
  assert (sum_flipbookId <$> summaries c ≡ₚ distinct (flipbookId <$> c)) as Hids.
  { unfold summaries. rewrite merge_sort_Permutation, <- list_fmap_compose.
    rewrite <- (list_fmap_id (distinct _)) at 2.
    by rewrite (list_fmap_ext (sum_flipbookId ∘ summary_of c) id). }
  split; [|split; [|split; [|split]]].
  - rewrite Hids. apply NoDup_distinct.
  - intros f. rewrite Hids, elem_of_distinct, list_elem_of_fmap.
    split; intros (d & ? & ?); by exists d.
  - apply Sorted_merge_sort; apply _.
  - unfold summaries. rewrite merge_sort_Permutation.
    rewrite group_counts by apply NoDup_distinct. f_equal.
    apply filter_all. intros d Hd.
    by apply elem_of_distinct, list_elem_of_fmap_2.
  - intros s (d & Hd & ->)%summaries_elem. simpl.
    rewrite listing_length. split; [done|].
    assert (d ∈ filter (selects (SelFlipbook (flipbookId d))) c) as Hin
      by (by apply list_elem_of_filter).
    destruct (filter _ c); [by apply elem_of_nil in Hin|simpl; lia].
Qed.

Lemma flipbooks_lists_each_flipbook_once_witness :
  ∃ l, result getFlipbooks world_authors = Ok (200, RSummaries l)
       ∧ sum_list (sum_frameCount <$> l) = 4%nat.
Proof.
  destruct (flipbooks_lists_each_flipbook_once world_authors eq_refl)
    as (l & Hr & _ & _ & _ & Hsum & _).
  exists l. exact (conj Hr Hsum).
Defined.

(** The two reports agree: the entry GET /api/flipbooks has for a flipbook
    carries the frame count, the [lastUpdated] and the [createdAt] that GET
    /info answers for that flipbook in the same state. *)
Theorem flipbooks_agrees_with_info (f : string) (s : Summary)
    (l : list Summary) (w : World) :
  store_answers 1 w = true →
  result getFlipbooks w = Ok (200, RSummaries l) →
  s ∈ l → sum_flipbookId s = Some f →
  ∃ i, result (getInfo f) w = Ok (200, RInfo i)
       ∧ info_frameCount i = sum_frameCount s
       ∧ info_lastUpdated i = Some (sum_lastUpdated s)
       ∧ info_createdAt i = Some (sum_createdAt s).
Proof.
  intros Ha Hl Hs Hf. destruct (getFlipbooks_run w Ha) as (w' & Hrun & _).
  unfold result in *. rewrite Hrun in Hl. simpl in Hl. simplify_eq.
  apply summaries_elem in Hs as (d & Hd & ->). simpl in Hf.
  rewrite (getInfo_run _ _ Ha). simpl. eexists. split; [done|]. simpl.
  rewrite Hf.
  set (g := filter (selects (SelFlipbook (Some f))) (drawings w)).
  assert (d ∈ g) as Hin by (by apply list_elem_of_filter).
  split; [done|].
  destruct (max_of_is_Some (updatedAt <$> g)) as [hi ->].
  { intros E. apply fmap_nil_inv in E. rewrite E in Hin.
    by apply elem_of_nil in Hin. }
  destruct (min_of_is_Some (createdAt <$> g)) as [lo ->].
  { intros E. apply fmap_nil_inv in E. rewrite E in Hin.
    by apply elem_of_nil in Hin. }
  done.
Qed.

Lemma flipbooks_agrees_with_info_witness :
  ∃ i, result (getInfo "owl") world_authors = Ok (200, RInfo i)
       ∧ info_frameCount i = 1%nat
       ∧ info_lastUpdated i = Some 50
       ∧ info_createdAt i = Some 5.
Proof.
  refine (flipbooks_agrees_with_info "owl"
            {| sum_flipbookId := Some "owl"; sum_frameCount := 1;
               sum_lastUpdated := 50; sum_createdAt := 5 |}
            _ world_authors eq_refl eq_refl _ eq_refl).
  vm_compute. left.
Defined.

(** A deleted flipbook is no longer listed, and the entries of the other
    flipbooks are what they were: a flipbook exists as long as it has a
    frame. *)
Theorem deleted_flipbook_is_not_listed (f : string) (w : World) :
  store_answers 2 w = true →
  let w1 := exec (delete_flipbook f) w in
  ∃ l, result getFlipbooks w1 = Ok (200, RSummaries l)
       ∧ (Some f ∉ sum_flipbookId <$> l)
       ∧ (∀ s, sum_flipbookId s ≠ Some f →
            (s ∈ l ↔ s ∈ summaries (drawings w))).
Proof.
  intros Ha w1.
  assert (store_answers 1 w = true) as Ha0 by (by apply store_answers_first).
  assert (drawings w1
          = filter (λ d, ¬ selects (SelFlipbook (Some f)) d) (drawings w)
          ∧ faults w1 = tl (faults w)) as [Hc Hfl].
  { subst w1. unfold exec. by rewrite (delete_flipbook_run _ _ Ha0). }
  destruct (store_answers_after w w1 Ha Hfl) as [_ Ha1].
  destruct (getFlipbooks_run w1 Ha1) as (w' & Hrun & _).
  unfold result. rewrite Hrun. simpl. eexists. split; [done|].
  assert (∀ g, g ≠ Some f →
            summary_of (drawings w1) g = summary_of (drawings w) g) as Hsame.
  { intros g Hg. unfold summary_of. rewrite Hc.
    by rewrite filter_other_flipbook. }
  split.
  - intros (s & Hf & (d & Hd & ->)%summaries_elem)%list_elem_of_fmap.
    simpl in Hf. rewrite Hc in Hd.
    apply list_elem_of_filter in Hd as [Hd _]. simpl in Hd. congruence.
  - intros s Hs. rewrite !summaries_elem. split.
    + intros (d & Hd & ->). simpl in Hs. rewrite Hsame by done.
      exists d. split; [|done]. rewrite Hc in Hd.
      by apply list_elem_of_filter in Hd as [_ Hd].
    + intros (d & Hd & ->). simpl in Hs. rewrite <- Hsame by done.
      exists d. split; [|done]. rewrite Hc.
      apply list_elem_of_filter. by split; [simpl; congruence|].
Qed.

Lemma deleted_flipbook_is_not_listed_witness :
  ∃ l, result getFlipbooks (exec (delete_flipbook "cat") world_authors)
       = Ok (200, RSummaries l)
       ∧ Some "cat" ∉ sum_flipbookId <$> l.
Proof.
  destruct (deleted_flipbook_is_not_listed "cat" world_authors eq_refl)
    as (l & Hr & Hn & _).
  exists l. exact (conj Hr Hn).
Defined.

(** The two reporting routes always answer, 200 or 500, and 500 when the
    store is down; they let no exception out and change neither the
    collection nor the rooms. *)
Theorem reports_only_read (f : string) (w : World) :
  (∃ r, result (getInfo f) w = Ok r
        ∧ r.1 = (if store_answers 1 w then 200 else 500))
  ∧ (∃ r, result getFlipbooks w = Ok r
          ∧ r.1 = (if store_answers 1 w then 200 else 500))
  ∧ drawings (exec (getInfo f) w) = drawings w
  ∧ drawings (exec getFlipbooks w) = drawings w
  ∧ rooms (exec (getInfo f) w) = rooms w
  ∧ rooms (exec getFlipbooks w) = rooms w.
Proof.
  unfold result, exec, getInfo, getFlipbooks, Drawing_aggregate, store_answers.
  unfold_store. simpl.
  destruct (faults w) as [|[] fs]; simpl; repeat split; by eexists.
Qed.

Lemma join_then_leave_witness :
  members (Some "cat")
    (exec (on_leave_flipbook "C" (Some "cat"))
       (exec (on_join_flipbook "C" (Some "cat")) world_cat))
  = members (Some "cat") world_cat.
Proof.
  refine (proj1 (proj2 (proj2 (join_then_leave "C" (Some "cat") world_cat)))
            _ (Some "cat")).
  vm_compute. intros H. discriminate H.
Defined.

(* ===================================================================== *)
(** * The client's copy of the flipbook *)
(* ===================================================================== *)

Lemma insert_sorted_Permutation x l : Client.insert_sorted x l ≡ₚ x :: l.
Proof.
  induction l as [|y l IH]; simpl; [done|].
  case_decide; [done|]. rewrite IH. apply Permutation_swap.
Qed.

Lemma sort_frames_Permutation l : Client.sort_frames l ≡ₚ l.
Proof.
  induction l as [|x l IH]; simpl; [done|].
  by rewrite insert_sorted_Permutation, IH.
Qed.

(** With pairwise distinct indices, [find] returns the one frame that has
    the index. *)
Lemma find_index_unique (l : list Client.Frame) d :
  NoDup (Client.frameIndex <$> l) → d ∈ l →
  Client.find_index l (Client.frameIndex d) = Some d.
Proof.
  unfold Client.find_index. induction l as [|x l IH]; intros Hnd Hd.
  { by apply elem_of_nil in Hd. }
  rewrite fmap_cons in Hnd. apply NoDup_cons in Hnd as [Hx Hnd].
  apply elem_of_cons in Hd as [<-|Hd].
  - by rewrite filter_cons_True.
  - rewrite filter_cons_False; [by apply IH|].
    intros Heq. apply Hx. rewrite Heq. by apply list_elem_of_fmap_2.
Qed.

Lemma find_index_Some l i d :
  Client.find_index l i = Some d → d ∈ l ∧ Client.frameIndex d = i.
Proof.
  unfold Client.find_index. intros Hd%head_Some_elem_of.
  by apply list_elem_of_filter in Hd as [? ?].
Qed.

Lemma find_index_None l i :
  Client.find_index l i = None → ∀ d, d ∈ l → Client.frameIndex d ≠ i.
Proof.
  unfold Client.find_index. intros Hnone d Hd Hi.
  assert (d ∈ filter (λ d, Client.frameIndex d = i) l) as Hin
    by (by apply list_elem_of_filter).
  destruct (filter _ l); [by apply elem_of_nil in Hin|done].
Qed.

(** What [on_flipbook_state] leaves in [frames]. *)
Lemma on_flipbook_state_frames (truthy : string → bool)
    (drawings : list Client.Frame) (st : Client.State) :
  let st' := Client.on_flipbook_state truthy drawings st in
  Client.dense (Client.frames st')
  ∧ (Client.currentFlipbookId st ≠ "" → Client.frames st' ≠ [])
  ∧ (∀ i f, Client.frames st' !! i = Some f →
       (∀ d, d ∈ drawings → Client.frameIndex d ≠ Z.of_nat i) →
       f = Client.placeholder (Client.currentFlipbookId st) (Z.of_nat i))
  ∧ (NoDup (Client.frameIndex <$> drawings) →
     ∀ d, d ∈ drawings → 0 ≤ Client.frameIndex d →
       Client.frames st' !! Z.to_nat (Client.frameIndex d)
       = Some (Client.mapped truthy d))
  ∧ Client.currentFlipbookId st' = Client.currentFlipbookId st
  ∧ Client.currentFrameIndex st' = Client.currentFrameIndex st.
Proof.
  intros st'. subst st'. unfold Client.on_flipbook_state. simpl.
  set (sorted := Client.sort_frames (Client.mapped truthy <$> drawings)).
  set (cid := Client.currentFlipbookId st).
  set (fill := λ i, default (Client.placeholder cid i)
                      (Client.find_index sorted i)).
  assert (∀ d, d ∈ sorted ↔ d ∈ Client.mapped truthy <$> drawings) as Hperm.
  { intros d. unfold sorted. by rewrite sort_frames_Permutation. }
  assert (∀ i, Client.frameIndex (fill i) = i) as Hfill.
  { intros i. unfold fill.
    destruct (Client.find_index sorted i) as [d|] eqn:E; simpl; [|done].
    by apply find_index_Some in E as [_ ?]. }
  assert (∀ m i f, (fill <$> seqZ 0 m) !! i = Some f →
            f = fill (Z.of_nat i) ∧ Z.of_nat i < m) as Hlook.
  { intros m i f. rewrite list_lookup_fmap.
    destruct (seqZ 0 m !! i) as [z|] eqn:E; simpl; [|done].
    apply lookup_seqZ in E as [-> ?]. intros [= <-]. split; [f_equal; lia|done]. }
  split; [|split; [|split; [|split]]]; [| | | |done].
  - intros i f. case_decide as Hd.
    + destruct i; simpl; [|done]. by intros [= <-].
    + destruct (max_of _) as [m|]; [|done].
      intros Hf. apply Hlook in Hf as [-> _]. apply Hfill.
  - intros Hcid. case_decide as Hd; [done|]. intros E. apply Hd. by split.
  - intros i f Hf Hno. case_decide as Hd.
    + destruct i; simpl in Hf; [|done]. by injection Hf as <-.
    + destruct (max_of _) as [m|]; [|done].
      apply Hlook in Hf as [-> _]. unfold fill.
      destruct (Client.find_index sorted (Z.of_nat i)) as [d|] eqn:E; [|done].
      apply find_index_Some in E as [Hin Hi].
      apply Hperm, list_elem_of_fmap in Hin as (d0 & -> & Hd0).
      by destruct (Hno d0 Hd0).
  - intros Hnd d Hd Hpos.
    assert (Client.mapped truthy d ∈ sorted) as Hin
      by (by apply Hperm, list_elem_of_fmap_2).
    assert (NoDup (Client.frameIndex <$> sorted)) as Hnd'.
    { unfold sorted. rewrite sort_frames_Permutation, <- list_fmap_compose.
      by rewrite (list_fmap_ext (Client.frameIndex ∘ Client.mapped truthy)
                    Client.frameIndex drawings). }
    destruct (max_of (Client.frameIndex <$> sorted)) as [m|] eqn:Em.
    2:{ destruct sorted; [by apply elem_of_nil in Hin|done]. }
    destruct (max_of_spec _ _ Em) as [_ Hmax].
    assert (Client.frameIndex d ≤ m) as Hle.
    { apply (Hmax (Client.frameIndex (Client.mapped truthy d))).
      by apply list_elem_of_fmap_2. }
    assert ((fill <$> seqZ 0 (m + 1)) !! Z.to_nat (Client.frameIndex d)
            = Some (Client.mapped truthy d)) as Hget.
    { rewrite list_lookup_fmap, lookup_seqZ_lt by lia. simpl. f_equal.
      unfold fill. rewrite Z.add_0_l, Z2Nat.id by done.
      change (Client.frameIndex d)
        with (Client.frameIndex (Client.mapped truthy d)).
      by rewrite find_index_unique. }
    case_decide as Hdec; [|done].
    destruct Hdec as [E _]. rewrite E in Hget. done.
Qed.


(** The frames a snapshot leaves in the client are numbered 0, 1, 2, ...
    without a gap; a client that is in a flipbook has at least one frame; a
    position no document of the snapshot claims holds an empty placeholder;
    and when the documents have pairwise distinct indices, each one with a
    non-negative index sits at its index. *)
Theorem snapshot_fills_the_gaps (truthy : string → bool)
    (drawings : list Client.Frame) (st : Client.State) :
  let st' := Client.on_flipbook_state truthy drawings st in
  Client.dense (Client.frames st')
  ∧ (Client.currentFlipbookId st ≠ "" → Client.frames st' ≠ [])
  ∧ (∀ i f, Client.frames st' !! i = Some f →
       (∀ d, d ∈ drawings → Client.frameIndex d ≠ Z.of_nat i) →
       f = Client.placeholder (Client.currentFlipbookId st) (Z.of_nat i))
  ∧ (NoDup (Client.frameIndex <$> drawings) →
     ∀ d, d ∈ drawings → 0 ≤ Client.frameIndex d →
       Client.frames st' !! Z.to_nat (Client.frameIndex d)
       = Some (Client.mapped truthy d))
  ∧ Client.currentFlipbookId st' = Client.currentFlipbookId st
  ∧ Client.currentFrameIndex st' = Client.currentFrameIndex st.
Proof. apply on_flipbook_state_frames. Qed.

Lemma snapshot_fills_the_gaps_witness :
  Client.frames
    (Client.on_flipbook_state (λ _, true) [Client.mkFrame "cat" 2 (Some "c")]
       client_three)
    !! 2%nat
  = Some (Client.mkFrame "cat" 2 (Some "c")).
Proof.
  refine (proj1 (proj2 (proj2 (proj2
    (snapshot_fills_the_gaps (λ _, true) [Client.mkFrame "cat" 2 (Some "c")]
       client_three)))) _ (Client.mkFrame "cat" 2 (Some "c")) _ _).
  - apply NoDup_singleton.
  - left.
  - simpl. lia.
Defined.

(** A [frame-deleted] for another flipbook changes nothing.  For the current
    flipbook it drops the frames that carry the index and no other, without
    renumbering or reordering the rest; the current position stays where it
    was when it is still inside the list, and otherwise falls back to the
    last frame, or to 0 when none is left. *)
Theorem frame_deleted_on_client (flipbook : string) (index : Z)
    (st : Client.State) :
  let st' := Client.on_frame_deleted flipbook index st in
  let left := Z.of_nat (length (Client.frames st')) in
  (flipbook ≠ Client.currentFlipbookId st → st' = st)
  ∧ (flipbook = Client.currentFlipbookId st →
     (∀ f, f ∈ Client.frames st'
           ↔ f ∈ Client.frames st ∧ Client.frameIndex f ≠ index)
     ∧ Client.frames st' `sublist_of` Client.frames st
     ∧ (Client.currentFrameIndex st < left →
        Client.currentFrameIndex st' = Client.currentFrameIndex st)
     ∧ (left ≤ Client.currentFrameIndex st →
        Client.currentFrameIndex st' = Z.max 0 (left - 1))
     ∧ (0 ≤ Client.currentFrameIndex st →
        0 ≤ Client.currentFrameIndex st' ≤ Client.currentFrameIndex st
        ∧ (Client.frames st' ≠ [] → Client.currentFrameIndex st' < left)
        ∧ (Client.frames st' = [] → Client.currentFrameIndex st' = 0))).
Proof.
  intros st' left. subst st' left. unfold Client.on_frame_deleted. split.
  - intros Hne. by rewrite decide_False.
  - intros Heq. rewrite decide_True by done. simpl.
    set (kept := filter _ (Client.frames st)). split; [|split].
    + intros f. unfold kept. rewrite list_elem_of_filter. tauto.
    + apply sublist_filter.
    + case_decide as Hout.
      * split; [lia|]. split; [done|]. intros Hpos.
        split; [lia|]. split.
        -- intros Hne. destruct kept; [done|]. simpl length in *. lia.
        -- intros ->. done.
      * split; [done|]. split; [lia|]. intros Hpos.
        split; [lia|]. split; [lia|]. intros E. rewrite E in Hout.
        simpl in Hout. lia.
Qed.

Lemma frame_deleted_on_client_witness :
  Client.on_frame_deleted "dog" 1 client_three = client_three
  ∧ Client.currentFrameIndex (Client.on_frame_deleted "cat" 2 client_three) = 1
  ∧ Client.currentFrameIndex
      (Client.on_frame_deleted "cat" 0
         (Client.on_frame_deleted "cat" 2 client_three)) = 0.
Proof.
  split; [|split].
  - refine (proj1 (frame_deleted_on_client "dog" 1 client_three) _).
    intros H. discriminate H.
  - refine (proj1 (proj2 (proj2 (proj2
      (frame_deleted_on_client "cat" 2 client_three) eq_refl))) _).
    vm_compute. reflexivity.
  - refine (proj1 (proj2 (proj2 (proj2 (proj2
      (frame_deleted_on_client "cat" 0
         (Client.on_frame_deleted "cat" 2 client_three)) eq_refl)))) _).
    vm_compute. intros H. discriminate H.
Defined.

Lemma remove_at_length {A} (k : Z) (l : list A) :
  0 ≤ k < Z.of_nat (length l) →
  length (Client.remove_at k l) = pred (length l).
Proof.
  intros Hk. unfold Client.remove_at. rewrite decide_True by lia.
  rewrite length_delete; [lia|]. apply lookup_lt_is_Some. lia.
Qed.

(** A client never asks for the deletion of its only frame; and once the
    DELETE of a position has completed, the frames left are renumbered 0, 1,
    2, ... with their drawings in the order they had, one fewer when the
    position was in the list, and a current position that was inside the
    list is inside the shorter list. *)
Theorem delete_frame_on_client (position : Z) (confirmed : bool)
    (st : Client.State) :
  let st' := Client.deleteFrame_then position st in
  ((length (Client.frames st) ≤ 1)%nat →
   Client.deleteFrame position confirmed st = Ok None)
  ∧ Client.dense (Client.frames st')
  ∧ Client.drawingData <$> Client.frames st'
    = Client.remove_at position (Client.drawingData <$> Client.frames st)
  ∧ (0 ≤ position < Z.of_nat (length (Client.frames st)) →
     length (Client.frames st') = pred (length (Client.frames st))
     ∧ (0 ≤ Client.currentFrameIndex st < Z.of_nat (length (Client.frames st)) →
        (2 ≤ length (Client.frames st))%nat →
        0 ≤ Client.currentFrameIndex st'
        < Z.of_nat (length (Client.frames st')))).
Proof.
  intros st'. subst st'. unfold Client.deleteFrame_then, Client.deleteFrame.
  simpl. split; [|split; [|split]].
  - intros Hle. by rewrite decide_True.
  - intros i f. rewrite list_lookup_imap.
    destruct (_ !! i) as [g|]; simpl; [|done]. by intros [= <-].
  - rewrite fmap_imap.
    rewrite (imap_ext _ (const Client.drawingData)) by done.
    rewrite imap_const. unfold Client.remove_at.
    case_decide; [|done]. apply list_fmap_delete.
  - intros Hk. rewrite length_imap, remove_at_length by done.
    split; [done|]. intros Hcur Hlen.
    repeat case_decide; lia.
Qed.

Lemma delete_frame_on_client_witness :
  Client.deleteFrame 0 true
    {| Client.currentFlipbookId := "cat"; Client.currentFrameIndex := 0;
       Client.frames := [Client.mkFrame "cat" 0 None] |}
  = Ok None.
Proof.
  refine (proj1 (delete_frame_on_client 0 true _) _). simpl. lia.
Defined.

Lemma filter_all_frames (P : Client.Frame → Prop) `{∀ f, Decision (P f)}
    (l : list Client.Frame) :
  (∀ f, f ∈ l → P f) → filter P l = l.
Proof.
  induction l as [|x l IH]; intros Hall; [done|].
  rewrite filter_cons_True by (apply Hall; left).
  f_equal. apply IH. intros f Hf. apply Hall. by right.
Qed.

Lemma filter_dense_from (o : Z) (k : nat) (l : list Client.Frame) :
  (∀ i f, l !! i = Some f → Client.frameIndex f = o + Z.of_nat i) →
  filter (λ f, Client.frameIndex f ≠ o + Z.of_nat k) l = delete k l.
Proof.
  revert o k. induction l as [|x l IH]; intros o k Hd; [done|].
  assert (Client.frameIndex x = o) as Hx.
  { rewrite (Hd 0%nat x eq_refl). lia. }
  assert (∀ i f, l !! i = Some f → Client.frameIndex f = (o + 1) + Z.of_nat i)
    as Hd'.
  { intros i f Hf. rewrite (Hd (S i) f Hf). lia. }
  destruct k as [|k].
  - rewrite filter_cons_False by (rewrite Hx; lia). simpl.
    apply filter_all_frames. intros f Hf.
    apply list_elem_of_lookup in Hf as [i Hi]. rewrite (Hd' i f Hi). lia.
  - rewrite filter_cons_True by (rewrite Hx; lia). simpl. f_equal.
    replace (o + Z.of_nat (S k)) with ((o + 1) + Z.of_nat k) by lia.
    by apply IH.
Qed.

Lemma filter_dense (k : Z) (l : list Client.Frame) :
  Client.dense l → 0 ≤ k →
  filter (λ f, Client.frameIndex f ≠ k) l = Client.remove_at k l.
Proof.
  intros Hd Hk. unfold Client.remove_at. rewrite decide_True by done.
  rewrite <- (filter_dense_from 0 (Z.to_nat k) l).
  - by rewrite Z.add_0_l, Z2Nat.id.
  - intros i f Hf. rewrite (Hd i f Hf). lia.
Qed.

Lemma deleteFrame_then_dense k st :
  Client.dense (Client.frames (Client.deleteFrame_then k st)).
Proof.
  intros i f. simpl. rewrite list_lookup_imap.
  destruct (_ !! i) as [g|]; simpl; [|done]. by intros [= <-].
Qed.

Lemma deleteFrame_then_data k st :
  Client.drawingData <$> Client.frames (Client.deleteFrame_then k st)
  = Client.remove_at k (Client.drawingData <$> Client.frames st).
Proof.
  simpl. rewrite fmap_imap.
  rewrite (imap_ext _ (const Client.drawingData)) by done.
  rewrite imap_const. unfold Client.remove_at.
  case_decide; [|done]. apply list_fmap_delete.
Qed.

Lemma remove_at_fmap {A B} (g : A → B) k (l : list A) :
  g <$> Client.remove_at k l = Client.remove_at k (g <$> l).
Proof.
  unfold Client.remove_at. case_decide; [|done]. apply list_fmap_delete.
Qed.

(** The client that deletes a frame applies the deletion twice.  It asks the
    server to delete the index of the frame; the server relays
    [frame-deleted] to the whole room, the sender included; and the client
    removes the position again when its own DELETE completes.  From a list
    numbered 0, 1, 2, ... with a frame after the deleted one, both orders of
    the two steps end with two drawings gone: the deleted one and the one
    that followed it. *)
Theorem own_deletion_is_applied_twice (k : Z) (st : Client.State) :
  Client.dense (Client.frames st) →
  0 ≤ k → k + 1 < Z.of_nat (length (Client.frames st)) →
  let flipbook := Client.currentFlipbookId st in
  let data := Client.drawingData <$> Client.frames st in
  let relay_first :=
    Client.deleteFrame_then k (Client.on_frame_deleted flipbook k st) in
  let completion_first :=
    Client.on_frame_deleted flipbook k (Client.deleteFrame_then k st) in
  Client.deleteFrame k true st = Ok (Some k)
  ∧ Client.drawingData <$> Client.frames relay_first
    = Client.remove_at k (Client.remove_at k data)
  ∧ Client.drawingData <$> Client.frames completion_first
    = Client.remove_at k (Client.remove_at k data)
  ∧ length (Client.remove_at k (Client.remove_at k data))
    = (length (Client.frames st) - 2)%nat.
Proof.
  intros Hd Hk Hlen flipbook data relay_first completion_first.
  split; [|split; [|split]].
  - unfold Client.deleteFrame, Client.at_index.
    rewrite decide_False by lia. simpl. rewrite decide_True by done.
    destruct (Client.frames st !! Z.to_nat k) as [f|] eqn:E.
    + rewrite (Hd _ _ E). do 2 f_equal. lia.
    + apply lookup_ge_None in E. lia.
  - subst relay_first. rewrite deleteFrame_then_data.
    unfold Client.on_frame_deleted. rewrite decide_True by done. simpl.
    by rewrite filter_dense, remove_at_fmap.
  - subst completion_first. unfold Client.on_frame_deleted.
    rewrite decide_True by done.
    change (Client.frames {| Client.currentFlipbookId := _;
                             Client.currentFrameIndex := _;
                             Client.frames := ?l |}) with l.
    rewrite filter_dense by (done || apply deleteFrame_then_dense).
    by rewrite remove_at_fmap, deleteFrame_then_data.
  - assert (length data = length (Client.frames st)) as Hdata
      by apply length_fmap.
    assert (length (Client.remove_at k data) = pred (length data)) as Hone
      by (apply remove_at_length; lia).
    rewrite remove_at_length; lia.
Qed.

Lemma own_deletion_is_applied_twice_witness :
  Client.drawingData
    <$> Client.frames
          (Client.deleteFrame_then 0
             (Client.on_frame_deleted "cat" 0 client_three))
  = [Some "c"].
Proof.
  refine (proj1 (proj2 (own_deletion_is_applied_twice 0 client_three _ _ _))).
  - intros i f Hf. destruct i as [|[|[|i]]]; simpl in Hf; by simplify_eq.
  - lia.
  - simpl. lia.
Defined.

(** From the store to the screen: when a socket joins a flipbook whose
    documents all carry a name and an index, the snapshot it is sent puts
    every stored frame with a non-negative index at that position of the
    client's frame list. *)
Theorem join_shows_every_stored_frame (truthy : string → bool)
    (socket f : string) (w : World) (st : Client.State)
    (snapshot : list Client.Frame) :
  unique_index (drawings w) → store_answers 1 w = true →
  mapM wire (listing (Some f) (drawings w)) = Some snapshot →
  deliveries (since w (exec (on_join_flipbook socket (Some f)) w))
    = [(socket, FlipbookState (listing (Some f) (drawings w)))]
  ∧ ∀ d i, d ∈ drawings w → key d = (Some f, Some i) → 0 ≤ i →
      Client.frames (Client.on_flipbook_state truthy snapshot st)
        !! Z.to_nat i
      = Some (Client.mkFrame f i (Client.or_null truthy (drawingData d))).
Proof.
  intros Hu Ha Hsnap. split.
  - unfold exec. rewrite on_join_flipbook_run. unfold snapshot_of.
    rewrite (find_run (ByFlipbook (Some f)) (SelFlipbook (Some f)) true
               (exec (socket_join socket (Some f)) w) eq_refl Ha).
    unfold since, log, answered, exec, socket_join, modify, set_rooms. simpl.
    by rewrite <- app_assoc, drop_trace.
  - apply mapM_Some in Hsnap.
    assert (Some ∘ Client.frameIndex <$> snapshot
            = frameIndex <$> listing (Some f) (drawings w)) as Hidx.
    { induction Hsnap as [|d x l k Hd _ IH]; [done|].
      rewrite !fmap_cons, IH. f_equal. unfold wire in Hd.
      destruct (flipbookId d), (frameIndex d); by simplify_eq. }
    assert (NoDup (Client.frameIndex <$> snapshot)) as Hnd.
    { apply (NoDup_fmap_1 Some). rewrite <- list_fmap_compose, Hidx.
      by apply listing_NoDup. }
    intros d i Hd Hk Hi.
    assert (d ∈ listing (Some f) (drawings w)) as Hin.
    { apply listing_elem. split; [done|]. unfold key in Hk. congruence. }
    assert (Client.mkFrame f i (drawingData d) ∈ snapshot) as Hin'.
    { clear Hidx Hnd. induction Hsnap as [|d' x l k Hd' _ IH].
      - by apply elem_of_nil in Hin.
      - apply elem_of_cons in Hin as [<-|Hin]; [|right; by apply IH].
        assert (x = Client.mkFrame f i (drawingData d)) as ->; [|left].
        unfold wire, key in *.
        destruct (flipbookId d), (frameIndex d); by simplify_eq. }
    destruct (on_flipbook_state_frames truthy snapshot st)
      as (_ & _ & _ & Hplace & _).
    apply (Hplace Hnd _ Hin' Hi).
Qed.

Lemma join_shows_every_stored_frame_witness :
  Client.frames
    (Client.on_flipbook_state (λ _, true)
       [Client.mkFrame "cat" 0 (Some "a"); Client.mkFrame "cat" 1 (Some "b")]
       client_three)
    !! Z.to_nat 1
  = Some (Client.mkFrame "cat" 1 (Some "b")).
Proof.
  assert (unique_index (drawings world_stored)) as H0.
  { apply (bool_decide_unpack _). vm_compute. exact I. }
  refine (proj2 (join_shows_every_stored_frame (λ _, true) "C" "cat"
                   world_stored client_three _ H0 eq_refl eq_refl)
            (frame "cat" 1 "b" 10) 1 _ eq_refl _).
  - vm_compute. left.
  - lia.
Defined.
